(** * libbgp: UPDATE message, path attributes and the IPv6 RIB

    A shallow embedding of
      - src/unnamed/part_000                   (path attribute codec),
      - src/src/protocol/bgp-update-message.cc (UPDATE message),
      - src/src/bgp-rib6.cc                    (IPv6 RIB),
    followed by the properties established about them.

    Conventions.  Fixed-width integers are [Z] with the wrap-around written
    out ([uint8], [uint16], [uint32], [uint64]).  A [ssize_t] result is a [Z];
    failure is [-1] as in the source.  A C++ exception (the string thrown by
    [getAttrib], a failing [dynamic_cast] to a reference), a failed [assert]
    and a [memcpy] from a null pointer abort the call: such calls return
    [None].  Locks and log output are left out. *)

From Stdlib Require Import ZArith List Bool Lia.
Import ListNotations.
Local Open Scope Z_scope.

(** ** Machine integers *)

Definition uint8 (x : Z) : Z := x mod 256.
Definition uint16 (x : Z) : Z := x mod 65536.
Definition uint32 (x : Z) : Z := x mod 4294967296.
Definition uint64 (x : Z) : Z := x mod 18446744073709551616.

(** [int8_t] reading of a byte. *)
Definition int8 (x : Z) : Z :=
  let b := uint8 x in if 128 <=? b then b - 256 else b.

Definition bool_to_Z (b : bool) : Z := if b then 1 else 0.

(** ** Error codes (bgp-errcode.h) *)

Definition E_HEADER : Z := 1.
Definition E_UPDATE : Z := 3.

Definition E_LENGTH : Z := 2.

Definition E_UNSPEC_UPDATE : Z := 0.
Definition E_UNSPEC : Z := 0.
Definition E_ATTR_LIST : Z := 1.
Definition E_BAD_WELL_KNOWN : Z := 2.
Definition E_MISS_WELL_KNOWN : Z := 3.
Definition E_ATTR_FLAG : Z := 4.
Definition E_ATTR_LEN : Z := 5.
Definition E_ORIGIN : Z := 6.
Definition E_AS_PATH : Z := 11.

(** The error triple held by an attribute and by a message:
    [err_code], [err_subcode] and the error data buffer. *)
Record BgpError : Type := mkError {
  err_code : Z;
  err_subcode : Z;
  err_buf : list Z
}.

(** State left by the constructors: no error. *)
Definition no_error : BgpError := mkError 0 0 [].

(** ** Attribute type codes (bgp-path-attrib.h) *)

Definition ORIGIN : Z := 1.
Definition AS_PATH : Z := 2.
Definition NEXT_HOP : Z := 3.
Definition MULTI_EXIT_DISC : Z := 4.
Definition LOCAL_PREF : Z := 5.
Definition ATOMIC_AGGREGATE : Z := 6.
Definition AGGREATOR : Z := 7.
Definition COMMUNITY : Z := 8.
Definition AS4_PATH : Z := 17.
Definition AS4_AGGREGATOR : Z := 18.

Definition AS_SET : Z := 1.
Definition AS_SEQUENCE : Z := 2.

Definition AS_TRANS : Z := 23456.

(** ** Path attributes *)

(** [BgpAsPathSegment]: width flag, segment type and the ASNs. *)
Record BgpAsPathSegment : Type := mkSeg {
  seg_is_4b : bool;
  seg_type : Z;
  seg_value : list Z
}.

(** The class of an attribute object and the fields its class adds.
    [BodyOther] stands for the classes whose members no modelled function
    reads (Nexthop, Med, LocalPref, AtomicAggregate, Aggregator, Community,
    As4Aggregator): [cls] is the type code the class is registered for and
    [payload] its value bytes. *)
Inductive AttribBody : Type :=
| BodyUnknow (value : list Z)
| BodyOrigin (origin : Z)
| BodyAsPath (is_4b : bool) (as_paths : list BgpAsPathSegment)
| BodyAs4Path (as4_paths : list BgpAsPathSegment)
| BodyOther (cls : Z) (payload : list Z).

(** [BgpPathAttrib]: the fields of the base class and the body.  The flag
    called [extened] in part_000 is [extended] in the header. *)
Record BgpPathAttrib : Type := mkAttrib {
  optional : bool;
  transitive : bool;
  partial : bool;
  extened : bool;
  type_code : Z;
  value_len : Z;
  attr_err : BgpError;
  body : AttribBody
}.

Definition set_body (a : BgpPathAttrib) (b : AttribBody) : BgpPathAttrib :=
  mkAttrib (optional a) (transitive a) (partial a) (extened a)
           (type_code a) (value_len a) (attr_err a) b.

(** [clone()] is a deep copy: the same value. *)
Definition clone (a : BgpPathAttrib) : BgpPathAttrib := a.

(** ** Buffers *)

(** A pointer into a byte buffer is the memory it points into, read as a
    function from the offset to the byte there.  [getValue<T>(&p)] reads a
    [T] at [p] and advances [p] by [sizeof(T)]; [putValue<T>(&p, v)] stores
    and advances (value-op.h).  Multi-byte values are read in host order,
    a little-endian host being assumed; [ntohs] of a 2-byte read is the
    big-endian reading on every host. *)
Definition Mem : Type := Z -> Z.

Definition get8 (p : Mem) (off : Z) : Z := uint8 (p off).

Definition get16_host (p : Mem) (off : Z) : Z :=
  get8 p off + 256 * get8 p (off + 1).

Definition get32_host (p : Mem) (off : Z) : Z :=
  get8 p off + 256 * get8 p (off + 1) + 65536 * get8 p (off + 2)
  + 16777216 * get8 p (off + 3).

(** [ntohs(getValue<uint16_t>(&p))]. *)
Definition get16_net (p : Mem) (off : Z) : Z :=
  256 * get8 p off + get8 p (off + 1).

Definition put8 (p : Mem) (off : Z) (v : Z) : Mem :=
  fun i => if i =? off then uint8 v else p i.

(** [putValue<uint16_t>(&p, htons(v))]. *)
Definition put16_net (p : Mem) (off : Z) (v : Z) : Mem :=
  put8 (put8 p off (uint16 v / 256)) (off + 1) (uint16 v mod 256).

(** [memcpy(p + off, src, n)] with the source bytes given as a list. *)
Fixpoint put_bytes (p : Mem) (off : Z) (src : list Z) : Mem :=
  match src with
  | [] => p
  | b :: rest => put_bytes (put8 p off b) (off + 1) rest
  end.

(** The [n] bytes at [p + off]. *)
Definition read_bytes (p : Mem) (off : Z) (n : Z) : list Z :=
  map (fun i => get8 p (off + Z.of_nat i)) (seq 0 (Z.to_nat n)).

Definition mem_of_list (l : list Z) : Mem :=
  fun i => if i <? 0 then 0 else nth (Z.to_nat i) l 0.

(** ** Attribute codec (part_000) *)

Module PathAttrib.

(** A freshly constructed attribute object.  [BgpPathAttrib()] clears the
    error fields only; the other base fields, which the constructor leaves
    unset, read as zero here. *)
Definition new_attrib (b : AttribBody) : BgpPathAttrib :=
  mkAttrib false false false false 0 0 no_error b.

Definition set_err (a : BgpPathAttrib) (e : BgpError) : BgpPathAttrib :=
  mkAttrib (optional a) (transitive a) (partial a) (extened a)
           (type_code a) (value_len a) e (body a).

Definition set_value_len (a : BgpPathAttrib) (n : Z) : BgpPathAttrib :=
  mkAttrib (optional a) (transitive a) (partial a) (extened a)
           (type_code a) n (attr_err a) (body a).

(** The null pointer given to [setError] with [data_len = 0]. *)
Definition NULL : Mem := fun _ => 0.

(** [setError(err, suberr, data, data_len)]: with [data_len = 0] the buffer
    is left as it is.  The assertion that no error data is there yet holds
    for an object that has not failed before. *)
Definition setError (a : BgpPathAttrib) (err suberr : Z) (data : Mem)
    (data_len : Z) : BgpPathAttrib :=
  set_err a
    (mkError err suberr
       (if data_len =? 0 then err_buf (attr_err a)
        else read_bytes data 0 data_len)).

(** [getType]: the type code as an [int8_t], [-1] on a short buffer. *)
Definition getType (from : Mem) (buffer_sz : Z) : Z :=
  if buffer_sz <? 3 then -1 else int8 (get8 from 1).

Definition parseHeader (a : BgpPathAttrib) (from : Mem) (buffer_sz : Z)
  : Z * BgpPathAttrib :=
  if buffer_sz <? 3 then
    (-1, setError a E_UPDATE E_UNSPEC_UPDATE NULL 0)
  else
    let flags := get8 from 0 in
    let a1 :=
      mkAttrib (Z.odd (Z.shiftr flags 7)) (Z.odd (Z.shiftr flags 6))
               (Z.odd (Z.shiftr flags 5)) (Z.odd (Z.shiftr flags 4))
               (get8 from 1) (get8 from 2) (attr_err a) (body a) in
    if value_len a1 >? buffer_sz - 3 then
      (-1, setError a1 E_UPDATE E_UNSPEC_UPDATE NULL 0)
    else (2, a1).

Definition writeHeader (a : BgpPathAttrib) (to : Mem) (buffer_sz : Z)
  : Z * Mem :=
  if buffer_sz <? 2 then (-1, to)
  else
    let flags :=
      Z.lor (Z.lor (Z.lor (Z.shiftl (bool_to_Z (optional a)) 7)
                          (Z.shiftl (bool_to_Z (transitive a)) 6))
                   (Z.shiftl (bool_to_Z (partial a)) 5))
            (Z.shiftl (bool_to_Z (extened a)) 4) in
    (2, put8 (put8 to 0 flags) 1 (type_code a)).

(** *** BgpPathAttribUnknow *)

Definition Unknow_parse (a : BgpPathAttrib) (from : Mem) (length : Z)
  : Z * BgpPathAttrib :=
  let (r, a1) := parseHeader a from length in
  if negb (r =? 3) then (-1, a1)
  else if negb (optional a1) && transitive a1 then
    (-1, set_value_len
           (setError a1 E_UPDATE E_BAD_WELL_KNOWN from (value_len a1 + 3)) 0)
  else
    (length, set_body a1 (BodyUnknow (read_bytes from 3 (value_len a1)))).

Definition Unknow_write (a : BgpPathAttrib) (value : list Z) (to : Mem)
    (buffer_sz : Z) : Z * Mem :=
  if buffer_sz <? value_len a + 3 then (-1, to)
  else
    let (r, to1) := writeHeader a to 2 in
    if negb (r =? 2) then (-1, to1)
    else
      let to2 := put8 to1 2 (value_len a) in
      let to3 :=
        if value_len a >? 0 then
          put_bytes to2 3
            (map (fun i => nth i value 0) (seq 0 (Z.to_nat (value_len a))))
        else to2 in
      (value_len a + 3, to3).

(** *** BgpPathAttribOrigin *)

Definition Origin_parse (a : BgpPathAttrib) (from : Mem) (length : Z)
  : Z * BgpPathAttrib :=
  let (r, a1) := parseHeader a from length in
  if negb (r =? 3) then (-1, a1)
  else if value_len a1 <? 1 then
    (-1, setError a1 E_UPDATE E_UNSPEC_UPDATE NULL 0)
  else if negb (value_len a1 =? 1) then
    (-1, setError a1 E_UPDATE E_ATTR_LEN from 4)
  else if optional a1 || negb (transitive a1) then
    (-1, setError a1 E_UPDATE E_ATTR_FLAG from 4)
  else
    let origin := get8 from 3 in
    let a2 := set_body a1 (BodyOrigin origin) in
    if origin >? 2 then (-1, setError a2 E_UPDATE E_ORIGIN from 4)
    else (4, a2).

Definition Origin_write (a : BgpPathAttrib) (origin : Z) (to : Mem)
    (buffer_sz : Z) : Z * Mem :=
  if buffer_sz <? 3 then (-1, to)
  else
    let (r, to1) := writeHeader a to 2 in
    if negb (r =? 2) then (-1, to1)
    else (4, put8 (put8 to1 2 1) 3 origin).

(** *** BgpPathAttribAsPath *)

(** The [n_asn] values of a segment, read at [off]. *)
Definition read_asns (is_4b : bool) (from : Mem) (off : Z) (n_asn : Z)
  : list Z :=
  map (fun i => if is_4b then get32_host from (off + 4 * Z.of_nat i)
                else get16_host from (off + 2 * Z.of_nat i))
      (seq 0 (Z.to_nat n_asn)).

(** The segment loop.  [off] is the read position, [parsed_len] the
    [uint8_t] count.  Every iteration adds at least 2 to [parsed_len], so
    [fuel] above [value_len] is never used up. *)
Fixpoint AsPath_segments (fuel : nat) (a : BgpPathAttrib) (is_4b : bool)
    (from : Mem) (off : Z) (parsed_len : Z) (acc : list BgpAsPathSegment)
  : Z * BgpPathAttrib :=
  if negb (parsed_len <? value_len a) then
    (parsed_len + 3, set_body a (BodyAsPath is_4b acc))
  else
    match fuel with
    | O => (-1, a)
    | S fuel' =>
        if value_len a - parsed_len <? 3 then
          (-1, setError (set_body a (BodyAsPath is_4b acc))
                 E_UPDATE E_AS_PATH NULL 0)
        else
          let type := get8 from off in
          let n_asn := get8 from (off + 1) in
          let parsed_len1 := uint8 (parsed_len + 2) in
          let asns_length :=
            uint8 (if is_4b then n_asn * 4 else n_asn * 2) in
          if parsed_len1 + asns_length >? value_len a then
            (-1, setError (set_body a (BodyAsPath is_4b acc))
                   E_UPDATE E_AS_PATH NULL 0)
          else
            let path := mkSeg is_4b type
                          (read_asns is_4b from (off + 2) n_asn) in
            AsPath_segments fuel' a is_4b from
              (off + 2 + (if is_4b then 4 else 2) * n_asn)
              (uint8 (parsed_len1 + asns_length)) (acc ++ [path])
    end.

Definition AsPath_parse (a : BgpPathAttrib) (is_4b : bool)
    (as_paths : list BgpAsPathSegment) (from : Mem) (length : Z)
  : Z * BgpPathAttrib :=
  let (r, a1) := parseHeader a from length in
  if negb (r =? 3) then (-1, a1)
  else if optional a1 || negb (transitive a1) then
    (-1, setError a1 E_UPDATE E_ATTR_FLAG from 4)
  else if value_len a1 =? 0 then (3, a1)
  else
    AsPath_segments (S (Z.to_nat (value_len a1))) a1 is_4b from 3 0 as_paths.

End PathAttrib.

(** ** UPDATE message *)

(** [Route]: the prefix, a [uint32_t] in network byte order, and the
    length.  [Route(prefix, length)] stores the two. *)
Record Route : Type := mkRoute {
  route_prefix : Z;
  route_length : Z
}.

Record BgpUpdateMessage : Type := mkMsg {
  use_4b_asn : bool;
  withdrawn_routes : list Route;
  path_attribute : list BgpPathAttrib;
  nlri : list Route;
  msg_err : BgpError
}.

Definition set_attribs (m : BgpUpdateMessage) (l : list BgpPathAttrib)
  : BgpUpdateMessage :=
  mkMsg (use_4b_asn m) (withdrawn_routes m) l (nlri m) (msg_err m).

(** Modelled from the spec: [setError] of the message base class is not
    under src/; it records the error triple that the message surfaces. *)
Definition setError (m : BgpUpdateMessage) (c s : Z) (d : list Z)
  : BgpUpdateMessage :=
  mkMsg (use_4b_asn m) (withdrawn_routes m) (path_attribute m) (nlri m)
        (mkError c s d).

(** Type codes of an attribute list, in order. *)
Definition type_codes (l : list BgpPathAttrib) : list Z := map type_code l.

Module UpdateMessage.

(** [getAttrib]: the first attribute of the type; throws when there is
    none. *)
Fixpoint getAttrib (l : list BgpPathAttrib) (type : Z) : option BgpPathAttrib :=
  match l with
  | [] => None
  | attrib :: rest =>
      if type_code attrib =? type then Some attrib else getAttrib rest type
  end.

Fixpoint hasAttrib_list (l : list BgpPathAttrib) (type : Z) : bool :=
  match l with
  | [] => false
  | attrib :: rest =>
      if type_code attrib =? type then true else hasAttrib_list rest type
  end.

Definition hasAttrib (m : BgpUpdateMessage) (type : Z) : bool :=
  hasAttrib_list (path_attribute m) type.

Definition addAttrib (m : BgpUpdateMessage) (attrib : BgpPathAttrib)
  : bool * BgpUpdateMessage :=
  if hasAttrib m (type_code attrib) then (false, m)
  else (true, set_attribs m (path_attribute m ++ [clone attrib])).

(** [dropAttrib]: erases the first attribute of the type. *)
Fixpoint dropAttrib_list (l : list BgpPathAttrib) (type : Z)
  : bool * list BgpPathAttrib :=
  match l with
  | [] => (false, [])
  | attr :: rest =>
      if type_code attr =? type then (true, rest)
      else let (r, rest') := dropAttrib_list rest type in (r, attr :: rest')
  end.

Definition dropAttrib (m : BgpUpdateMessage) (type : Z)
  : bool * BgpUpdateMessage :=
  let (r, l) := dropAttrib_list (path_attribute m) type in
  (r, set_attribs m l).

Definition updateAttribute (m : BgpUpdateMessage) (attrib : BgpPathAttrib)
  : bool * BgpUpdateMessage :=
  addAttrib (snd (dropAttrib m (type_code attrib))) attrib.

(** A reference obtained from [getAttrib] designates the first attribute of
    the type; assigning through it rewrites that element in place. *)
Fixpoint assign_first (l : list BgpPathAttrib) (type : Z) (b : AttribBody)
  : list BgpPathAttrib :=
  match l with
  | [] => []
  | attr :: rest =>
      if type_code attr =? type then set_body attr b :: rest
      else attr :: assign_first rest type b
  end.

(** *** validateAttribs *)

(** State of the loop: the three flags and [typecode_bitsmap]. *)
Record ValidateState : Type := mkVS {
  has_origin : bool;
  has_nexthop : bool;
  has_as_path : bool;
  typecode_bitsmap : Z
}.

(** One iteration; [None] is the early [return false] on a duplicate.
    [1UL << type_code] is an [unsigned long]; the [&=] stores a [uint32_t]. *)
Definition validate_step (st : ValidateState) (attr : BgpPathAttrib)
  : option ValidateState :=
  let tc := type_code attr in
  let st1 :=
    if tc =? AS_PATH then
      mkVS (has_origin st) (has_nexthop st) true (typecode_bitsmap st)
    else if tc =? NEXT_HOP then
      mkVS (has_origin st) true (has_as_path st) (typecode_bitsmap st)
    else if tc =? ORIGIN then
      mkVS true (has_nexthop st) (has_as_path st) (typecode_bitsmap st)
    else st in
  if Z.land (Z.shiftr (typecode_bitsmap st1) tc) 1 =? 1 then None
  else
    Some (mkVS (has_origin st1) (has_nexthop st1) (has_as_path st1)
            (uint32 (Z.land (typecode_bitsmap st1)
                       (uint64 (Z.lnot (uint64 (Z.shiftl 1 tc))))))).

Fixpoint validate_loop (st : ValidateState) (l : list BgpPathAttrib)
  : option ValidateState :=
  match l with
  | [] => Some st
  | attr :: rest =>
      match validate_step st attr with
      | None => None
      | Some st' => validate_loop st' rest
      end
  end.

Definition validateAttribs (m : BgpUpdateMessage) : bool * BgpUpdateMessage :=
  match validate_loop (mkVS false false false 0) (path_attribute m) with
  | None => (false, setError m E_UPDATE E_ATTR_LIST [])
  | Some st =>
      if negb (has_as_path st && has_nexthop st && has_origin st)
      then (false, setError m E_UPDATE E_MISS_WELL_KNOWN [])
      else (true, m)
  end.

(** *** restoreAsPath *)

(** The loop over [as4_path.as4_paths] building [full_as_path]; [None] is
    the [return false] on a 2-byte segment. *)
Fixpoint collect_as4 (as4_paths : list BgpAsPathSegment) (full_as_path : list Z)
  : option (list Z) :=
  match as4_paths with
  | [] => Some full_as_path
  | seg4 :: rest =>
      if negb (seg_is_4b seg4) then None
      else if seg_type seg4 =? AS_SEQUENCE
           then collect_as4 rest (full_as_path ++ seg_value seg4)
           else collect_as4 rest full_as_path
  end.

(** The loop looking for the first ASN above [0xffff].  An iterator into
    [full_as_path] is the part of the vector from the iterator to the end:
    [end()] is [[]], [*it] the head and [it++] the tail. *)
Fixpoint find_4b (iter_4b : list Z) (has_4b : bool) : bool * list Z :=
  match iter_4b with
  | [] => (has_4b, [])
  | asn :: rest => if asn >? 65535 then (true, iter_4b) else find_4b rest true
  end.

(** The loop over [seg2.value], with [local_iter] and [incr_iter]. *)
Fixpoint restore_values (has_4b : bool) (local_iter : list Z)
    (incr_iter : bool) (value : list Z) : list Z :=
  match value with
  | [] => []
  | v :: rest =>
      let asn := uint16 v in
      match local_iter with
      | cur :: next =>
          if has_4b then
            let incr_iter' := if asn =? 23456 then true else incr_iter in
            let new_asn := if asn =? 23456 then cur else asn in
            new_asn :: restore_values has_4b
                         (if incr_iter' then next else local_iter)
                         incr_iter' rest
          else asn :: restore_values has_4b local_iter incr_iter rest
      | [] => asn :: restore_values has_4b local_iter incr_iter rest
      end
  end.

(** The loop over [path.as_paths] when an AS4_PATH is there; [None] is the
    [return false] on a 4-byte segment. *)
Fixpoint restore_segs (has_4b : bool) (iter_4b : list Z)
    (as_paths new_segs : list BgpAsPathSegment)
  : option (list BgpAsPathSegment) :=
  match as_paths with
  | [] => Some new_segs
  | seg2 :: rest =>
      if seg_is_4b seg2 then None
      else
        let new_seg :=
          mkSeg true (seg_type seg2)
                (restore_values has_4b iter_4b false (seg_value seg2)) in
        restore_segs has_4b iter_4b rest (new_segs ++ [new_seg])
  end.

(** The loop over [path.as_paths] when there is no AS4_PATH. *)
Fixpoint widen_segs (as_paths new_segs : list BgpAsPathSegment)
  : option (list BgpAsPathSegment) :=
  match as_paths with
  | [] => Some new_segs
  | seg2 :: rest =>
      if seg_is_4b seg2 then None
      else
        let new_seg := mkSeg true (seg_type seg2) (map uint16 (seg_value seg2)) in
        widen_segs rest (new_segs ++ [new_seg])
  end.

Definition restoreAsPath (m : BgpUpdateMessage)
  : option (bool * BgpUpdateMessage) :=
  if negb (hasAttrib m AS_PATH) then Some (true, m)
  else
    match getAttrib (path_attribute m) AS_PATH with
    | None => None
    | Some path =>
        match body path with
        | BodyAsPath is_4b as_paths =>
            if is_4b then Some (true, m)
            else if negb (hasAttrib m AS4_PATH) then
              match widen_segs as_paths [] with
              | None => Some (false, m)
              | Some new_segs =>
                  Some (true,
                        set_attribs m
                          (assign_first (path_attribute m) AS_PATH
                             (BodyAsPath true new_segs)))
              end
            else
              match getAttrib (path_attribute m) AS4_PATH with
              | None => None
              | Some as4_path =>
                  match body as4_path with
                  | BodyAs4Path as4_paths =>
                      match collect_as4 as4_paths [] with
                      | None => Some (false, m)
                      | Some full_as_path =>
                          let m1 := snd (dropAttrib m AS4_PATH) in
                          let (has_4b, iter_4b) := find_4b full_as_path false in
                          match restore_segs has_4b iter_4b as_paths [] with
                          | None => Some (false, m1)
                          | Some new_segs =>
                              Some (true,
                                    set_attribs m1
                                      (assign_first (path_attribute m1) AS_PATH
                                         (BodyAsPath true new_segs)))
                          end
                      end
                  | _ => None
                  end
              end
        | _ => None
        end
    end.

(** *** downgradeAsPath *)

(** Modelled from the spec: the constructor [BgpPathAttribAs4Path()] is not
    under src/.  The object it builds is an AS4_PATH attribute without
    segments: type code [AS4_PATH], under which [parse] creates the class
    and [restoreAsPath] looks it up, and the flags of an optional transitive
    attribute. *)
Definition new_As4Path : BgpPathAttrib :=
  mkAttrib true true false false AS4_PATH 0 no_error (BodyAs4Path []).

(** [uint16_t new_as = asn >= 0xffff ? 23456 : asn]. *)
Definition downgrade_asn (asn : Z) : Z :=
  uint16 (if asn >=? 65535 then 23456 else asn).

(** The loop over [path.as_paths]: the 2-byte segments and the segments
    pushed to [path4]; [None] is the [return false] on a 2-byte segment. *)
Fixpoint downgrade_segs (as_paths new_segs as4_paths : list BgpAsPathSegment)
  : option (list BgpAsPathSegment * list BgpAsPathSegment) :=
  match as_paths with
  | [] => Some (new_segs, as4_paths)
  | seg4 :: rest =>
      if negb (seg_is_4b seg4) then None
      else
        let new_seg :=
          mkSeg false (seg_type seg4) (map downgrade_asn (seg_value seg4)) in
        downgrade_segs rest (new_segs ++ [new_seg]) (as4_paths ++ [seg4])
  end.

Definition downgradeAsPath (m : BgpUpdateMessage)
  : option (bool * BgpUpdateMessage) :=
  if negb (hasAttrib m AS_PATH) then Some (true, m)
  else
    match getAttrib (path_attribute m) AS_PATH with
    | None => None
    | Some path =>
        match body path with
        | BodyAsPath is_4b as_paths =>
            if negb is_4b then Some (true, m)
            else
              match downgrade_segs as_paths [] [] with
              | None => Some (false, m)
              | Some (new_segs, as4_paths) =>
                  let path4 := set_body new_As4Path (BodyAs4Path as4_paths) in
                  let m1 := snd (updateAttribute m path4) in
                  Some (true,
                        set_attribs m1
                          (assign_first (path_attribute m1) AS_PATH
                             (BodyAsPath false new_segs)))
              end
        | _ => None
        end
    end.

(** *** write and parse *)

(** [p + off] as a pointer, and a buffer written through such a pointer
    seen from [p] again. *)
Definition shift (p : Mem) (off : Z) : Mem := fun i => p (off + i).
Definition unshift (q : Mem) (off : Z) : Mem := fun i => q (i - off).

(** A freshly constructed message. *)
Definition new_msg (use_4b_asn : bool) : BgpUpdateMessage :=
  mkMsg use_4b_asn [] [] [] no_error.

(** Modelled from the spec: [forwardParseError] is not under src/; parsers
    surface the first fatal error encountered, so the message takes the
    error triple of the attribute that failed. *)
Definition forwardParseError (m : BgpUpdateMessage) (attrib : BgpPathAttrib)
  : BgpUpdateMessage :=
  mkMsg (use_4b_asn m) (withdrawn_routes m) (path_attribute m) (nlri m)
        (attr_err attrib).

Definition set_withdrawn (m : BgpUpdateMessage) (l : list Route)
  : BgpUpdateMessage :=
  mkMsg (use_4b_asn m) l (path_attribute m) (nlri m) (msg_err m).

Definition set_nlri (m : BgpUpdateMessage) (l : list Route)
  : BgpUpdateMessage :=
  mkMsg (use_4b_asn m) (withdrawn_routes m) (path_attribute m) l (msg_err m).

Section Codec.

(** The memory that follows the local variable [route_len] in the frame of
    [write]: [memcpy(buffer, &route_len, pfx_buf_sz)] copies [route_len] and
    then these bytes. *)
Variable stack_byte : Z -> Z.

(** The [write] and [parse] members of the attribute classes that are not
    under src/ (AsPath::write, As4Path, Nexthop, Med, LocalPref,
    AtomicAggregate, Aggregator, Community, As4Aggregator).  [write_missing a
    to buffer_sz] returns the result and the buffer; [parse_missing t u from
    length] is [parse] of the object that [BgpUpdateMessage::parse] creates
    for type [t] in a message with [use_4b_asn = u]. *)
Variable write_missing : BgpPathAttrib -> Mem -> Z -> Z * Mem.
Variable parse_missing : Z -> bool -> Mem -> Z -> Z * BgpPathAttrib.

(** Virtual call [attr->write(buffer, buf_left)]. *)
Definition attr_write (attr : BgpPathAttrib) (to : Mem) (buffer_sz : Z)
  : Z * Mem :=
  match body attr with
  | BodyUnknow value => PathAttrib.Unknow_write attr value to buffer_sz
  | BodyOrigin origin => PathAttrib.Origin_write attr origin to buffer_sz
  | _ => write_missing attr to buffer_sz
  end.

(** The [switch] on [attr_type] and the virtual call [attrib->parse].  The
    default case creates the container of an unknown attribute, the class
    [BgpPathAttribUnknow] of part_000. *)
Definition attr_parse (attr_type : Z) (use_4b : bool) (from : Mem)
    (length : Z) : Z * BgpPathAttrib :=
  if attr_type =? ORIGIN then
    PathAttrib.Origin_parse (PathAttrib.new_attrib (BodyOrigin 0)) from length
  else if attr_type =? AS_PATH then
    PathAttrib.AsPath_parse (PathAttrib.new_attrib (BodyAsPath use_4b []))
      use_4b [] from length
  else if (attr_type =? NEXT_HOP) || (attr_type =? MULTI_EXIT_DISC)
          || (attr_type =? LOCAL_PREF) || (attr_type =? ATOMIC_AGGREGATE)
          || (attr_type =? AGGREATOR) || (attr_type =? COMMUNITY)
          || (attr_type =? AS4_PATH) || (attr_type =? AS4_AGGREGATOR) then
    parse_missing attr_type use_4b from length
  else
    PathAttrib.Unknow_parse (PathAttrib.new_attrib (BodyUnknow [])) from length.

(** The bytes [memcpy(buffer, &route_len, pfx_buf_sz)] copies. *)
Definition route_len_bytes (route_len pfx_buf_sz : Z) : list Z :=
  map (fun i => if Nat.eqb i 0 then route_len else stack_byte (Z.of_nat i))
      (seq 0 (Z.to_nat pfx_buf_sz)).

(** The loop over [withdrawn_routes] and the one over [nlri] in [write],
    which differ in the name of the counter only.  [buffer] is the write
    position in [to]; the flag is [false] on [return -1]. *)
Fixpoint write_routes (routes : list Route) (to : Mem) (buffer : Z)
    (written_len tot_written buf_sz : Z) : bool * Mem * Z * Z :=
  match routes with
  | [] => (true, to, buffer, written_len)
  | route :: rest =>
      let route_len := uint8 (route_length route) in
      let pfx_buf_sz := (route_len + 7) / 8 in
      if 1 + written_len + pfx_buf_sz + tot_written >? buf_sz then
        (false, to, buffer, written_len)
      else
        let to1 := put8 to buffer route_len in
        let to2 :=
          put_bytes to1 (buffer + 1) (route_len_bytes route_len pfx_buf_sz) in
        write_routes rest to2 (buffer + 1 + pfx_buf_sz)
          (written_len + 1 + pfx_buf_sz) tot_written buf_sz
  end.

Inductive AttribsWritten : Type :=
| WAbort                                  (* assert(buf_left >= 0) *)
| WFail (to : Mem)                        (* return -1 *)
| WDone (to : Mem) (written_attrib_length : Z).

(** The loop over [path_attribute] in [write]: every attribute is written
    at the same [buffer]. *)
Fixpoint write_attribs (attrs : list BgpPathAttrib) (to : Mem) (buffer : Z)
    (written_attrib_length tot_written buf_sz : Z) : AttribsWritten :=
  match attrs with
  | [] => WDone to written_attrib_length
  | attr :: rest =>
      let buf_left := buf_sz - written_attrib_length - tot_written in
      if buf_left <? 0 then WAbort
      else
        let (write_ret, q) := attr_write attr (shift to buffer) buf_left in
        if write_ret <? 0 then WFail (unshift q buffer)
        else write_attribs rest (unshift q buffer) buffer
               (written_attrib_length + write_ret) tot_written buf_sz
  end.

(** [BgpUpdateMessage::write]; [None] is the failed assertion. *)
Definition write (m : BgpUpdateMessage) (to : Mem) (buf_sz : Z)
  : option (Z * Mem) :=
  if buf_sz <? 4 then Some (-1, to)
  else
    let withdrawn_routes_len_ptr := 0 in
    match write_routes (withdrawn_routes m) to 1 0 0 buf_sz with
    | (false, to1, _, _) => Some (-1, to1)
    | (true, to1, buffer1, written_withdrawn_length) =>
        let to2 :=
          put16_net to1 withdrawn_routes_len_ptr written_withdrawn_length in
        let tot_written1 := written_withdrawn_length + 2 in
        let route_attrib_len_ptr := buffer1 in
        let buffer2 := buffer1 + 1 in
        match write_attribs (path_attribute m) to2 buffer2 0 tot_written1
                buf_sz with
        | WAbort => None
        | WFail to3 => Some (-1, to3)
        | WDone to3 written_attrib_length =>
            let to4 := put16_net to3 route_attrib_len_ptr written_attrib_length in
            let tot_written2 := tot_written1 + written_attrib_length + 2 in
            match write_routes (nlri m) to4 buffer2 0 tot_written2 buf_sz with
            | (false, to5, _, _) => Some (-1, to5)
            | (true, to5, _, written_nlri_len) =>
                Some (tot_written2 + written_nlri_len, to5)
            end
        end
    end.

(** [memcpy(&prefix, buffer, route_buffer_len)] into [prefix = 0]. *)
Definition read_prefix (from : Mem) (buffer route_buffer_len : Z) : Z :=
  fold_right (fun b acc => b + 256 * acc) 0
    (read_bytes from buffer route_buffer_len).

Inductive RoutesParsed : Type :=
| RDiverge
| RFail (routes : list Route)
| RDone (routes : list Route) (buffer : Z) (parsed_len : Z).

(** The loop over the withdrawn routes and the one over the NLRI in
    [parse], which differ in the names and the width of the counters only.
    [parsed_len] grows by at least one in every iteration, so [fuel] above
    [len - parsed_len] is never used up. *)
Fixpoint parse_routes (fuel : nat) (from : Mem) (buffer parsed_len len : Z)
    (routes : list Route) : RoutesParsed :=
  if negb (parsed_len <? len) then RDone routes buffer parsed_len
  else
    match fuel with
    | O => RDiverge
    | S fuel' =>
        if len - parsed_len <? 1 then RFail routes
        else
          let route_len := get8 from buffer in
          let buffer1 := buffer + 1 in
          let parsed_len1 := parsed_len + 1 in
          if route_len >? 32 then RFail routes
          else
            let route_buffer_len := (route_len + 7) / 8 in
            if parsed_len1 + route_buffer_len >? len then RFail routes
            else
              let prefix := read_prefix from buffer1 route_buffer_len in
              parse_routes fuel' from (buffer1 + route_buffer_len)
                (parsed_len1 + route_buffer_len) len
                (routes ++ [mkRoute prefix route_len])
    end.

Inductive AttribsParsed : Type :=
| ADiverge
| AFail (m : BgpUpdateMessage)
| ADone (m : BgpUpdateMessage) (buffer : Z) (parsed_attribute_len : Z).

(** The loop over the attribute list in [parse].  Nothing in the loop
    bounds the number of iterations when an attribute parser returns 0:
    [ADiverge] is the loop that runs out of [fuel]. *)
Fixpoint parse_attribs (fuel : nat) (m : BgpUpdateMessage) (from : Mem)
    (buffer parsed_attribute_len attribute_len : Z) : AttribsParsed :=
  if negb (parsed_attribute_len <? attribute_len) then
    ADone m buffer parsed_attribute_len
  else
    match fuel with
    | O => ADiverge
    | S fuel' =>
        if attribute_len - parsed_attribute_len <? 3 then
          AFail (setError m E_UPDATE E_UNSPEC [])
        else
          let attr_type :=
            PathAttrib.getType (shift from buffer)
              (attribute_len - parsed_attribute_len) in
          if attr_type <? 0 then AFail (setError m E_UPDATE E_UNSPEC [])
          else
            let (attrib_parsed, attrib) :=
              attr_parse attr_type (use_4b_asn m) (shift from buffer)
                (attribute_len - parsed_attribute_len) in
            if attrib_parsed <? 0 then AFail (forwardParseError m attrib)
            else
              parse_attribs fuel'
                (set_attribs m (path_attribute m ++ [attrib])) from
                (buffer + attrib_parsed)
                (uint16 (parsed_attribute_len + attrib_parsed)) attribute_len
    end.

(** [BgpUpdateMessage::parse] on the message object [m]; [None] is a failed
    assertion or an attribute loop that does not end within [fuel]
    iterations. *)
Definition parse (fuel : nat) (m : BgpUpdateMessage) (from : Mem) (msg_sz : Z)
  : option (Z * BgpUpdateMessage) :=
  if msg_sz <? 4 then
    Some (-1, setError m E_HEADER E_LENGTH [uint8 msg_sz])
  else
    let withdrawn_len := get16_net from 0 in
    if withdrawn_len >? msg_sz - 4 then
      Some (-1, setError m E_UPDATE E_UNSPEC [])
    else
      match parse_routes (Z.to_nat withdrawn_len) from 2 0 withdrawn_len
              (withdrawn_routes m) with
      | RDiverge => None
      | RFail routes =>
          Some (-1, setError (set_withdrawn m routes) E_UPDATE E_UNSPEC [])
      | RDone routes buffer1 parsed_withdrawn_len =>
          let m1 := set_withdrawn m routes in
          if negb (parsed_withdrawn_len =? withdrawn_len) then None
          else
            let attribute_len := get16_net from buffer1 in
            let buffer2 := buffer1 + 2 in
            if attribute_len + withdrawn_len + 4 >? msg_sz then
              Some (-1, setError m1 E_UPDATE E_ATTR_LIST [])
            else
              match parse_attribs fuel m1 from buffer2 0 attribute_len with
              | ADiverge => None
              | AFail m2 => Some (-1, m2)
              | ADone m2 buffer3 parsed_attribute_len =>
                  let (valid, m3) := validateAttribs m2 in
                  if negb valid then Some (-1, m3)
                  else if negb (parsed_attribute_len =? attribute_len) then None
                  else
                    let nlri_len :=
                      uint64 (msg_sz - 4 - parsed_attribute_len
                              - parsed_withdrawn_len) in
                    match parse_routes (Z.to_nat nlri_len) from buffer3 0
                            nlri_len (nlri m3) with
                    | RDiverge => None
                    | RFail routes =>
                        Some (-1, setError (set_nlri m3 routes)
                                    E_UPDATE E_UNSPEC [])
                    | RDone routes _ parsed_nlri_len =>
                        if negb (uint64 (parsed_nlri_len + parsed_attribute_len
                                         + parsed_withdrawn_len + 4)
                                 =? msg_sz)
                        then None
                        else Some (msg_sz, set_nlri m3 routes)
                    end
              end
      end.

End Codec.

End UpdateMessage.

(** ** IPv6 RIB (bgp-rib6.cc) *)

Module Rib6.

(** A 16-byte array is the list of its bytes; a pointer to one may be
    [NULL]. *)
Definition addr6 : Type := list Z.
Definition addr6_ptr : Type := option addr6.

Definition bytes_eqb (a b : list Z) : bool :=
  if list_eq_dec Z.eq_dec a b then true else false.

Record Prefix6 : Type := mkPrefix6 {
  prefix : addr6;
  length : Z
}.

(** Modelled from the spec: [Prefix6::operator==] is not under src/;
    equality is length-and-prefix exact. *)
Definition Prefix6_eqb (a b : Prefix6) : bool :=
  (length a =? length b) && bytes_eqb (prefix a) (prefix b).

Record BgpRib6Entry : Type := mkEntry {
  route : Prefix6;
  src_router_id : Z;
  nexthop_global : addr6;
  nexthop_linklocal : addr6;
  attribs : list BgpPathAttrib;
  weight : Z;
  entry_update_id : Z
}.

Record BgpRib6 : Type := mkRib {
  rib : list BgpRib6Entry;
  update_id : Z
}.

(** [BgpRib6::BgpRib6]. *)
Definition new_rib : BgpRib6 := mkRib [] 0.

Definition zero16 : addr6 := repeat 0 16.

(** The constructor of [BgpRib6Entry].  [memcpy] from a null
    [nexthop_global] aborts; a null [nexthop_linklocal] gives zeroes.  The
    constructor leaves [weight] and [update_id] to the caller, who gives
    them here. *)
Definition new_BgpRib6Entry (r : Prefix6) (src : Z)
    (nexthop_global nexthop_linklocal : addr6_ptr)
    (attribs : list BgpPathAttrib) (weight update_id : Z)
  : option BgpRib6Entry :=
  match nexthop_global with
  | None => None
  | Some g =>
      Some (mkEntry r src g
              (match nexthop_linklocal with Some l => l | None => zero16 end)
              attribs weight update_id)
  end.

Definition matches (src_router_id : Z) (route_ : Prefix6) (entry : BgpRib6Entry)
  : bool :=
  Prefix6_eqb (route entry) route_ && (Rib6.src_router_id entry =? src_router_id).

(** Modelled from the spec: the constructors of the attributes of a local
    route are not under src/; a local insert synthesizes Origin = IGP and an
    empty 4-byte AS_PATH, both well-known (transitive, not optional). *)
Definition local_attribs : list BgpPathAttrib :=
  [ mkAttrib false true false false ORIGIN 0 no_error (BodyOrigin 0);
    mkAttrib false true false false AS_PATH 0 no_error (BodyAsPath true []) ].

Section Rib.

(** [BgpRib6Entry::operator>], the best-path comparison, is not under
    src/. *)
Variable entry_gt : BgpRib6Entry -> BgpRib6Entry -> bool.

(** The loop of [insertPriv] over the RIB; [None] when no entry has the
    route and the source. *)
Fixpoint insertPriv_loop (new_entry : BgpRib6Entry) (entries : list BgpRib6Entry)
  : option (bool * list BgpRib6Entry) :=
  match entries with
  | [] => None
  | entry :: rest =>
      if matches (src_router_id new_entry) (route new_entry) entry then
        if entry_gt new_entry entry then Some (true, rest ++ [new_entry])
        else Some (false, entry :: rest)
      else
        match insertPriv_loop new_entry rest with
        | None => None
        | Some (r, rest') => Some (r, entry :: rest')
        end
  end.

Definition insertPriv (t : BgpRib6) (src_router_id : Z) (route : Prefix6)
    (nexthop_global nexthop_linklocal : addr6_ptr)
    (attribs : list BgpPathAttrib) (weight : Z) : option (bool * BgpRib6) :=
  match new_BgpRib6Entry route src_router_id nexthop_global nexthop_linklocal
          attribs weight (update_id t) with
  | None => None
  | Some new_entry =>
      match insertPriv_loop new_entry (rib t) with
      | Some (r, entries) => Some (r, mkRib entries (update_id t))
      | None => Some (true, mkRib (rib t ++ [new_entry]) (update_id t))
      end
  end.

(** The loop of the single local insert; [None] when the route exists. *)
Fixpoint local_group (new_entry : BgpRib6Entry) (use_update_id : Z)
    (entries : list BgpRib6Entry) : option Z :=
  match entries with
  | [] => Some use_update_id
  | entry :: rest =>
      if (src_router_id entry =? 0)
         && Prefix6_eqb (route entry) (route new_entry) then None
      else if (src_router_id entry =? 0)
              && bytes_eqb (nexthop_global new_entry) (nexthop_global entry)
              && bytes_eqb (nexthop_linklocal new_entry)
                   (nexthop_linklocal entry)
      then local_group new_entry (entry_update_id entry) rest
      else local_group new_entry use_update_id rest
  end.

(** [insert(logger, route, nexthop_global, nexthop_linklocal, weight)]:
    the inserted entry, [None] for [NULL]. *)
Definition insert_local (t : BgpRib6) (route : Prefix6)
    (nexthop_global nexthop_linklocal : addr6_ptr) (weight : Z)
  : option (option BgpRib6Entry * BgpRib6) :=
  match new_BgpRib6Entry route 0 nexthop_global nexthop_linklocal
          local_attribs weight 0 with
  | None => None
  | Some new_entry =>
      match local_group new_entry (update_id t) (rib t) with
      | None => Some (None, t)
      | Some use_update_id =>
          let e := mkEntry (Rib6.route new_entry) (src_router_id new_entry)
                     (Rib6.nexthop_global new_entry)
                     (Rib6.nexthop_linklocal new_entry)
                     (attribs new_entry) (Rib6.weight new_entry)
                     use_update_id in
          Some (Some e,
                mkRib (rib t ++ [e])
                      (if use_update_id =? update_id t
                       then uint64 (update_id t + 1) else update_id t))
      end
  end.

(** The search for a local entry of the route. *)
Definition local_exists (entries : list BgpRib6Entry) (route_ : Prefix6) : bool :=
  existsb (fun entry => (src_router_id entry =? 0)
                        && Prefix6_eqb (route entry) route_) entries.

(** The loop of the local batch insert: the RIB entries and [inserted]. *)
Fixpoint insert_local_loop (routes : list Prefix6)
    (nexthop_global nexthop_linklocal : addr6_ptr) (weight update_id : Z)
    (entries inserted : list BgpRib6Entry)
  : option (list BgpRib6Entry * list BgpRib6Entry) :=
  match routes with
  | [] => Some (entries, inserted)
  | route :: rest =>
      if local_exists entries route then
        insert_local_loop rest nexthop_global nexthop_linklocal weight
          update_id entries inserted
      else
        match new_BgpRib6Entry route 0 nexthop_global nexthop_linklocal
                local_attribs weight update_id with
        | None => None
        | Some new_entry =>
            insert_local_loop rest nexthop_global nexthop_linklocal weight
              update_id (entries ++ [new_entry]) (inserted ++ [new_entry])
        end
  end.

(** [insert(logger, routes, nexthop_global, nexthop_linklocal, weight)]. *)
Definition insert_local_batch (t : BgpRib6) (routes : list Prefix6)
    (nexthop_global nexthop_linklocal : addr6_ptr) (weight : Z)
  : option (list BgpRib6Entry * BgpRib6) :=
  match insert_local_loop routes nexthop_global nexthop_linklocal weight
          (update_id t) (rib t) [] with
  | None => None
  | Some (entries, inserted) =>
      Some (inserted, mkRib entries (uint64 (update_id t + 1)))
  end.

(** [insert(src_router_id, route, ...)]: one route from a peer. *)
Definition insert_peer (t : BgpRib6) (src_router_id : Z) (route : Prefix6)
    (nexthop_global nexthop_linklocal : addr6_ptr)
    (attribs : list BgpPathAttrib) (weight : Z) : option (bool * BgpRib6) :=
  match insertPriv t src_router_id route nexthop_global nexthop_linklocal
          attribs weight with
  | None => None
  | Some (inserted, t1) =>
      Some (inserted,
            if inserted then mkRib (rib t1) (uint64 (update_id t1 + 1)) else t1)
  end.

(** The loop of the peer batch insert, which hands [nexthop_linklocal] to
    [insertPriv] in the place of [nexthop_global] and the reverse. *)
Fixpoint insert_peer_loop (t : BgpRib6) (src_router_id : Z)
    (routes : list Prefix6) (nexthop_global nexthop_linklocal : addr6_ptr)
    (attrib : list BgpPathAttrib) (weight : Z) (inserted : Z)
  : option (Z * BgpRib6) :=
  match routes with
  | [] => Some (inserted, t)
  | r :: rest =>
      match insertPriv t src_router_id r nexthop_linklocal nexthop_global
              attrib weight with
      | None => None
      | Some (ok, t1) =>
          insert_peer_loop t1 src_router_id rest nexthop_global
            nexthop_linklocal attrib weight
            (if ok then inserted + 1 else inserted)
      end
  end.

(** [insert(src_router_id, routes, ...)]: routes from a peer. *)
Definition insert_peer_batch (t : BgpRib6) (src_router_id : Z)
    (routes : list Prefix6) (nexthop_global nexthop_linklocal : addr6_ptr)
    (attrib : list BgpPathAttrib) (weight : Z) : option (Z * BgpRib6) :=
  match insert_peer_loop t src_router_id routes nexthop_global
          nexthop_linklocal attrib weight 0 with
  | None => None
  | Some (inserted, t1) =>
      Some (inserted, mkRib (rib t1) (uint64 (update_id t1 + 1)))
  end.

End Rib.

(** The loop of [withdraw]: erases the first entry with the route and the
    source. *)
Fixpoint withdraw_loop (src_router_id : Z) (route : Prefix6)
    (entries : list BgpRib6Entry) : bool * list BgpRib6Entry :=
  match entries with
  | [] => (false, [])
  | entry :: rest =>
      if matches src_router_id route entry then (true, rest)
      else
        let (r, rest') := withdraw_loop src_router_id route rest in
        (r, entry :: rest')
  end.

Definition withdraw (t : BgpRib6) (src_router_id : Z) (route : Prefix6)
  : bool * BgpRib6 :=
  let (r, entries) := withdraw_loop src_router_id route (rib t) in
  (r, mkRib entries (update_id t)).

(** [withdraw(src_router_id, routes)]: the number of routes dropped. *)
Fixpoint withdraw_batch (t : BgpRib6) (src_router_id : Z)
    (routes : list Prefix6) (dropped : Z) : Z * BgpRib6 :=
  match routes with
  | [] => (dropped, t)
  | r :: rest =>
      let (ok, t1) := withdraw t src_router_id r in
      withdraw_batch t1 src_router_id rest (if ok then dropped + 1 else dropped)
  end.

(** [discard]: the dropped routes and the RIB without the entries of the
    source. *)
Definition discard (t : BgpRib6) (src_router_id : Z)
  : list Prefix6 * BgpRib6 :=
  (map route (filter (fun e => Rib6.src_router_id e =? src_router_id) (rib t)),
   mkRib (filter (fun e => negb (Rib6.src_router_id e =? src_router_id)) (rib t))
         (update_id t)).

(** *** The operations that change a RIB *)

(** [lookup] and [get] are [const] members; the variants of the local
    inserts that take a [RouteEventBus] call the plain local insert and then
    publish an event on the bus, which is outside the RIB. *)
Inductive Op : Type :=
| OpInsertLocal (route : Prefix6) (nexthop_global nexthop_linklocal : addr6_ptr)
    (weight : Z)
| OpInsertLocalBatch (routes : list Prefix6)
    (nexthop_global nexthop_linklocal : addr6_ptr) (weight : Z)
| OpInsertPeer (src_router_id : Z) (route : Prefix6)
    (nexthop_global nexthop_linklocal : addr6_ptr)
    (attribs : list BgpPathAttrib) (weight : Z)
| OpInsertPeerBatch (src_router_id : Z) (routes : list Prefix6)
    (nexthop_global nexthop_linklocal : addr6_ptr)
    (attribs : list BgpPathAttrib) (weight : Z)
| OpWithdraw (src_router_id : Z) (route : Prefix6)
| OpWithdrawBatch (src_router_id : Z) (routes : list Prefix6)
| OpDiscard (src_router_id : Z).

(** The RIB after the operation; [None] when the call aborts. *)
Definition run (entry_gt : BgpRib6Entry -> BgpRib6Entry -> bool) (op : Op)
    (t : BgpRib6) : option BgpRib6 :=
  match op with
  | OpInsertLocal r g l w => option_map snd (insert_local t r g l w)
  | OpInsertLocalBatch rs g l w => option_map snd (insert_local_batch t rs g l w)
  | OpInsertPeer s r g l a w => option_map snd (insert_peer entry_gt t s r g l a w)
  | OpInsertPeerBatch s rs g l a w =>
      option_map snd (insert_peer_batch entry_gt t s rs g l a w)
  | OpWithdraw s r => Some (snd (withdraw t s r))
  | OpWithdrawBatch s rs => Some (snd (withdraw_batch t s rs 0))
  | OpDiscard s => Some (snd (discard t s))
  end.


(** The RIBs that sequences of operations build from a new RIB. *)
Inductive reachable (entry_gt : BgpRib6Entry -> BgpRib6Entry -> bool)
  : BgpRib6 -> Prop :=
| reach_new : reachable entry_gt new_rib
| reach_run : forall op t t',
    reachable entry_gt t -> run entry_gt op t = Some t' ->
    reachable entry_gt t'.

End Rib6.

(** * Sample values *)

Definition origin_igp : BgpPathAttrib :=
  mkAttrib false true false false ORIGIN 0 no_error (BodyOrigin 0).

Definition nexthop_10_0_0_1 : BgpPathAttrib :=
  mkAttrib false true false false NEXT_HOP 0 no_error
           (BodyOther NEXT_HOP [10; 0; 0; 1]).

(** An AS_PATH attribute with the given width and segments. *)
Definition as_path_attr (is_4b : bool) (segs : list BgpAsPathSegment)
  : BgpPathAttrib :=
  mkAttrib false true false false AS_PATH 0 no_error (BodyAsPath is_4b segs).

(** An AS4_PATH attribute as [downgradeAsPath] builds it. *)
Definition as4_path_attr (segs : list BgpAsPathSegment) : BgpPathAttrib :=
  set_body UpdateMessage.new_As4Path (BodyAs4Path segs).

(** A message with ORIGIN twice, AS_PATH and NEXT_HOP. *)
Definition msg_two_origins : BgpUpdateMessage :=
  mkMsg true []
        [origin_igp; origin_igp; as_path_attr true []; nexthop_10_0_0_1]
        [] no_error.

(** An ORIGIN attribute on the wire: flags 0x40 (transitive), type 1,
    length 1, value 3. *)
Definition origin_3_bytes : list Z := [64; 1; 1; 3].

(** 2001:db8::1, fe80::1 and 2001:db8::/32. *)
Definition global_2001_db8_1 : Rib6.addr6 :=
  [32; 1; 13; 184; 0; 0; 0; 0; 0; 0; 0; 0; 0; 0; 0; 1].
Definition linklocal_fe80_1 : Rib6.addr6 :=
  [254; 128; 0; 0; 0; 0; 0; 0; 0; 0; 0; 0; 0; 0; 0; 1].
Definition prefix_2001_db8_32 : Rib6.Prefix6 :=
  Rib6.mkPrefix6 [32; 1; 13; 184; 0; 0; 0; 0; 0; 0; 0; 0; 0; 0; 0; 0] 32.

(** Modelled from the spec: [BgpRib6Entry::operator>] is not under src/;
    the first rule of the best-path ordering, the higher weight, stands in
    for it where a concrete comparison is needed. *)
Definition heavier (a b : Rib6.BgpRib6Entry) : bool :=
  Rib6.weight b <? Rib6.weight a.

(** At most one entry for a source and a route: no entry has the source
    and the route of an entry before it. *)
Fixpoint unique_entries (entries : list Rib6.BgpRib6Entry) : Prop :=
  match entries with
  | [] => True
  | e :: rest =>
      (forall e', In e' rest ->
         Rib6.matches (Rib6.src_router_id e) (Rib6.route e) e' = false)
      /\ unique_entries rest
  end.



(** A 4-byte message whose AS_PATH is the sequence 65535 70000 65000. *)
Definition msg_65535 : BgpUpdateMessage :=
  mkMsg false []
        [origin_igp;
         as_path_attr true [mkSeg true AS_SEQUENCE [65535; 70000; 65000]];
         nexthop_10_0_0_1]
        [] no_error.

(** The 2-byte segment [downgradeAsPath] makes of a 4-byte one. *)
Definition downgrade_seg (seg4 : BgpAsPathSegment) : BgpAsPathSegment :=
  mkSeg false (seg_type seg4) (map UpdateMessage.downgrade_asn (seg_value seg4)).

(** Position of the first element that satisfies [p]; the length of the
    list when there is none. *)
Fixpoint first_index (p : Z -> bool) (l : list Z) : nat :=
  match l with
  | [] => O
  | x :: rest => if p x then O else S (first_index p rest)
  end.

(** The ASNs of the AS_SEQUENCE segments of an AS4_PATH, in order. *)
Definition as4_sequence_asns (as4_paths : list BgpAsPathSegment) : list Z :=
  concat (map seg_value
            (filter (fun seg => seg_type seg =? AS_SEQUENCE) as4_paths)).




(** A 2-byte message: AS_PATH 23456 200 23456 with AS4_PATH 70000 80000. *)
Definition msg_as_trans : BgpUpdateMessage :=
  mkMsg true []
        [origin_igp;
         as_path_attr false [mkSeg false AS_SEQUENCE [23456; 200; 23456]];
         nexthop_10_0_0_1;
         as4_path_attr [mkSeg true AS_SEQUENCE [70000; 80000]]]
        [] no_error.

(** The two calls one after the other; the result is that of the second
    call. *)
Definition restore_then_downgrade (m : BgpUpdateMessage)
  : option (bool * BgpUpdateMessage) :=
  match UpdateMessage.restoreAsPath m with
  | Some (_, m1) => UpdateMessage.downgradeAsPath m1
  | None => None
  end.

(** A message of a 2-byte session: the 2-byte AS_PATH 65001 65000, no
    AS4_PATH. *)
Definition msg_2b_session : BgpUpdateMessage :=
  mkMsg false []
        [origin_igp;
         as_path_attr false [mkSeg false AS_SEQUENCE [65001; 65000]];
         nexthop_10_0_0_1]
        [] no_error.

(** A message of a 4-byte session: the 4-byte AS_PATH 70000 65000. *)
Definition msg_4b_session : BgpUpdateMessage :=
  mkMsg true []
        [origin_igp;
         as_path_attr true [mkSeg true AS_SEQUENCE [70000; 65000]];
         nexthop_10_0_0_1]
        [] no_error.

(** An ASN that is neither 65535 nor AS_TRANS. *)
Definition plain_asn (asn : Z) : Prop :=
  0 <= asn /\ asn <> 65535 /\ asn <> AS_TRANS.

(** An AS_PATH without segments, or of one 4-byte AS_SEQUENCE of plain
    ASNs. *)
Definition one_plain_sequence (as_paths : list BgpAsPathSegment) : Prop :=
  as_paths = []
  \/ exists value,
       as_paths = [mkSeg true AS_SEQUENCE value] /\ Forall plain_asn value.

(** Modelled from the spec: the writers and the parsers of the attribute
    classes other than Origin and Unknow are not under src/.  Where a
    concrete one is needed, these stand in for them: serialization writes
    flags, type and a 1-byte length and then the value; parsing reads the
    header with [parseHeader] and keeps the value bytes, in an object of the
    class created for the type. *)
Fixpoint be_bytes (n : nat) (v : Z) : list Z :=
  match n with
  | O => []
  | S n' => uint8 (v / 256 ^ Z.of_nat n') :: be_bytes n' v
  end.

Definition encode_seg (seg : BgpAsPathSegment) : list Z :=
  [seg_type seg; Z.of_nat (Datatypes.length (seg_value seg))]
  ++ flat_map (be_bytes (if seg_is_4b seg then 4 else 2)) (seg_value seg).

Definition tlv_value (a : BgpPathAttrib) : list Z :=
  match body a with
  | BodyUnknow value => value
  | BodyOrigin origin => [origin]
  | BodyAsPath _ segs => flat_map encode_seg segs
  | BodyAs4Path segs => flat_map encode_seg segs
  | BodyOther _ payload => payload
  end.

Definition tlv_write (a : BgpPathAttrib) (to : Mem) (buffer_sz : Z) : Z * Mem :=
  let value := tlv_value a in
  let len := Z.of_nat (Datatypes.length value) in
  if buffer_sz <? len + 3 then (-1, to)
  else
    let (_, to1) := PathAttrib.writeHeader a to 2 in
    (len + 3, put_bytes (put8 to1 2 len) 3 value).

Definition tlv_parse (t : Z) (use_4b : bool) (from : Mem) (length : Z)
  : Z * BgpPathAttrib :=
  let (r, a) :=
    PathAttrib.parseHeader (PathAttrib.new_attrib (BodyOther t [])) from length in
  if r <? 0 then (-1, a)
  else
    (value_len a + 3,
     mkAttrib (optional a) (transitive a) (partial a) (extened a) t
              (value_len a) (attr_err a)
              (BodyOther t (read_bytes from 3 (value_len a)))).

(** A well-formed message: ORIGIN IGP, an empty 4-byte AS_PATH, NEXT_HOP
    10.0.0.1, and the route 10.0.0.0/8 as NLRI. *)
Definition msg_10_8 : BgpUpdateMessage :=
  mkMsg true []
        [origin_igp; as_path_attr true []; nexthop_10_0_0_1]
        [mkRoute 10 8] no_error.

(** A buffer of zeroes, and the zero bytes after [route_len]. *)
Definition zeroes : Mem := fun _ => 0.

(** What [write] with the stand-in writers makes of [msg_10_8] in a
    buffer of 4096 zero bytes: the result and the buffer. *)
Definition written_10_8 : option (Z * Mem) :=
  UpdateMessage.write zeroes tlv_write msg_10_8 zeroes 4096.

Definition written_10_8_mem : Mem :=
  match written_10_8 with Some (_, to) => to | None => zeroes end.

(** * Further operations *)

(** ** AS_PATH segments and prepend (part_000) *)

Module AsPath.

(** [BgpAsPathSegment2b(type)] and [BgpAsPathSegment4b(type)]. *)
Definition new_Segment2b (type : Z) : BgpAsPathSegment := mkSeg false type [].
Definition new_Segment4b (type : Z) : BgpAsPathSegment := mkSeg true type [].

(** [getCount] of both classes. *)
Definition getCount (seg : BgpAsPathSegment) : Z :=
  Z.of_nat (Datatypes.length (seg_value seg)).

(** [BgpAsPathSegment2b::prepend]. *)
Definition Segment2b_prepend (seg : BgpAsPathSegment) (asn : Z)
  : bool * BgpAsPathSegment :=
  if getCount seg >=? 255 then (false, seg)
  else
    let prepend_asn := uint16 (if asn >? 65535 then 23456 else asn) in
    (true, mkSeg (seg_is_4b seg) (seg_type seg) (prepend_asn :: seg_value seg)).

(** [BgpAsPathSegment4b::prepend]. *)
Definition Segment4b_prepend (seg : BgpAsPathSegment) (asn : Z)
  : bool * BgpAsPathSegment :=
  if getCount seg >=? 255 then (false, seg)
  else (true, mkSeg (seg_is_4b seg) (seg_type seg) (asn :: seg_value seg)).

(** [segment->prepend(asn)]: a segment is of the class 4b or 2b according
    to the flag its constructor set. *)
Definition Segment_prepend (seg : BgpAsPathSegment) (asn : Z)
  : bool * BgpAsPathSegment :=
  if seg_is_4b seg then Segment4b_prepend seg asn else Segment2b_prepend seg asn.

(** [BgpPathAttribAsPath::addSeg]: the new segment is pushed at the back
    of [as_paths]. *)
Definition addSeg (is_4b : bool) (as_paths : list BgpAsPathSegment) (asn : Z)
  : list BgpAsPathSegment :=
  if is_4b then
    as_paths ++ [snd (Segment4b_prepend (new_Segment4b AS_SEQUENCE) asn)]
  else
    let push_asn := uint16 (if asn >? 65535 then 23456 else asn) in
    as_paths ++ [snd (Segment2b_prepend (new_Segment2b AS_SEQUENCE) push_asn)].

(** [BgpPathAttribAsPath::prepend] on the fields [is_4b] and [as_paths]. *)
Definition prepend (is_4b : bool) (as_paths : list BgpAsPathSegment) (asn : Z)
  : bool * list BgpAsPathSegment :=
  match as_paths with
  | [] => (true, addSeg is_4b as_paths asn)
  | segment :: rest =>
      if seg_type segment =? AS_SET then (true, addSeg is_4b as_paths asn)
      else if seg_type segment =? AS_SEQUENCE then
        if getCount segment >=? 255 then (true, addSeg is_4b as_paths asn)
        else (true, snd (Segment_prepend segment asn) :: rest)
      else (false, as_paths)
  end.

End AsPath.

(** ** Further members of the UPDATE message *)

Module UpdateOps.

(** [setAttribs]. *)
Definition setAttribs (m : BgpUpdateMessage) (attrs : list BgpPathAttrib)
  : bool * BgpUpdateMessage :=
  (true, set_attribs m (map clone attrs)).

(** The loop of [dropNonTransitive]: after [erase] the iterator stands on
    the element that followed the erased one. *)
Fixpoint dropNonTransitive_loop (attrs : list BgpPathAttrib) (removed : bool)
  : bool * list BgpPathAttrib :=
  match attrs with
  | [] => (removed, [])
  | attr :: rest =>
      if negb (transitive attr) then dropNonTransitive_loop rest true
      else
        let (r, rest') := dropNonTransitive_loop rest removed in
        (r, attr :: rest')
  end.

Definition dropNonTransitive (m : BgpUpdateMessage) : bool * BgpUpdateMessage :=
  let (removed, attrs) := dropNonTransitive_loop (path_attribute m) false in
  (removed, set_attribs m attrs).

Definition setWithdrawn (m : BgpUpdateMessage) (routes : list Route)
  : bool * BgpUpdateMessage :=
  (true, UpdateMessage.set_withdrawn m routes).

Definition addWithdrawn (m : BgpUpdateMessage) (route : Route)
  : bool * BgpUpdateMessage :=
  (true, UpdateMessage.set_withdrawn m (withdrawn_routes m ++ [route])).

Definition setNlri (m : BgpUpdateMessage) (routes : list Route)
  : bool * BgpUpdateMessage :=
  (true, UpdateMessage.set_nlri m routes).

Definition addNlri (m : BgpUpdateMessage) (route : Route)
  : bool * BgpUpdateMessage :=
  (true, UpdateMessage.set_nlri m (nlri m ++ [route])).

Section Prepend.

(** [BgpPathAttribAs4Path::prepend] is not under src/: the result and the
    segments it leaves. *)
Variable As4Path_prepend :
  list BgpAsPathSegment -> Z -> bool * list BgpAsPathSegment.

(** The 4-byte branch of [BgpUpdateMessage::prepend]. *)
Definition prepend_4b (m : BgpUpdateMessage) (asn : Z)
  : option (bool * BgpUpdateMessage) :=
  if UpdateMessage.hasAttrib m AS4_PATH then Some (false, m)
  else if negb (UpdateMessage.hasAttrib m AS_PATH) then
    let path := PathAttrib.new_attrib (BodyAsPath (use_4b_asn m) []) in
    let (_, segs) := AsPath.prepend (use_4b_asn m) [] asn in
    Some (true,
          set_attribs m
            (path_attribute m
             ++ [set_body path (BodyAsPath (use_4b_asn m) segs)]))
  else
    match UpdateMessage.getAttrib (path_attribute m) AS_PATH with
    | None => None
    | Some path =>
        match body path with
        | BodyAsPath is_4b as_paths =>
            if negb is_4b then Some (false, m)
            else
              let (r, segs) := AsPath.prepend is_4b as_paths asn in
              Some (r,
                    set_attribs m
                      (UpdateMessage.assign_first (path_attribute m) AS_PATH
                         (BodyAsPath is_4b segs)))
        | _ => None
        end
    end.

(** The part of the 2-byte branch that updates the AS_PATH; [None] aborts,
    [Some (false, _)] is [return false]. *)
Definition prepend_2b_path (m : BgpUpdateMessage) (prep_asn : Z)
  : option (bool * BgpUpdateMessage) :=
  if negb (UpdateMessage.hasAttrib m AS_PATH) then
    let path := PathAttrib.new_attrib (BodyAsPath (use_4b_asn m) []) in
    let (_, segs) := AsPath.prepend (use_4b_asn m) [] prep_asn in
    Some (true,
          set_attribs m
            (path_attribute m
             ++ [set_body path (BodyAsPath (use_4b_asn m) segs)]))
  else
    match UpdateMessage.getAttrib (path_attribute m) AS_PATH with
    | None => None
    | Some path =>
        match body path with
        | BodyAsPath is_4b as_paths =>
            if is_4b then Some (false, m)
            else
              let (r, segs) := AsPath.prepend is_4b as_paths prep_asn in
              Some (r,
                    set_attribs m
                      (UpdateMessage.assign_first (path_attribute m) AS_PATH
                         (BodyAsPath is_4b segs)))
        | _ => None
        end
    end.

(** The 2-byte branch of [BgpUpdateMessage::prepend]. *)
Definition prepend_2b (m : BgpUpdateMessage) (asn : Z)
  : option (bool * BgpUpdateMessage) :=
  let prep_asn := uint16 (if asn >=? 65535 then 23456 else asn) in
  match prepend_2b_path m prep_asn with
  | None => None
  | Some (false, m1) => Some (false, m1)
  | Some (true, m1) =>
      if UpdateMessage.hasAttrib m1 AS4_PATH then
        match UpdateMessage.getAttrib (path_attribute m1) AS4_PATH with
        | None => None
        | Some path4 =>
            match body path4 with
            | BodyAs4Path as4_paths =>
                let (r, segs4) := As4Path_prepend as4_paths prep_asn in
                let m2 :=
                  set_attribs m1
                    (UpdateMessage.assign_first (path_attribute m1) AS4_PATH
                       (BodyAs4Path segs4)) in
                if negb r then Some (false, m2) else Some (true, m2)
            | _ => None
            end
        end
      else Some (true, m1)
  end.

(** [BgpUpdateMessage::prepend]. *)
Definition prepend (m : BgpUpdateMessage) (asn : Z)
  : option (bool * BgpUpdateMessage) :=
  if use_4b_asn m then prepend_4b m asn else prepend_2b m asn.

End Prepend.

End UpdateOps.

(** ** Local inserts that publish on the route event bus (bgp-rib6.cc) *)

Module Rib6Bus.

(** [Route6AddEvent]: the routes and the attributes. *)
Record Route6AddEvent : Type := mkAddEvent {
  routes : list Rib6.Prefix6;
  attribs : list BgpPathAttrib
}.

(** [insert(logger, route, nexthop_global, nexthop_linklocal, rev_bus,
    weight)]: the entry, the RIB and the event handed to
    [rev_bus->publish], if any. *)
Definition insert_local_bus (t : Rib6.BgpRib6) (route : Rib6.Prefix6)
    (nexthop_global nexthop_linklocal : Rib6.addr6_ptr) (weight : Z)
  : option (option Rib6.BgpRib6Entry * Rib6.BgpRib6 * option Route6AddEvent) :=
  match Rib6.insert_local t route nexthop_global nexthop_linklocal weight with
  | None => None
  | Some (None, t1) => Some (None, t1, None)
  | Some (Some entry, t1) =>
      Some (Some entry, t1,
            Some (mkAddEvent [Rib6.route entry] (Rib6.attribs entry)))
  end.

(** [insert(logger, routes, nexthop_global, nexthop_linklocal, rev_bus,
    weight)]. *)
Definition insert_local_batch_bus (t : Rib6.BgpRib6)
    (routes : list Rib6.Prefix6)
    (nexthop_global nexthop_linklocal : Rib6.addr6_ptr) (weight : Z)
  : option (list Rib6.BgpRib6Entry * Rib6.BgpRib6 * option Route6AddEvent) :=
  match Rib6.insert_local_batch t routes nexthop_global nexthop_linklocal
          weight with
  | None => None
  | Some (inserted, t1) =>
      Some (inserted, t1,
            match inserted with
            | [] => None
            | first :: _ =>
                Some (mkAddEvent (map Rib6.route inserted) (Rib6.attribs first))
            end)
  end.

End Rib6Bus.

(** ** Values used in the statements below *)

(** A message with MULTI_EXIT_DISC twice. *)
Definition med_attr (v : Z) : BgpPathAttrib :=
  mkAttrib true false false false MULTI_EXIT_DISC 0 no_error
           (BodyOther MULTI_EXIT_DISC [0; 0; 0; v]).

Definition msg_two_meds : BgpUpdateMessage :=
  mkMsg true [] [origin_igp; med_attr 10; nexthop_10_0_0_1; med_attr 20]
        [] no_error.

(** The 4-byte segment [restoreAsPath] makes of a 2-byte one when there is
    no AS4_PATH. *)
Definition widen_seg (seg2 : BgpAsPathSegment) : BgpAsPathSegment :=
  mkSeg true (seg_type seg2) (map uint16 (seg_value seg2)).

(** A 2-byte AS_PATH attribute that holds a 4-byte segment, with an
    AS4_PATH. *)
Definition msg_mixed_width : BgpUpdateMessage :=
  mkMsg true []
        [origin_igp;
         as_path_attr false [mkSeg true AS_SEQUENCE [23456; 65000]];
         nexthop_10_0_0_1;
         as4_path_attr [mkSeg true AS_SEQUENCE [70000; 65000]]]
        [] no_error.

(** The number of ASNs of a path, and the bound of 255 ASNs on each
    segment. *)
Definition total_asns (segs : list BgpAsPathSegment) : nat :=
  fold_right (fun seg n => (Datatypes.length (seg_value seg) + n)%nat) O segs.

Definition segments_bounded (segs : list BgpAsPathSegment) : Prop :=
  Forall (fun seg => (Datatypes.length (seg_value seg) <= 255)%nat) segs.

(** The ASN that a segment of the given width stores for [asn]. *)
Definition stored_asn (is_4b : bool) (asn : Z) : Z :=
  if is_4b then asn else uint16 (if asn >? 65535 then 23456 else asn).

(** A stand-in for [BgpPathAttribAs4Path::prepend], which is not under
    src/: the [prepend] of a 4-byte AS_PATH. *)
Definition As4Path_prepend_standin (as4_paths : list BgpAsPathSegment)
    (asn : Z) : bool * list BgpAsPathSegment :=
  AsPath.prepend true as4_paths asn.

(** The flags byte of an attribute header. *)
Definition header_flags (a : BgpPathAttrib) : Z :=
  128 * bool_to_Z (optional a) + 64 * bool_to_Z (transitive a)
  + 32 * bool_to_Z (partial a) + 16 * bool_to_Z (extened a).

(** An unknown optional attribute of type 200 with three value bytes. *)
Definition unknown_200 : BgpPathAttrib :=
  mkAttrib true true false false 200 3 no_error (BodyUnknow [1; 2; 3]).

(** The wire form of a list of routes: for each route the length byte and
    then the first [(length + 7) / 8] bytes of the prefix as they lie in
    memory. *)
Fixpoint le_bytes (n : nat) (v : Z) : list Z :=
  match n with
  | O => []
  | S n' => v mod 256 :: le_bytes n' (v / 256)
  end.

Definition wire_route (r : Route) : list Z :=
  route_length r
  :: le_bytes (Z.to_nat ((route_length r + 7) / 8)) (route_prefix r).

Definition wire_routes (rs : list Route) : list Z := flat_map wire_route rs.

(** A route of length at most 32 whose prefix has no byte beyond those the
    length asks for. *)
Definition wire_ok (r : Route) : Prop :=
  0 <= route_length r <= 32
  /\ 0 <= route_prefix r < 256 ^ ((route_length r + 7) / 8).

(** The buffer holds the bytes at the offset. *)
Definition holds (from : Mem) (off : Z) (bytes : list Z) : Prop :=
  forall i, (i < Datatypes.length bytes)%nat ->
    get8 from (off + Z.of_nat i) = nth i bytes 0.

(** The bytes [write] counts for a list of routes. *)
Fixpoint routes_size (rs : list Route) : Z :=
  match rs with
  | [] => 0
  | r :: rest => 1 + (uint8 (route_length r) + 7) / 8 + routes_size rest
  end.

(** The routes 10.0.0.0/8 and 192.168.0.0/16, and a withdrawal of the
    two on the wire, with no attributes. *)
Definition route_10_8 : Route := mkRoute 10 8.
Definition route_192_168_16 : Route := mkRoute (192 + 256 * 168) 16.
Definition withdrawal_bytes : list Z := [0; 5; 8; 10; 16; 192; 168; 0; 0].

(** An UPDATE whose only attribute has the type code 128. *)
Definition high_type_bytes : list Z := [0; 0; 0; 4; 192; 128; 1; 7].

(** The key of a RIB entry: the source and the route. *)
Definition entry_key (e : Rib6.BgpRib6Entry) : Z * Rib6.Prefix6 :=
  (Rib6.src_router_id e, Rib6.route e).

(** The link-local nexthop an entry takes from the pointer. *)
Definition linklocal_of (p : Rib6.addr6_ptr) : Rib6.addr6 :=
  match p with Some l => l | None => Rib6.zero16 end.

(** A local entry with the nexthops of the pair. *)
Definition same_nexthops (g l : Rib6.addr6) (e : Rib6.BgpRib6Entry) : bool :=
  (Rib6.src_router_id e =? 0)
  && Rib6.bytes_eqb g (Rib6.nexthop_global e)
  && Rib6.bytes_eqb l (Rib6.nexthop_linklocal e).

(** 2001:db8:1::/48. *)
Definition prefix_2001_db8_1_48 : Rib6.Prefix6 :=
  Rib6.mkPrefix6 [32; 1; 13; 184; 0; 1; 0; 0; 0; 0; 0; 0; 0; 0; 0; 0] 48.

(** The entry a local batch insert makes for a route. *)
Definition batch_entry (g : Rib6.addr6) (l : Rib6.addr6_ptr) (w u : Z)
    (r : Rib6.Prefix6) : Rib6.BgpRib6Entry :=
  Rib6.mkEntry r 0 g (linklocal_of l) Rib6.local_attribs w u.

(** The entries of the other sources. *)
Definition of_others (src : Z) (entries : list Rib6.BgpRib6Entry)
  : list Rib6.BgpRib6Entry :=
  filter (fun e => negb (Rib6.src_router_id e =? src)) entries.

(** * Properties *)

Import UpdateMessage.

(** ** Attribute list of a message *)

Lemma hasAttrib_list_In : forall l t,
  hasAttrib_list l t = true <-> In t (type_codes l).
Proof.
  induction l as [|a l IH]; intros t; simpl.
  - split; [discriminate | tauto].
  - destruct (type_code a =? t) eqn:E.
    + apply Z.eqb_eq in E. split; auto.
    + apply Z.eqb_neq in E. rewrite IH. split; [auto | intros [H|H]; tauto].
Qed.

Lemma hasAttrib_list_false : forall l t,
  hasAttrib_list l t = false <-> ~ In t (type_codes l).
Proof.
  intros l t. rewrite <- hasAttrib_list_In.
  destruct (hasAttrib_list l t); split; intros; try congruence; tauto.
Qed.

Lemma type_codes_app : forall l1 l2,
  type_codes (l1 ++ l2) = type_codes l1 ++ type_codes l2.
Proof. intros. unfold type_codes. apply map_app. Qed.

Lemma NoDup_snoc : forall (l : list Z) x,
  NoDup l -> ~ In x l -> NoDup (l ++ [x]).
Proof.
  induction l as [|y l IH]; intros x Hnd Hx; simpl.
  - constructor; [tauto | constructor].
  - inversion Hnd; subst. constructor.
    + rewrite in_app_iff. simpl. intros [H|[H|[]]]; [tauto|].
      subst. apply Hx. now left.
    + apply IH; [assumption|]. intros H. apply Hx. now right.
Qed.

(** C10. [addAttrib a] on a message that already has an attribute of the
    type of [a] returns false and leaves the message as it is; otherwise it
    returns true and appends the clone of [a].  Either way a list of
    attributes without a repeated type code stays one. *)
Theorem addAttrib_no_duplicate : forall m a,
  (In (type_code a) (type_codes (path_attribute m)) /\ addAttrib m a = (false, m)
   \/ ~ In (type_code a) (type_codes (path_attribute m))
      /\ addAttrib m a = (true, set_attribs m (path_attribute m ++ [a])))
  /\ (NoDup (type_codes (path_attribute m)) ->
      NoDup (type_codes (path_attribute (snd (addAttrib m a))))).
Proof.
  intros m a. unfold addAttrib, hasAttrib, clone.
  destruct (hasAttrib_list (path_attribute m) (type_code a)) eqn:E.
  - apply hasAttrib_list_In in E. split; [left; auto | intros H; exact H].
  - apply hasAttrib_list_false in E. split; [right; auto |].
    intros H. simpl. rewrite type_codes_app. simpl.
    apply NoDup_snoc; assumption.
Qed.

Lemma addAttrib_no_duplicate_witness :
  NoDup (type_codes (path_attribute
           (snd (addAttrib (mkMsg true [] [origin_igp] [] no_error)
                   nexthop_10_0_0_1)))).
Proof.
  apply (proj2 (addAttrib_no_duplicate (mkMsg true [] [origin_igp] [] no_error)
                  nexthop_10_0_0_1)).
  simpl. constructor; [simpl; tauto | constructor].
Defined.

(** ** validateAttribs *)

(** [typecode_bitsmap] is zero throughout the loop, so the loop never takes
    the early return. *)
Lemma validate_step_zero : forall st a,
  typecode_bitsmap st = 0 ->
  exists st', validate_step st a = Some st' /\ typecode_bitsmap st' = 0
    /\ has_origin st' = has_origin st || (type_code a =? ORIGIN)
    /\ has_as_path st' = has_as_path st || (type_code a =? AS_PATH)
    /\ has_nexthop st' = has_nexthop st || (type_code a =? NEXT_HOP).
Proof.
  intros [o n p b] a Hb. simpl in Hb. subst b. unfold validate_step.
  assert (Hz : forall f : ValidateState,
             typecode_bitsmap f = 0 ->
             (Z.land (Z.shiftr (typecode_bitsmap f) (type_code a)) 1 =? 1) = false).
  { intros f Hf. rewrite Hf, Z.shiftr_0_l. reflexivity. }
  unfold ORIGIN, AS_PATH, NEXT_HOP.
  destruct (type_code a =? 2) eqn:E2; [|destruct (type_code a =? 3) eqn:E3;
    [|destruct (type_code a =? 1) eqn:E1]];
    cbn [typecode_bitsmap has_origin has_nexthop has_as_path];
    rewrite Z.shiftr_0_l; cbn [Z.land Z.eqb];
    eexists; (split; [reflexivity|]); cbn [typecode_bitsmap has_origin has_nexthop has_as_path];
    try (apply Z.eqb_eq in E2; rewrite E2); try (apply Z.eqb_eq in E3; rewrite E3);
    try (apply Z.eqb_eq in E1; rewrite E1); cbn [Z.eqb Pos.eqb];
    repeat split; try reflexivity;
    rewrite ?orb_true_r, ?orb_false_r; reflexivity.
Qed.

Lemma validate_loop_zero : forall l st,
  typecode_bitsmap st = 0 ->
  exists st', validate_loop st l = Some st'
    /\ has_origin st' = has_origin st || hasAttrib_list l ORIGIN
    /\ has_as_path st' = has_as_path st || hasAttrib_list l AS_PATH
    /\ has_nexthop st' = has_nexthop st || hasAttrib_list l NEXT_HOP.
Proof.
  induction l as [|a l IH]; intros st Hb; simpl.
  - exists st. rewrite !orb_false_r. auto.
  - destruct (validate_step_zero st a Hb) as (st1 & E & Hb1 & Ho & Hp & Hn).
    rewrite E. destruct (IH st1 Hb1) as (st' & E' & Ho' & Hp' & Hn').
    exists st'. split; [assumption|].
    rewrite Ho', Hp', Hn', Ho, Hp, Hn, <- !orb_assoc.
    repeat split; f_equal;
      match goal with |- context [if ?c then _ else _] => destruct c end;
      reflexivity.
Qed.

(** What the code computes: the test for the three mandatory types alone. *)
Lemma validateAttribs_mandatory_only : forall m,
  validateAttribs m =
    if hasAttrib m AS_PATH && hasAttrib m NEXT_HOP && hasAttrib m ORIGIN
    then (true, m)
    else (false, setError m E_UPDATE E_MISS_WELL_KNOWN []).
Proof.
  intros m. unfold validateAttribs, hasAttrib.
  destruct (validate_loop_zero (path_attribute m) (mkVS false false false 0)
              eq_refl) as (st & E & Ho & Hp & Hn).
  rewrite E, Ho, Hp, Hn. simpl.
  destruct (hasAttrib_list (path_attribute m) AS_PATH
            && hasAttrib_list (path_attribute m) NEXT_HOP
            && hasAttrib_list (path_attribute m) ORIGIN); reflexivity.
Qed.

(** C2. On a message that carries ORIGIN twice, with AS_PATH and NEXT_HOP
    present, [validateAttribs] returns true and records no error, although
    a type code occurs twice in the attribute list. *)
Theorem validateAttribs_accepts_duplicate :
  ~ NoDup (type_codes (path_attribute msg_two_origins))
  /\ validateAttribs msg_two_origins = (true, msg_two_origins).
Proof.
  split.
  - intros H. inversion H as [|x l Hin _]; subst. apply Hin. now left.
  - reflexivity.
Qed.

(** ** Attribute parsers *)

(** [parseHeader] returns -1 or 2. *)
Lemma parseHeader_result : forall a from buffer_sz,
  fst (PathAttrib.parseHeader a from buffer_sz) = -1
  \/ fst (PathAttrib.parseHeader a from buffer_sz) = 2.
Proof.
  intros a from sz. unfold PathAttrib.parseHeader.
  destruct (sz <? 3); [left; reflexivity|].
  cbv zeta. match goal with |- context [if ?c then _ else _] => destruct c end;
    [left | right]; reflexivity.
Qed.

(** The three parsers compare the result of [parseHeader] with 3, so each
    of them returns -1 on every buffer. *)
Lemma Origin_parse_fails : forall a from length,
  fst (PathAttrib.Origin_parse a from length) = -1.
Proof.
  intros a from len. unfold PathAttrib.Origin_parse.
  destruct (parseHeader_result a from len) as [H|H];
    destruct (PathAttrib.parseHeader a from len) as [r a1];
    simpl in H; subst r; reflexivity.
Qed.

Lemma AsPath_parse_fails : forall a is_4b segs from length,
  fst (PathAttrib.AsPath_parse a is_4b segs from length) = -1.
Proof.
  intros a b segs from len. unfold PathAttrib.AsPath_parse.
  destruct (parseHeader_result a from len) as [H|H];
    destruct (PathAttrib.parseHeader a from len) as [r a1];
    simpl in H; subst r; reflexivity.
Qed.

Lemma Unknow_parse_fails : forall a from length,
  fst (PathAttrib.Unknow_parse a from length) = -1.
Proof.
  intros a from len. unfold PathAttrib.Unknow_parse.
  destruct (parseHeader_result a from len) as [H|H];
    destruct (PathAttrib.parseHeader a from len) as [r a1];
    simpl in H; subst r; reflexivity.
Qed.

(** C6. On a buffer of at least 4 bytes whose header declares ORIGIN with
    the flags of a well-known attribute and length 1, and whose value byte
    is above 2, [BgpPathAttribOrigin::parse] returns -1 and leaves the
    error fields as the constructor set them: code 0 and subcode 0, not
    E_UPDATE and E_ORIGIN. *)
Theorem Origin_parse_bad_value_records_no_error : forall from length,
  4 <= length ->
  Z.odd (Z.shiftr (get8 from 0) 7) = false ->
  Z.odd (Z.shiftr (get8 from 0) 6) = true ->
  get8 from 1 = ORIGIN ->
  get8 from 2 = 1 ->
  2 < get8 from 3 ->
  let r := PathAttrib.Origin_parse (PathAttrib.new_attrib (BodyOrigin 0))
             from length in
  fst r = -1
  /\ err_code (attr_err (snd r)) = 0
  /\ err_subcode (attr_err (snd r)) = 0
  /\ err_code (attr_err (snd r)) <> E_UPDATE
  /\ err_subcode (attr_err (snd r)) <> E_ORIGIN.
Proof.
  intros from len Hlen _ _ _ Hvl _.
  unfold PathAttrib.Origin_parse, PathAttrib.parseHeader.
  assert (E1 : (len <? 3) = false) by (apply Z.ltb_ge; lia).
  rewrite E1. cbv zeta. cbn [value_len]. rewrite Hvl.
  assert (E2 : (1 >? len - 3) = false).
  { rewrite Z.gtb_ltb. apply Z.ltb_ge. lia. }
  rewrite E2. cbn. unfold E_UPDATE, E_ORIGIN. repeat split; discriminate.
Qed.

Lemma Origin_parse_bad_value_records_no_error_witness :
  let r := PathAttrib.Origin_parse (PathAttrib.new_attrib (BodyOrigin 0))
             (mem_of_list origin_3_bytes) 4 in
  fst r = -1
  /\ err_code (attr_err (snd r)) = 0
  /\ err_subcode (attr_err (snd r)) = 0
  /\ err_code (attr_err (snd r)) <> E_UPDATE
  /\ err_subcode (attr_err (snd r)) <> E_ORIGIN.
Proof.
  apply (Origin_parse_bad_value_records_no_error (mem_of_list origin_3_bytes) 4);
    [lia | reflexivity | reflexivity | reflexivity | reflexivity
    | vm_compute; reflexivity].
Defined.

(** ** IPv6 RIB *)

Lemma withdraw_loop_spec : forall src r entries,
  ((forall e, In e entries -> Rib6.matches src r e = false)
   /\ Rib6.withdraw_loop src r entries = (false, entries))
  \/ (exists l1 e l2,
        entries = l1 ++ e :: l2
        /\ Rib6.matches src r e = true
        /\ (forall e', In e' l1 -> Rib6.matches src r e' = false)
        /\ Rib6.withdraw_loop src r entries = (true, l1 ++ l2)).
Proof.
  intros src r. induction entries as [|x l IH]; simpl.
  - left. split; [tauto | reflexivity].
  - destruct (Rib6.matches src r x) eqn:E.
    + right. exists [], x, l. simpl. repeat split; auto. tauto.
    + destruct IH as [[Hn Hw] | (l1 & e & l2 & Hl & He & Hl1 & Hw)]; rewrite Hw.
      * left. split; [|reflexivity]. intros e [<-|H]; auto.
      * right. exists (x :: l1), e, l2. subst l. simpl.
        repeat split; auto. intros e' [<-|H]; auto.
Qed.

(** Entries of the RIB after [insertPriv]: those that were there, and
    possibly the new one, built from the arguments in the order given. *)
Lemma insertPriv_loop_entries : forall gt new_entry entries r entries',
  Rib6.insertPriv_loop gt new_entry entries = Some (r, entries') ->
  forall e, In e entries' -> In e entries \/ e = new_entry.
Proof.
  intros gt new_entry. induction entries as [|x l IH]; simpl; intros r l' H e Hin.
  - discriminate.
  - destruct (Rib6.matches _ _ x).
    + destruct (gt new_entry x); inversion H; subst; clear H.
      * apply in_app_or in Hin. destruct Hin as [Hin|[<-|[]]]; auto.
      * auto.
    + destruct (Rib6.insertPriv_loop gt new_entry l) as [[r1 l1]|] eqn:E;
        [|discriminate].
      inversion H; subst; clear H. destruct Hin as [<-|Hin]; auto.
      destruct (IH _ _ eq_refl e Hin); auto.
Qed.



(** C7. The peer batch insert of 2001:db8::/32 from source 1 into a new RIB,
    with [nexthop_global] 2001:db8::1 and [nexthop_linklocal] fe80::1, adds
    one entry whose global nexthop is fe80::1 and whose link-local nexthop
    is 2001:db8::1; the single-route insert with the same arguments stores
    them in the order given. *)
Theorem insert_peer_batch_swaps_nexthops : forall gt,
  Rib6.insert_peer_batch gt Rib6.new_rib 1 [prefix_2001_db8_32]
    (Some global_2001_db8_1) (Some linklocal_fe80_1) [] 100
  = Some (1, Rib6.mkRib
               [Rib6.mkEntry prefix_2001_db8_32 1 linklocal_fe80_1
                  global_2001_db8_1 [] 100 0] 1)
  /\ Rib6.insert_peer gt Rib6.new_rib 1 prefix_2001_db8_32
       (Some global_2001_db8_1) (Some linklocal_fe80_1) [] 100
     = Some (true, Rib6.mkRib
                     [Rib6.mkEntry prefix_2001_db8_32 1 global_2001_db8_1
                        linklocal_fe80_1 [] 100 0] 1).
Proof. intros gt. split; reflexivity. Qed.

(** ** The counter [update_id] *)


Lemma withdraw_batch_update_id : forall rs t src n,
  Rib6.update_id (snd (Rib6.withdraw_batch t src rs n)) = Rib6.update_id t.
Proof.
  induction rs as [|r rs IH]; intros t src n; simpl; [reflexivity|].
  unfold Rib6.withdraw.
  destruct (Rib6.withdraw_loop src r (Rib6.rib t)) as [ok l].
  rewrite IH. reflexivity.
Qed.










(** ** downgradeAsPath *)

Lemma downgrade_segs_all_4b : forall as_paths new_segs as4_paths,
  forallb seg_is_4b as_paths = true ->
  downgrade_segs as_paths new_segs as4_paths
  = Some (new_segs ++ map downgrade_seg as_paths, as4_paths ++ as_paths).
Proof.
  induction as_paths as [|seg l IH]; intros acc1 acc2 H; simpl.
  - rewrite !app_nil_r. reflexivity.
  - simpl in H. apply andb_prop in H. destruct H as [H1 H2].
    rewrite H1. simpl. rewrite IH by assumption.
    rewrite <- !app_assoc. reflexivity.
Qed.

Lemma getAttrib_hasAttrib : forall l t a,
  getAttrib l t = Some a -> hasAttrib_list l t = true.
Proof.
  induction l as [|x l IH]; intros t a H; simpl in *; [discriminate|].
  destruct (type_code x =? t); eauto.
Qed.

(** What the code does on a message whose AS_PATH is 4-byte with 4-byte
    segments: the attribute [as4_path_attr] with the segments as they were
    replaces an AS4_PATH or is appended, the AS_PATH becomes 2-byte, and
    every ASN from 65535 on becomes 23456. *)
Lemma downgradeAsPath_4b : forall m path as_paths,
  getAttrib (path_attribute m) AS_PATH = Some path ->
  body path = BodyAsPath true as_paths ->
  forallb seg_is_4b as_paths = true ->
  downgradeAsPath m
  = Some (true,
          let m1 := snd (updateAttribute m (as4_path_attr as_paths)) in
          set_attribs m1
            (assign_first (path_attribute m1) AS_PATH
               (BodyAsPath false (map downgrade_seg as_paths)))).
Proof.
  intros m path segs Hget Hbody Hall. unfold downgradeAsPath, hasAttrib.
  rewrite (getAttrib_hasAttrib _ _ _ Hget), Hget, Hbody. simpl.
  rewrite downgrade_segs_all_4b by assumption. reflexivity.
Qed.

Lemma downgrade_asn_spec : forall asn,
  0 <= asn ->
  downgrade_asn asn = if asn <? 65535 then asn else AS_TRANS.
Proof.
  intros asn H. unfold downgrade_asn.
  destruct (asn >=? 65535) eqn:E; rewrite Z.geb_leb in E.
  - apply Z.leb_le in E. destruct (asn <? 65535) eqn:E2.
    + apply Z.ltb_lt in E2. lia.
    + reflexivity.
  - apply Z.leb_gt in E. destruct (asn <? 65535) eqn:E2.
    + unfold uint16. apply Z.mod_small. lia.
    + apply Z.ltb_ge in E2. lia.
Qed.

(** C4. On the message whose 4-byte AS_PATH is the sequence
    65535 70000 65000, [downgradeAsPath] returns true, appends the AS4_PATH
    with that sequence and leaves the 2-byte AS_PATH 23456 23456 65000:
    the ASN 65535, which is below 2^16, is replaced by AS_TRANS as well. *)
Theorem downgradeAsPath_replaces_65535 :
  downgradeAsPath msg_65535
  = Some (true,
          mkMsg false []
            [origin_igp;
             as_path_attr false [mkSeg false AS_SEQUENCE [23456; 23456; 65000]];
             nexthop_10_0_0_1;
             as4_path_attr [mkSeg true AS_SEQUENCE [65535; 70000; 65000]]]
            [] no_error)
  /\ 65535 < 2 ^ 16
  /\ downgrade_asn 65535 = AS_TRANS.
Proof. repeat split. Qed.

(** ** restoreAsPath *)


Lemma restore_values_at_end : forall value has_4b incr_iter,
  restore_values has_4b [] incr_iter value = map uint16 value.
Proof.
  induction value as [|v rest IH]; intros has inc; simpl; [reflexivity|].
  rewrite IH. reflexivity.
Qed.





Lemma find_4b_spec : forall l has_4b,
  find_4b l has_4b
  = (has_4b || negb (Nat.eqb (Datatypes.length l) 0),
     skipn (first_index (fun x => x >? 65535) l) l).
Proof.
  induction l as [|x l IH]; intros has; simpl.
  - rewrite orb_false_r. reflexivity.
  - destruct (x >? 65535); simpl.
    + rewrite orb_true_r. reflexivity.
    + rewrite IH. simpl. rewrite orb_true_r. reflexivity.
Qed.


Lemma collect_as4_all_4b : forall as4_paths full_as_path,
  forallb seg_is_4b as4_paths = true ->
  collect_as4 as4_paths full_as_path
  = Some (full_as_path ++ as4_sequence_asns as4_paths).
Proof.
  unfold as4_sequence_asns.
  induction as4_paths as [|seg l IH]; intros acc H; simpl.
  - rewrite app_nil_r. reflexivity.
  - simpl in H. apply andb_prop in H. destruct H as [H1 H2]. rewrite H1. simpl.
    destruct (seg_type seg =? AS_SEQUENCE); simpl; rewrite IH by assumption.
    + rewrite app_assoc. reflexivity.
    + reflexivity.
Qed.

Lemma restore_segs_all_2b : forall has_4b iter_4b as_paths new_segs,
  forallb (fun seg => negb (seg_is_4b seg)) as_paths = true ->
  restore_segs has_4b iter_4b as_paths new_segs
  = Some (new_segs
          ++ map (fun seg2 =>
                    mkSeg true (seg_type seg2)
                      (restore_values has_4b iter_4b false (seg_value seg2)))
                 as_paths).
Proof.
  intros has it. induction as_paths as [|seg l IH]; intros acc H; simpl.
  - rewrite app_nil_r. reflexivity.
  - simpl in H. apply andb_prop in H. destruct H as [H1 H2].
    apply negb_true_iff in H1. rewrite H1.
    rewrite IH by assumption. rewrite <- app_assoc. reflexivity.
Qed.


Lemma getAttrib_assign_first : forall l t b a,
  getAttrib l t = Some a ->
  getAttrib (assign_first l t b) t = Some (set_body a b).
Proof.
  induction l as [|x l IH]; intros t b a H; simpl in *; [discriminate|].
  destruct (type_code x =? t) eqn:E; simpl; rewrite E.
  - inversion H; subst. reflexivity.
  - apply IH. assumption.
Qed.

Lemma getAttrib_drop_other : forall l t t',
  t <> t' -> getAttrib (snd (dropAttrib_list l t')) t = getAttrib l t.
Proof.
  induction l as [|x l IH]; intros t t' Hne; simpl; [reflexivity|].
  destruct (type_code x =? t') eqn:E'; simpl.
  - apply Z.eqb_eq in E'. destruct (type_code x =? t) eqn:E; [|reflexivity].
    apply Z.eqb_eq in E. congruence.
  - specialize (IH t t' Hne).
    destruct (dropAttrib_list l t') as [r l']. simpl in *.
    rewrite IH. reflexivity.
Qed.

Lemma dropAttrib_list_NoDup : forall l t,
  NoDup (type_codes l) -> ~ In t (type_codes (snd (dropAttrib_list l t))).
Proof.
  induction l as [|x l IH]; intros t Hnd; simpl; [tauto|].
  inversion Hnd as [|? ? Hx Hl]; subst.
  destruct (type_code x =? t) eqn:E; simpl.
  - apply Z.eqb_eq in E. subst t. exact Hx.
  - apply Z.eqb_neq in E. specialize (IH t Hl).
    destruct (dropAttrib_list l t) as [r l']. simpl in *. tauto.
Qed.

Lemma Forall2_map_r : forall (A B : Type) (P : A -> B -> Prop) (f : A -> B)
    (l : list A),
  (forall x, In x l -> P x (f x)) -> Forall2 P l (map f l).
Proof.
  intros A B P f. induction l as [|x l IH]; intros H; simpl; constructor.
  - apply H. now left.
  - apply IH. intros y Hy. apply H. now right.
Qed.

(** The message [restoreAsPath] leaves when an AS4_PATH is there. *)
Lemma restoreAsPath_with_as4 : forall m path as_paths as4_path as4_paths
    has_4b iter_4b,
  getAttrib (path_attribute m) AS_PATH = Some path ->
  body path = BodyAsPath false as_paths ->
  forallb (fun seg => negb (seg_is_4b seg)) as_paths = true ->
  getAttrib (path_attribute m) AS4_PATH = Some as4_path ->
  body as4_path = BodyAs4Path as4_paths ->
  forallb seg_is_4b as4_paths = true ->
  find_4b (as4_sequence_asns as4_paths) false = (has_4b, iter_4b) ->
  restoreAsPath m
  = Some (true,
          set_attribs m
            (assign_first (snd (dropAttrib_list (path_attribute m) AS4_PATH))
               AS_PATH
               (BodyAsPath true
                  (map (fun seg2 =>
                          mkSeg true (seg_type seg2)
                            (restore_values has_4b iter_4b false
                               (seg_value seg2)))
                       as_paths)))).
Proof.
  intros m path segs a4 segs4 has it Hp Hpb H2b H4 H4b Hall4 Hf.
  unfold restoreAsPath, hasAttrib.
  rewrite (getAttrib_hasAttrib _ _ _ Hp), Hp, Hpb. simpl.
  rewrite (getAttrib_hasAttrib _ _ _ H4), H4, H4b. simpl.
  rewrite collect_as4_all_4b by assumption. simpl. rewrite Hf.
  rewrite restore_segs_all_2b by assumption. simpl.
  unfold dropAttrib.
  destruct (dropAttrib_list (path_attribute m) AS4_PATH) as [r l'].
  reflexivity.
Qed.




(** ** restoreAsPath after downgradeAsPath *)

Lemma plain_asn_cases : forall v,
  plain_asn v ->
  ((v >? 65535) = true /\ uint16 (downgrade_asn v) = 23456)
  \/ ((v >? 65535) = false /\ uint16 (downgrade_asn v) = v
      /\ (v =? 23456) = false).
Proof.
  intros v (H0 & H1 & H2). unfold AS_TRANS in H2. unfold downgrade_asn.
  destruct (Z.gtb_spec v 65535) as [Hgt|Hle].
  - left. split; [reflexivity|].
    replace (v >=? 65535) with true
      by (symmetry; rewrite Z.geb_leb; apply Z.leb_le; lia).
    reflexivity.
  - right. split; [reflexivity|].
    replace (v >=? 65535) with false
      by (symmetry; rewrite Z.geb_leb; apply Z.leb_gt; lia).
    unfold uint16. rewrite Z.mod_mod by lia. rewrite Z.mod_small by lia.
    split; [reflexivity | apply Z.eqb_neq; assumption].
Qed.

Lemma restore_moving_roundtrip : forall suf,
  Forall plain_asn suf ->
  restore_values true suf true (map downgrade_asn suf) = suf.
Proof.
  induction suf as [|v rest IH]; intros H; [reflexivity|].
  inversion H as [|? ? Hv Hrest]; subst. simpl.
  destruct (plain_asn_cases v Hv) as [[_ E] | (_ & E & E')]; rewrite E.
  - simpl. rewrite IH by assumption. reflexivity.
  - rewrite E'. rewrite IH by assumption. reflexivity.
Qed.

Lemma restore_waiting_roundtrip : forall value,
  Forall plain_asn value ->
  restore_values true (skipn (first_index (fun x => x >? 65535) value) value)
    false (map downgrade_asn value) = value.
Proof.
  induction value as [|v rest IH]; intros H; [reflexivity|].
  inversion H as [|? ? Hv Hrest]; subst. simpl first_index.
  destruct (plain_asn_cases v Hv) as [[Eb E] | (Eb & E & E')]; rewrite Eb.
  - simpl. rewrite E. simpl.
    rewrite restore_moving_roundtrip by assumption. reflexivity.
  - simpl skipn. simpl map.
    destruct (skipn (first_index (fun x => x >? 65535) rest) rest)
      as [|cur next] eqn:Es.
    + rewrite restore_values_at_end. simpl. rewrite E. f_equal.
      specialize (IH Hrest). rewrite restore_values_at_end in IH.
      exact IH.
    + simpl. rewrite E, E'. f_equal. exact (IH Hrest).
Qed.

Lemma dropAttrib_list_absent : forall l t,
  hasAttrib_list l t = false -> dropAttrib_list l t = (false, l).
Proof.
  induction l as [|x l IH]; intros t H; simpl in *; [reflexivity|].
  destruct (type_code x =? t); [discriminate|]. rewrite IH by assumption.
  reflexivity.
Qed.

Lemma dropAttrib_list_last : forall l t a,
  hasAttrib_list l t = false -> type_code a = t ->
  dropAttrib_list (l ++ [a]) t = (true, l).
Proof.
  induction l as [|x l IH]; intros t a H Ha; simpl in *.
  - rewrite Ha, Z.eqb_refl. reflexivity.
  - destruct (type_code x =? t); [discriminate|].
    rewrite (IH t a H Ha). reflexivity.
Qed.

Lemma assign_first_app : forall l l' t b a,
  getAttrib l t = Some a ->
  assign_first (l ++ l') t b = assign_first l t b ++ l'.
Proof.
  induction l as [|x l IH]; intros l' t b a H; simpl in *; [discriminate|].
  destruct (type_code x =? t); [reflexivity|].
  rewrite (IH l' t b a H). reflexivity.
Qed.

Lemma assign_first_twice : forall l t b1 b2,
  assign_first (assign_first l t b1) t b2 = assign_first l t b2.
Proof.
  induction l as [|x l IH]; intros t b1 b2; simpl; [reflexivity|].
  destruct (type_code x =? t) eqn:E; simpl; rewrite E; [reflexivity|].
  rewrite IH. reflexivity.
Qed.

Lemma assign_first_same : forall l t a,
  getAttrib l t = Some a -> assign_first l t (body a) = l.
Proof.
  induction l as [|x l IH]; intros t a H; simpl in *; [discriminate|].
  destruct (type_code x =? t).
  - inversion H; subst. destruct a; reflexivity.
  - rewrite (IH t a H). reflexivity.
Qed.

Lemma getAttrib_app_l : forall l l' t a,
  getAttrib l t = Some a -> getAttrib (l ++ l') t = Some a.
Proof.
  induction l as [|x l IH]; intros l' t a H; simpl in *; [discriminate|].
  destruct (type_code x =? t); auto.
Qed.

Lemma getAttrib_app_r : forall l l' t,
  hasAttrib_list l t = false -> getAttrib (l ++ l') t = getAttrib l' t.
Proof.
  induction l as [|x l IH]; intros l' t H; simpl in *; [reflexivity|].
  destruct (type_code x =? t); [discriminate | auto].
Qed.

Lemma hasAttrib_list_assign_first : forall l t b t',
  hasAttrib_list (assign_first l t b) t' = hasAttrib_list l t'.
Proof.
  induction l as [|x l IH]; intros t b t'; simpl; [reflexivity|].
  destruct (type_code x =? t); simpl; [reflexivity|].
  rewrite IH. reflexivity.
Qed.

Lemma one_plain_sequence_4b : forall as_paths,
  one_plain_sequence as_paths -> forallb seg_is_4b as_paths = true.
Proof. intros segs [-> | (value & -> & _)]; reflexivity. Qed.

Lemma downgraded_segs_2b : forall as_paths,
  forallb (fun seg => negb (seg_is_4b seg)) (map downgrade_seg as_paths) = true.
Proof. induction as_paths as [|seg l IH]; simpl; auto. Qed.

(** On the segments [downgradeAsPath] makes of one plain sequence, with
    the sequence as the list of the AS4_PATH, the loop of [restoreAsPath]
    gives the sequence back. *)
Lemma restore_downgraded_segs : forall as_paths has_4b iter_4b,
  one_plain_sequence as_paths ->
  find_4b (as4_sequence_asns as_paths) false = (has_4b, iter_4b) ->
  map (fun seg2 =>
         mkSeg true (seg_type seg2)
           (restore_values has_4b iter_4b false (seg_value seg2)))
      (map downgrade_seg as_paths)
  = as_paths.
Proof.
  intros segs has it [-> | (value & -> & Hv)] Hf; [reflexivity|].
  unfold as4_sequence_asns in Hf. simpl in Hf. rewrite app_nil_r in Hf.
  rewrite find_4b_spec in Hf. inversion Hf; subst; clear Hf. simpl.
  destruct value as [|v rest]; [reflexivity|].
  simpl negb. rewrite restore_waiting_roundtrip by assumption. reflexivity.
Qed.

(** C5, amended.  Let [y] be a message without AS4_PATH whose 4-byte
    AS_PATH has no segment or is one AS_SEQUENCE of ASNs other than 65535
    and 23456, and [x] the message [downgradeAsPath] makes of it.  On [x],
    [restoreAsPath] returns true and gives [y] back, and [downgradeAsPath]
    then gives [x] again: the two calls one after the other return the
    message to a state equal to [x]. *)
Theorem restore_then_downgrade_on_downgraded : forall y path as_paths,
  getAttrib (path_attribute y) AS_PATH = Some path ->
  body path = BodyAsPath true as_paths ->
  hasAttrib y AS4_PATH = false ->
  one_plain_sequence as_paths ->
  exists x,
    downgradeAsPath y = Some (true, x)
    /\ restoreAsPath x = Some (true, y)
    /\ restore_then_downgrade x = Some (true, x).
Proof.
  intros y path segs Hp Hpb Hno Hone.
  pose proof (one_plain_sequence_4b _ Hone) as H4b.
  pose proof (downgradeAsPath_4b y path segs Hp Hpb H4b) as Hd.
  destruct y as [u w attrs n e]. unfold hasAttrib in Hno. simpl in Hp, Hno.
  cbv zeta in Hd. unfold updateAttribute, dropAttrib, addAttrib, hasAttrib in Hd.
  simpl in Hd. change (type_code (as4_path_attr segs)) with AS4_PATH in Hd.
  rewrite (dropAttrib_list_absent _ _ Hno) in Hd. simpl in Hd.
  rewrite Hno in Hd. simpl in Hd. unfold clone, set_attribs in Hd. simpl in Hd.
  rewrite (assign_first_app _ _ _ _ _ Hp) in Hd.
  set (x := mkMsg u w
              (assign_first attrs AS_PATH
                 (BodyAsPath false (map downgrade_seg segs))
               ++ [as4_path_attr segs]) n e) in *.
  assert (Hr : restoreAsPath x = Some (true, mkMsg u w attrs n e)).
  { destruct (find_4b (as4_sequence_asns segs) false) as [has it] eqn:Hf.
    rewrite (restoreAsPath_with_as4 x
               (set_body path (BodyAsPath false (map downgrade_seg segs)))
               (map downgrade_seg segs) (as4_path_attr segs) segs has it).
    - unfold x, set_attribs. simpl.
      rewrite dropAttrib_list_last;
        [|rewrite hasAttrib_list_assign_first; assumption | reflexivity].
      simpl. rewrite assign_first_twice.
      rewrite (restore_downgraded_segs _ _ _ Hone Hf).
      rewrite <- Hpb. rewrite (assign_first_same _ _ _ Hp). reflexivity.
    - unfold x. simpl. apply getAttrib_app_l.
      apply getAttrib_assign_first. assumption.
    - reflexivity.
    - apply downgraded_segs_2b.
    - unfold x. simpl. rewrite getAttrib_app_r;
        [reflexivity | rewrite hasAttrib_list_assign_first; assumption].
    - reflexivity.
    - assumption.
    - assumption. }
  exists x. split; [exact Hd|]. split; [exact Hr|].
  unfold restore_then_downgrade. rewrite Hr. exact Hd.
Qed.

Lemma restore_then_downgrade_on_downgraded_witness :
  exists x,
    downgradeAsPath msg_4b_session = Some (true, x)
    /\ restoreAsPath x = Some (true, msg_4b_session)
    /\ restore_then_downgrade x = Some (true, x).
Proof.
  apply (restore_then_downgrade_on_downgraded msg_4b_session
           (as_path_attr true [mkSeg true AS_SEQUENCE [70000; 65000]])
           [mkSeg true AS_SEQUENCE [70000; 65000]]);
    [reflexivity | reflexivity | reflexivity |].
  right. exists [70000; 65000]. split; [reflexivity|].
  repeat constructor; unfold AS_TRANS; lia.
Defined.

(** C5, as stated, fails on a message of a 2-byte session and on one of a
    4-byte session: after the two calls the first carries an AS4_PATH it
    did not have, and the second has become 2-byte, with AS_TRANS in its
    AS_PATH and an AS4_PATH. *)
Lemma restore_then_downgrade_not_identity :
  restore_then_downgrade msg_2b_session
  = Some (true,
          mkMsg false []
            [origin_igp;
             as_path_attr false [mkSeg false AS_SEQUENCE [65001; 65000]];
             nexthop_10_0_0_1;
             as4_path_attr [mkSeg true AS_SEQUENCE [65001; 65000]]]
            [] no_error)
  /\ restore_then_downgrade msg_2b_session <> Some (true, msg_2b_session)
  /\ restore_then_downgrade msg_4b_session
     = Some (true,
             mkMsg true []
               [origin_igp;
                as_path_attr false [mkSeg false AS_SEQUENCE [23456; 65000]];
                nexthop_10_0_0_1;
                as4_path_attr [mkSeg true AS_SEQUENCE [70000; 65000]]]
               [] no_error)
  /\ restore_then_downgrade msg_4b_session <> Some (true, msg_4b_session).
Proof.
  split; [reflexivity|]. split; [vm_compute; discriminate|].
  split; [reflexivity|]. vm_compute; discriminate.
Qed.

(** ** parse after write *)

(** [write] never reads the prefix of a route: two messages that differ in
    the prefixes of their routes only are written to the same bytes. *)
Lemma write_routes_ignores_prefix : forall stack_byte routes routes' to buffer
    written_len tot_written buf_sz,
  map route_length routes = map route_length routes' ->
  write_routes stack_byte routes to buffer written_len tot_written buf_sz
  = write_routes stack_byte routes' to buffer written_len tot_written buf_sz.
Proof.
  intros sb. induction routes as [|r rs IH]; intros [|r' rs'] to buffer wl tot sz H;
    simpl in H; try discriminate; [reflexivity|].
  inversion H as [[Hl Hrest]]. simpl. rewrite Hl.
  destruct (_ >? sz); [reflexivity|]. apply IH. assumption.
Qed.

(** X22. [write] does not depend on the prefixes of the routes: two
    messages with the same attributes whose withdrawn routes and NLRI have
    the same lengths are written to the same bytes, with the same
    result. *)
Lemma write_ignores_prefixes : forall stack_byte write_missing m m' to buf_sz,
  path_attribute m = path_attribute m' ->
  map route_length (withdrawn_routes m) = map route_length (withdrawn_routes m') ->
  map route_length (nlri m) = map route_length (nlri m') ->
  write stack_byte write_missing m to buf_sz
  = write stack_byte write_missing m' to buf_sz.
Proof.
  intros sb wm m m' to sz Ha Hw Hn. unfold write.
  rewrite (write_routes_ignores_prefix sb _ _ to 1 0 0 sz Hw), Ha.
  destruct (sz <? 4); [reflexivity|].
  destruct (write_routes sb (withdrawn_routes m') to 1 0 0 sz)
    as [[[ok to1] buffer1] wl].
  destruct ok; [|reflexivity].
  destruct (write_attribs wm (path_attribute m') _ _ _ _ _); try reflexivity.
  rewrite (write_routes_ignores_prefix sb _ _ _ _ _ _ sz Hn). reflexivity.
Qed.

Lemma write_ignores_prefixes_witness :
  write zeroes tlv_write msg_10_8 zeroes 4096
  = write zeroes tlv_write
      (mkMsg true [] [origin_igp; as_path_attr true []; nexthop_10_0_0_1]
         [mkRoute 11 8] no_error)
      zeroes 4096.
Proof. apply write_ignores_prefixes; reflexivity. Defined.

(** The loops over the routes in [parse] end within the fuel [parse] gives
    them. *)
Lemma parse_routes_returns : forall fuel from buffer parsed_len len routes,
  (Z.to_nat (len - parsed_len) <= fuel)%nat ->
  parse_routes fuel from buffer parsed_len len routes <> RDiverge.
Proof.
  induction fuel as [|fuel IH]; intros from buffer parsed len routes Hf; simpl.
  - destruct (Z.ltb_spec parsed len); simpl; [lia | discriminate].
  - destruct (Z.ltb_spec parsed len); simpl; [|discriminate].
    destruct (len - parsed <? 1); [discriminate|].
    destruct (get8 from buffer >? 32); [discriminate|].
    destruct (_ >? len); [discriminate|].
    apply IH.
    assert (0 <= get8 from buffer)
      by (unfold get8, uint8; apply Z.mod_pos_bound; lia).
    assert (0 <= (get8 from buffer + 7) / 8)
      by (apply Z.div_pos; lia).
    lia.
Qed.

Section ParseNeverSucceeds.

Variable parse_missing : Z -> bool -> Mem -> Z -> Z * BgpPathAttrib.

(** A parser that succeeds leaves the attribute with the type code of the
    class it belongs to. *)
Hypothesis parse_missing_type : forall t u from length,
  0 <= fst (parse_missing t u from length) ->
  type_code (snd (parse_missing t u from length)) = t.

Lemma attr_parse_not_origin : forall t u from length,
  0 <= fst (attr_parse parse_missing t u from length) ->
  type_code (snd (attr_parse parse_missing t u from length)) <> ORIGIN.
Proof.
  intros t u from len H. unfold attr_parse in *.
  destruct (t =? ORIGIN) eqn:E1.
  { rewrite Origin_parse_fails in H. lia. }
  destruct (t =? AS_PATH) eqn:E2.
  { rewrite AsPath_parse_fails in H. lia. }
  match type of H with
  | context [if ?c then _ else _] => destruct c
  end.
  - rewrite parse_missing_type by assumption. apply Z.eqb_neq. assumption.
  - rewrite Unknow_parse_fails in H. lia.
Qed.

Lemma hasAttrib_list_snoc : forall l a t,
  hasAttrib_list (l ++ [a]) t = hasAttrib_list l t || (type_code a =? t).
Proof.
  induction l as [|x l IH]; intros a t; simpl.
  - destruct (type_code a =? t); reflexivity.
  - destruct (type_code x =? t); [reflexivity | apply IH].
Qed.

(** The attribute loop never appends an ORIGIN attribute. *)
Lemma parse_attribs_no_origin : forall fuel m from buffer parsed len,
  hasAttrib m ORIGIN = false ->
  match parse_attribs parse_missing fuel m from buffer parsed len with
  | ADone m' _ _ => hasAttrib m' ORIGIN = false
  | _ => True
  end.
Proof.
  induction fuel as [|fuel IH]; intros m from buffer parsed len Hm; simpl.
  - destruct (negb (parsed <? len)); [assumption | exact I].
  - destruct (negb (parsed <? len)); [assumption|].
    destruct (len - parsed <? 3); [exact I|].
    destruct (PathAttrib.getType (shift from buffer) (len - parsed) <? 0);
      [exact I|].
    destruct (attr_parse parse_missing
                (PathAttrib.getType (shift from buffer) (len - parsed))
                (use_4b_asn m) (shift from buffer) (len - parsed))
      as [r a] eqn:E.
    destruct (r <? 0) eqn:Er; [exact I|].
    apply IH. unfold hasAttrib in *. simpl.
    rewrite hasAttrib_list_snoc, Hm. simpl. apply Z.eqb_neq.
    pose proof (attr_parse_not_origin
                  (PathAttrib.getType (shift from buffer) (len - parsed))
                  (use_4b_asn m) (shift from buffer) (len - parsed)) as Hn.
    rewrite E in Hn. simpl in Hn. apply Hn. apply Z.ltb_ge. assumption.
Qed.

(** [parse] on a new message object returns -1 whenever it returns. *)
Lemma parse_new_msg_fails : forall fuel u from msg_sz r m',
  parse parse_missing fuel (new_msg u) from msg_sz = Some (r, m') -> r = -1.
Proof.
  intros fuel u from msg_sz r m' H. unfold parse in H.
  destruct (msg_sz <? 4); [inversion H; reflexivity|].
  cbv zeta in H.
  destruct (get16_net from 0 >? msg_sz - 4); [inversion H; reflexivity|].
  destruct (parse_routes _ _ _ _ _ _) as [|routes|routes buffer1 pw];
    [discriminate | inversion H; reflexivity |].
  destruct (negb (pw =? get16_net from 0)); [discriminate|].
  destruct (_ >? msg_sz); [inversion H; reflexivity|].
  pose proof (parse_attribs_no_origin fuel
                (set_withdrawn (new_msg u) routes) from (buffer1 + 2) 0
                (get16_net from buffer1) eq_refl) as Hno.
  destruct (parse_attribs _ _ _ _ _ _ _) as [|m2|m2 buffer3 pa];
    [discriminate | inversion H; reflexivity |].
  rewrite validateAttribs_mandatory_only, Hno, andb_false_r in H.
  simpl in H. inversion H. reflexivity.
Qed.

End ParseNeverSucceeds.

(** C1. When [write] succeeds on a message, [parse] of the bytes it
    produced, on a new message object, does not succeed: whenever it
    returns, it returns -1, not the message size.  The attribute parsers
    that are not under src/ are any that leave an attribute with the type
    code of its class; the writers that are not under src/ are
    arbitrary. *)
Theorem parse_of_write_fails : forall stack_byte write_missing parse_missing,
  (forall t u from length,
     0 <= fst (parse_missing t u from length) ->
     type_code (snd (parse_missing t u from length)) = t) ->
  forall fuel m to buf_sz n to' u r m',
    write stack_byte write_missing m to buf_sz = Some (n, to') ->
    0 <= n ->
    parse parse_missing fuel (new_msg u) to' n = Some (r, m') ->
    r = -1 /\ r <> n.
Proof.
  intros sb wm pm Hpm fuel m to buf_sz n to' u r m' Hw Hn Hp.
  pose proof (parse_new_msg_fails pm Hpm fuel u to' n r m' Hp) as Hr.
  split; [assumption | lia].
Qed.

Lemma tlv_parse_type : forall t u from length,
  0 <= fst (tlv_parse t u from length) ->
  type_code (snd (tlv_parse t u from length)) = t.
Proof.
  intros t u from len. unfold tlv_parse.
  destruct (PathAttrib.parseHeader _ from len) as [r a].
  destruct (r <? 0); simpl; [lia | reflexivity].
Qed.

Lemma parse_of_write_fails_witness :
  written_10_8 = Some (20, written_10_8_mem)
  /\ read_bytes written_10_8_mem 0 20
     = [0; 0; 8; 8; 4; 10; 0; 0; 1; 0; 0; 0; 0; 0; 0; 0; 0; 0; 0; 0]
  /\ match parse tlv_parse 16 (new_msg true) written_10_8_mem 20 with
     | Some (r, _) => r = -1 /\ r <> 20
     | None => False
     end.
Proof.
  assert (Hw : written_10_8 = Some (20, written_10_8_mem))
    by (vm_compute; reflexivity).
  split; [exact Hw|]. split; [vm_compute; reflexivity|].
  destruct (parse tlv_parse 16 (new_msg true) written_10_8_mem 20)
    as [[r m']|] eqn:Hp.
  - apply (parse_of_write_fails zeroes tlv_write tlv_parse tlv_parse_type
             16%nat msg_10_8 zeroes 4096 20 written_10_8_mem true r m');
      [exact Hw | lia | exact Hp].
  - vm_compute in Hp. discriminate Hp.
Defined.

(** ** At most one entry per source and route *)

Lemma bytes_eqb_eq : forall a b, Rib6.bytes_eqb a b = true <-> a = b.
Proof.
  intros a b. unfold Rib6.bytes_eqb.
  destruct (list_eq_dec Z.eq_dec a b); split; congruence.
Qed.

Lemma Prefix6_eqb_eq : forall a b, Rib6.Prefix6_eqb a b = true <-> a = b.
Proof.
  intros [pa la] [pb lb]. unfold Rib6.Prefix6_eqb. simpl.
  rewrite andb_true_iff, Z.eqb_eq, bytes_eqb_eq. split.
  - intros [-> ->]. reflexivity.
  - intros H. inversion H. auto.
Qed.

Lemma matches_iff : forall s r e,
  Rib6.matches s r e = true <-> Rib6.route e = r /\ Rib6.src_router_id e = s.
Proof.
  intros s r e. unfold Rib6.matches.
  rewrite andb_true_iff, Prefix6_eqb_eq, Z.eqb_eq. tauto.
Qed.

Lemma matches_sym : forall a b,
  Rib6.matches (Rib6.src_router_id a) (Rib6.route a) b
  = Rib6.matches (Rib6.src_router_id b) (Rib6.route b) a.
Proof.
  intros a b.
  destruct (Rib6.matches (Rib6.src_router_id a) (Rib6.route a) b) eqn:E1;
    destruct (Rib6.matches (Rib6.src_router_id b) (Rib6.route b) a) eqn:E2;
    try reflexivity.
  - apply matches_iff in E1. destruct E1 as [Hr Hs].
    assert (H : Rib6.matches (Rib6.src_router_id b) (Rib6.route b) a = true)
      by (apply matches_iff; auto).
    congruence.
  - apply matches_iff in E2. destruct E2 as [Hr Hs].
    assert (H : Rib6.matches (Rib6.src_router_id a) (Rib6.route a) b = true)
      by (apply matches_iff; auto).
    congruence.
Qed.

Lemma matches_same_key : forall s r e e',
  Rib6.matches s r e = true ->
  Rib6.matches (Rib6.src_router_id e) (Rib6.route e) e' = Rib6.matches s r e'.
Proof.
  intros s r e e' H. apply matches_iff in H. destruct H as [-> ->].
  reflexivity.
Qed.

Lemma unique_snoc : forall l e,
  unique_entries l ->
  (forall e', In e' l ->
     Rib6.matches (Rib6.src_router_id e) (Rib6.route e) e' = false) ->
  unique_entries (l ++ [e]).
Proof.
  induction l as [|x l IH]; intros e Hu He; simpl.
  - split; [intros e' [] | exact I].
  - destruct Hu as [Hx Hl]. split.
    + intros e' Hin. apply in_app_or in Hin. destruct Hin as [Hin|[<-|[]]].
      * apply Hx. assumption.
      * rewrite matches_sym. apply He. now left.
    + apply IH; [assumption|]. intros e' Hin. apply He. now right.
Qed.

Lemma unique_remove : forall l1 e l2,
  unique_entries (l1 ++ e :: l2) -> unique_entries (l1 ++ l2).
Proof.
  induction l1 as [|x l1 IH]; intros e l2 Hu; simpl in *.
  - tauto.
  - destruct Hu as [Hx Hl]. split; [|eapply IH; eassumption].
    intros e' Hin. apply Hx. apply in_app_or in Hin. apply in_or_app.
    destruct Hin; [left | right; right]; assumption.
Qed.

Lemma unique_filter : forall f l,
  unique_entries l -> unique_entries (filter f l).
Proof.
  intros f. induction l as [|x l IH]; intros Hu; simpl; [exact I|].
  destruct Hu as [Hx Hl]. destruct (f x); simpl; [|auto].
  split; [|auto]. intros e' Hin. apply filter_In in Hin. apply Hx. tauto.
Qed.

Lemma insertPriv_loop_none : forall gt ne l,
  Rib6.insertPriv_loop gt ne l = None ->
  forall e', In e' l ->
    Rib6.matches (Rib6.src_router_id ne) (Rib6.route ne) e' = false.
Proof.
  intros gt ne. induction l as [|x l IH]; simpl; intros H e' Hin; [tauto|].
  destruct (Rib6.matches _ _ x) eqn:E.
  - destruct (gt ne x); discriminate.
  - destruct (Rib6.insertPriv_loop gt ne l) as [[r l']|]; [discriminate|].
    destruct Hin as [<-|Hin]; auto.
Qed.

Lemma insertPriv_loop_unique : forall gt ne l r l',
  unique_entries l ->
  Rib6.insertPriv_loop gt ne l = Some (r, l') -> unique_entries l'.
Proof.
  intros gt ne. induction l as [|x l IH]; simpl; intros r l' Hu H;
    [discriminate|].
  destruct Hu as [Hx Hl]. destruct (Rib6.matches _ _ x) eqn:E.
  - destruct (gt ne x); inversion H; subst; clear H.
    + apply unique_snoc; [assumption|]. intros e' Hin.
      rewrite <- (matches_same_key _ _ _ e' E). apply Hx. assumption.
    + split; assumption.
  - destruct (Rib6.insertPriv_loop gt ne l) as [[r1 l1]|] eqn:El;
      [|discriminate].
    inversion H; subst; clear H. split; [|eapply IH; eauto].
    intros e' Hin.
    destruct (insertPriv_loop_entries _ _ _ _ _ El e' Hin) as [Hin' | ->].
    + apply Hx. assumption.
    + rewrite matches_sym. assumption.
Qed.

Lemma insertPriv_unique : forall gt t src r g l a w ok t',
  unique_entries (Rib6.rib t) ->
  Rib6.insertPriv gt t src r g l a w = Some (ok, t') ->
  unique_entries (Rib6.rib t').
Proof.
  intros gt t src r g l a w ok t' Hu H. unfold Rib6.insertPriv in H.
  destruct (Rib6.new_BgpRib6Entry r src g l a w (Rib6.update_id t)) as [ne|];
    [|discriminate].
  destruct (Rib6.insertPriv_loop gt ne (Rib6.rib t)) as [[r1 l1]|] eqn:E;
    inversion H; subst; clear H; simpl.
  - eapply insertPriv_loop_unique; eauto.
  - apply unique_snoc; [assumption|]. apply (insertPriv_loop_none _ _ _ E).
Qed.

Lemma insert_peer_loop_unique : forall gt rs t src g l a w n n' t',
  unique_entries (Rib6.rib t) ->
  Rib6.insert_peer_loop gt t src rs g l a w n = Some (n', t') ->
  unique_entries (Rib6.rib t').
Proof.
  intros gt. induction rs as [|r rs IH]; simpl; intros t src g l a w n n' t' Hu H.
  - inversion H; subst. assumption.
  - destruct (Rib6.insertPriv gt t src r l g a w) as [[ok t1]|] eqn:E;
      [|discriminate].
    eapply IH; [|eassumption]. eapply insertPriv_unique; eauto.
Qed.

Lemma local_group_some : forall ne l u u',
  Rib6.local_group ne u l = Some u' ->
  forall e', In e' l -> Rib6.matches 0 (Rib6.route ne) e' = false.
Proof.
  intros ne. induction l as [|x l IH]; simpl; intros u u' H e' Hin; [tauto|].
  destruct ((Rib6.src_router_id x =? 0)
            && Rib6.Prefix6_eqb (Rib6.route x) (Rib6.route ne)) eqn:E;
    [discriminate|].
  destruct Hin as [<-|Hin].
  - unfold Rib6.matches. rewrite andb_comm. assumption.
  - match type of H with
    | (if ?c then _ else _) = _ => destruct c
    end; eapply IH; eauto.
Qed.

Lemma local_exists_false : forall l r,
  Rib6.local_exists l r = false ->
  forall e', In e' l -> Rib6.matches 0 r e' = false.
Proof.
  intros l r H e' Hin. unfold Rib6.local_exists in H.
  destruct (Rib6.matches 0 r e') eqn:E; [|reflexivity].
  assert (Hex : existsb
                  (fun entry => (Rib6.src_router_id entry =? 0)
                                && Rib6.Prefix6_eqb (Rib6.route entry) r) l
                = true).
  { apply existsb_exists. exists e'. split; [assumption|].
    unfold Rib6.matches in E. rewrite andb_comm. assumption. }
  congruence.
Qed.

Lemma insert_local_loop_unique : forall rs g l w u entries inserted es ins,
  unique_entries entries ->
  Rib6.insert_local_loop rs g l w u entries inserted = Some (es, ins) ->
  unique_entries es.
Proof.
  induction rs as [|r rs IH]; simpl; intros g l w u entries inserted es ins Hu H.
  - inversion H; subst. assumption.
  - destruct (Rib6.local_exists entries r) eqn:Ex; [eapply IH; eauto|].
    destruct g as [g|]; simpl in H; [|discriminate].
    eapply IH; [|eassumption].
    apply unique_snoc; [assumption|]. simpl.
    apply local_exists_false. assumption.
Qed.

Lemma withdraw_unique : forall t src r,
  unique_entries (Rib6.rib t) ->
  unique_entries (Rib6.rib (snd (Rib6.withdraw t src r))).
Proof.
  intros t src r Hu. unfold Rib6.withdraw.
  destruct (withdraw_loop_spec src r (Rib6.rib t))
    as [[_ Hw] | (l1 & e & l2 & Hl & _ & _ & Hw)]; rewrite Hw; simpl.
  - assumption.
  - rewrite Hl in Hu. eapply unique_remove; eassumption.
Qed.

Lemma withdraw_batch_unique : forall rs t src n,
  unique_entries (Rib6.rib t) ->
  unique_entries (Rib6.rib (snd (Rib6.withdraw_batch t src rs n))).
Proof.
  induction rs as [|r rs IH]; intros t src n Hu; simpl; [assumption|].
  pose proof (withdraw_unique t src r Hu) as Hu1.
  destruct (Rib6.withdraw t src r) as [ok t1]. simpl in Hu1.
  apply IH. assumption.
Qed.

(** Every RIB that operations build from a new RIB has at most one entry
    per source and route. *)
Lemma reachable_unique : forall gt t,
  Rib6.reachable gt t -> unique_entries (Rib6.rib t).
Proof.
  intros gt t H. induction H as [|op t t' _ IH Hrun]; [exact I|].
  destruct op; simpl in Hrun.
  - unfold Rib6.insert_local in Hrun.
    destruct nexthop_global as [g|]; simpl in Hrun; [|discriminate].
    match type of Hrun with
    | context [Rib6.local_group ?ne ?u ?es] =>
        destruct (Rib6.local_group ne u es) as [u'|] eqn:E
    end; inversion Hrun; subst; clear Hrun; simpl; [|assumption].
    apply unique_snoc; [assumption|]. simpl.
    apply (local_group_some _ _ _ _ E).
  - unfold Rib6.insert_local_batch in Hrun.
    destruct (Rib6.insert_local_loop _ _ _ _ _ _ _) as [[es ins]|] eqn:E;
      inversion Hrun; subst; clear Hrun; simpl.
    eapply insert_local_loop_unique; eauto.
  - unfold Rib6.insert_peer in Hrun.
    destruct (Rib6.insertPriv gt t src_router_id route nexthop_global
                nexthop_linklocal attribs weight) as [[ok t1]|] eqn:E;
      inversion Hrun; subst; clear Hrun.
    pose proof (insertPriv_unique _ _ _ _ _ _ _ _ _ _ IH E) as Hu.
    destruct ok; assumption.
  - unfold Rib6.insert_peer_batch in Hrun.
    destruct (Rib6.insert_peer_loop gt t src_router_id routes nexthop_global
                nexthop_linklocal attribs weight 0) as [[n t1]|] eqn:E;
      inversion Hrun; subst; clear Hrun. simpl.
    eapply insert_peer_loop_unique; eauto.
  - inversion Hrun; subst. apply withdraw_unique. assumption.
  - inversion Hrun; subst. apply withdraw_batch_unique. assumption.
  - inversion Hrun; subst. simpl. apply unique_filter. assumption.
Qed.

Lemma unique_split_rest : forall l1 e l2,
  unique_entries (l1 ++ e :: l2) ->
  forall e', In e' l2 ->
    Rib6.matches (Rib6.src_router_id e) (Rib6.route e) e' = false.
Proof.
  induction l1 as [|x l1 IH]; intros e l2 Hu e' Hin; simpl in Hu.
  - destruct Hu as [He _]. auto.
  - destruct Hu as [_ Hl]. eapply IH; eauto.
Qed.

(** C9. [withdraw(src_router_id, route)] returns false and leaves the RIB
    as it is when no entry has the source and the route.  Otherwise it
    returns true and erases the first entry that has both: the entries
    before it and after it stay, in their order, and [update_id] is not
    changed.  In a RIB built by operations from a new RIB, which has at
    most one entry per source and route, the erased entry is the entry with
    the source and the route, and none is left. *)
Theorem withdraw_exact : forall t src r,
  ((forall e, In e (Rib6.rib t) -> Rib6.matches src r e = false)
   /\ Rib6.withdraw t src r = (false, t))
  \/ (exists l1 e l2,
        Rib6.rib t = l1 ++ e :: l2
        /\ Rib6.matches src r e = true
        /\ (forall e', In e' l1 -> Rib6.matches src r e' = false)
        /\ Rib6.withdraw t src r
           = (true, Rib6.mkRib (l1 ++ l2) (Rib6.update_id t))
        /\ (forall gt, Rib6.reachable gt t ->
            forall e', In e' (l1 ++ l2) -> Rib6.matches src r e' = false)).
Proof.
  intros [entries uid] src r. unfold Rib6.withdraw. simpl.
  destruct (withdraw_loop_spec src r entries)
    as [[Hn Hw] | (l1 & e & l2 & Hl & He & Hl1 & Hw)]; rewrite Hw.
  - left. split; [assumption | reflexivity].
  - right. exists l1, e, l2. repeat split; auto.
    intros gt Hreach e' Hin. apply in_app_or in Hin.
    destruct Hin as [Hin|Hin]; [auto|].
    pose proof (reachable_unique gt _ Hreach) as Hu. simpl in Hu.
    rewrite Hl in Hu. rewrite <- (matches_same_key _ _ _ e' He).
    apply (unique_split_rest _ _ _ Hu). assumption.
Qed.

(** The RIB after the peer inserts of 2001:db8::/32 from the sources 1
    and 2. *)
Lemma two_sources_reachable :
  exists t,
    Rib6.reachable heavier t
    /\ Rib6.withdraw t 2 prefix_2001_db8_32
       = (true,
          Rib6.mkRib
            [Rib6.mkEntry prefix_2001_db8_32 1 global_2001_db8_1
               linklocal_fe80_1 [] 0 0] 2).
Proof.
  eexists. split.
  - eapply Rib6.reach_run with
      (op := Rib6.OpInsertPeer 2 prefix_2001_db8_32 (Some global_2001_db8_1)
               (Some linklocal_fe80_1) [] 0).
    + eapply Rib6.reach_run with
        (op := Rib6.OpInsertPeer 1 prefix_2001_db8_32 (Some global_2001_db8_1)
                 (Some linklocal_fe80_1) [] 0).
      * apply Rib6.reach_new.
      * reflexivity.
    + reflexivity.
  - reflexivity.
Qed.

Lemma withdraw_exact_witness :
  Rib6.withdraw
    (Rib6.mkRib
       [Rib6.mkEntry prefix_2001_db8_32 1 global_2001_db8_1 linklocal_fe80_1
          [] 0 0;
        Rib6.mkEntry prefix_2001_db8_32 2 global_2001_db8_1 linklocal_fe80_1
          [] 0 1] 2)
    2 prefix_2001_db8_32
  = (true,
     Rib6.mkRib
       [Rib6.mkEntry prefix_2001_db8_32 1 global_2001_db8_1 linklocal_fe80_1
          [] 0 0] 2).
Proof.
  destruct (withdraw_exact
              (Rib6.mkRib
                 [Rib6.mkEntry prefix_2001_db8_32 1 global_2001_db8_1
                    linklocal_fe80_1 [] 0 0;
                  Rib6.mkEntry prefix_2001_db8_32 2 global_2001_db8_1
                    linklocal_fe80_1 [] 0 1] 2)
              2 prefix_2001_db8_32)
    as [[Hn _] | (l1 & e & l2 & Hl & He & Hl1 & Hw & _)].
  - specialize (Hn _ (or_intror (or_introl eq_refl))). discriminate Hn.
  - reflexivity.
Defined.

(** * Further properties *)

Import UpdateOps.

(** ** dropAttrib and updateAttribute *)

Lemma set_attribs_same : forall m, set_attribs m (path_attribute m) = m.
Proof. intros [u w a n e]. reflexivity. Qed.

Lemma dropAttrib_list_spec : forall l t,
  (~ In t (type_codes l) /\ dropAttrib_list l t = (false, l))
  \/ (exists l1 a l2,
        l = l1 ++ a :: l2 /\ type_code a = t /\ ~ In t (type_codes l1)
        /\ dropAttrib_list l t = (true, l1 ++ l2)).
Proof.
  induction l as [|x l IH]; intros t; simpl.
  - left. split; [tauto | reflexivity].
  - destruct (type_code x =? t) eqn:E.
    + apply Z.eqb_eq in E. right. exists [], x, l. simpl. repeat split; auto.
    + apply Z.eqb_neq in E.
      destruct (IH t) as [[Hn Hd] | (l1 & a & l2 & Hl & Ha & Hl1 & Hd)];
        rewrite Hd.
      * left. split; [|reflexivity]. intros [H|H]; tauto.
      * right. exists (x :: l1), a, l2. subst l. simpl.
        repeat split; auto. intros [H|H]; tauto.
Qed.

(** X1. [dropAttrib(type)] returns false and leaves the message as it is
    when no attribute has the type.  Otherwise it returns true and erases
    the first attribute of the type and nothing else: the attributes before
    and after it stay in their order, and the first attribute of every
    other type is the one it was. *)
Theorem dropAttrib_first : forall m t,
  ((~ In t (type_codes (path_attribute m)) /\ dropAttrib m t = (false, m))
   \/ (exists l1 a l2,
         path_attribute m = l1 ++ a :: l2
         /\ type_code a = t
         /\ ~ In t (type_codes l1)
         /\ dropAttrib m t = (true, set_attribs m (l1 ++ l2))))
  /\ (forall t', t' <> t ->
        getAttrib (path_attribute (snd (dropAttrib m t))) t'
        = getAttrib (path_attribute m) t').
Proof.
  intros m t. split.
  - unfold dropAttrib.
    destruct (dropAttrib_list_spec (path_attribute m) t)
      as [[Hn Hd] | (l1 & a & l2 & Hl & Ha & Hl1 & Hd)]; rewrite Hd.
    + left. rewrite set_attribs_same. auto.
    + right. exists l1, a, l2. auto.
  - intros t' Hne. unfold dropAttrib.
    pose proof (getAttrib_drop_other (path_attribute m) t' t Hne) as H.
    destruct (dropAttrib_list (path_attribute m) t) as [r l]. exact H.
Qed.

Lemma dropAttrib_first_witness :
  getAttrib (path_attribute (snd (dropAttrib msg_two_meds MULTI_EXIT_DISC)))
    NEXT_HOP
  = getAttrib (path_attribute msg_two_meds) NEXT_HOP.
Proof.
  apply (proj2 (dropAttrib_first msg_two_meds MULTI_EXIT_DISC)).
  unfold NEXT_HOP, MULTI_EXIT_DISC. lia.
Defined.

Lemma dropAttrib_list_other_codes : forall l t t',
  t' <> t ->
  In t' (type_codes (snd (dropAttrib_list l t))) <-> In t' (type_codes l).
Proof.
  intros l t t' Hne.
  destruct (dropAttrib_list_spec l t)
    as [[_ Hd] | (l1 & a & l2 & Hl & Ha & _ & Hd)]; rewrite Hd; simpl.
  - tauto.
  - subst l. rewrite !type_codes_app. simpl. rewrite !in_app_iff. simpl.
    split; [tauto|]. intros [H|[H|H]]; auto. congruence.
Qed.

Lemma dropAttrib_list_keeps_NoDup : forall l t,
  NoDup (type_codes l) -> NoDup (type_codes (snd (dropAttrib_list l t))).
Proof.
  intros l t Hnd.
  destruct (dropAttrib_list_spec l t)
    as [[_ Hd] | (l1 & a & l2 & Hl & Ha & _ & Hd)]; rewrite Hd; simpl.
  - assumption.
  - subst l. rewrite type_codes_app in *. simpl in Hnd.
    apply NoDup_remove_1 in Hnd. assumption.
Qed.

(** X2. On a message whose attributes have distinct type codes,
    [updateAttribute(attrib)] returns true: the attribute of the type of
    [attrib], if any, is erased and the clone of [attrib] is the last
    attribute.  Afterwards [getAttrib] of that type gives [attrib], the
    attribute of every other type is the one it was, and the type codes are
    still distinct. *)
Theorem updateAttribute_distinct : forall m a,
  NoDup (type_codes (path_attribute m)) ->
  let rest := snd (dropAttrib_list (path_attribute m) (type_code a)) in
  updateAttribute m a = (true, set_attribs m (rest ++ [a]))
  /\ getAttrib (rest ++ [a]) (type_code a) = Some a
  /\ (forall t, t <> type_code a ->
        getAttrib (rest ++ [a]) t = getAttrib (path_attribute m) t)
  /\ NoDup (type_codes (rest ++ [a])).
Proof.
  intros m a Hnd rest.
  pose proof (dropAttrib_list_NoDup (path_attribute m) (type_code a) Hnd) as Hno.
  fold rest in Hno. apply hasAttrib_list_false in Hno.
  split; [|split; [|split]].
  - unfold updateAttribute, dropAttrib, addAttrib, hasAttrib, clone.
    unfold rest in *.
    destruct (dropAttrib_list (path_attribute m) (type_code a)) as [r l].
    simpl in *. rewrite Hno. destruct m; reflexivity.
  - rewrite getAttrib_app_r by assumption. simpl. rewrite Z.eqb_refl.
    reflexivity.
  - intros t Hne.
    destruct (getAttrib rest t) as [x|] eqn:E.
    + rewrite (getAttrib_app_l _ _ _ _ E). rewrite <- E. unfold rest.
      apply getAttrib_drop_other. assumption.
    + assert (Hh : hasAttrib_list rest t = false).
      { destruct (hasAttrib_list rest t) eqn:Eh; [|reflexivity].
        apply hasAttrib_list_In in Eh. clear - Eh E. exfalso.
        induction rest as [|y l IH]; simpl in *; [tauto|].
        destruct (type_code y =? t) eqn:Ey; [discriminate|].
        apply Z.eqb_neq in Ey. destruct Eh; [congruence | auto]. }
      rewrite getAttrib_app_r by assumption. simpl.
      replace (type_code a =? t) with false
        by (symmetry; apply Z.eqb_neq; congruence).
      rewrite <- E. unfold rest. apply getAttrib_drop_other.
      assumption.
  - rewrite type_codes_app. simpl. apply NoDup_snoc.
    + apply dropAttrib_list_keeps_NoDup. assumption.
    + apply hasAttrib_list_false. assumption.
Qed.

Lemma updateAttribute_distinct_witness :
  updateAttribute msg_4b_session (med_attr 10)
  = (true,
     mkMsg true []
       [origin_igp;
        as_path_attr true [mkSeg true AS_SEQUENCE [70000; 65000]];
        nexthop_10_0_0_1; med_attr 10]
       [] no_error).
Proof.
  refine (proj1 (updateAttribute_distinct msg_4b_session (med_attr 10) _)).
  repeat constructor; simpl; intuition discriminate.
Defined.

Lemma count_occ_drop : forall l t,
  In t (type_codes l) ->
  S (count_occ Z.eq_dec (type_codes (snd (dropAttrib_list l t))) t)
  = count_occ Z.eq_dec (type_codes l) t.
Proof.
  intros l t Hin.
  destruct (dropAttrib_list_spec l t)
    as [[Hn _] | (l1 & a & l2 & Hl & Ha & _ & Hd)]; [tauto|].
  rewrite Hd. simpl. subst l. rewrite !type_codes_app. simpl.
  rewrite !count_occ_app. simpl.
  destruct (Z.eq_dec (type_code a) t); [lia | congruence].
Qed.

(** X3. On a message in which the type of [attrib] occurs twice or more,
    [updateAttribute(attrib)] returns false and does not store [attrib];
    the message has nevertheless lost the first attribute of that type. *)
Theorem updateAttribute_duplicate : forall m a,
  (2 <= count_occ Z.eq_dec (type_codes (path_attribute m)) (type_code a))%nat ->
  updateAttribute m a = (false, snd (dropAttrib m (type_code a)))
  /\ S (count_occ Z.eq_dec
          (type_codes (path_attribute (snd (updateAttribute m a))))
          (type_code a))
     = count_occ Z.eq_dec (type_codes (path_attribute m)) (type_code a).
Proof.
  intros m a Hc.
  assert (Hin : In (type_code a) (type_codes (path_attribute m))).
  { apply (count_occ_In Z.eq_dec). lia. }
  pose proof (count_occ_drop _ _ Hin) as Hd.
  assert (Hstill : hasAttrib_list
                     (snd (dropAttrib_list (path_attribute m) (type_code a)))
                     (type_code a) = true).
  { apply hasAttrib_list_In. apply (count_occ_In Z.eq_dec). lia. }
  assert (E : updateAttribute m a = (false, snd (dropAttrib m (type_code a)))).
  { unfold updateAttribute, addAttrib, hasAttrib, dropAttrib.
    destruct (dropAttrib_list (path_attribute m) (type_code a)) as [r l].
    simpl in *. rewrite Hstill. reflexivity. }
  split; [exact E|]. rewrite E. unfold dropAttrib.
  destruct (dropAttrib_list (path_attribute m) (type_code a)) as [r l].
  simpl in *. exact Hd.
Qed.

Lemma updateAttribute_duplicate_witness :
  updateAttribute msg_two_meds (med_attr 30)
  = (false,
     mkMsg true [] [origin_igp; nexthop_10_0_0_1; med_attr 20] [] no_error).
Proof.
  refine (proj1 (updateAttribute_duplicate msg_two_meds (med_attr 30) _)).
  vm_compute. lia.
Defined.

(** ** dropNonTransitive *)

Lemma dropNonTransitive_loop_spec : forall l removed,
  dropNonTransitive_loop l removed
  = (removed || negb (forallb transitive l), filter transitive l).
Proof.
  induction l as [|a l IH]; intros removed; simpl.
  - rewrite orb_false_r. reflexivity.
  - destruct (transitive a); simpl; rewrite IH; [reflexivity|].
    rewrite orb_true_r. reflexivity.
Qed.

Lemma filter_idem : forall (A : Type) (f : A -> bool) (l : list A),
  filter f (filter f l) = filter f l.
Proof.
  intros A f. induction l as [|a l IH]; simpl; [reflexivity|].
  destruct (f a) eqn:E; simpl; rewrite ?E, IH; reflexivity.
Qed.

Lemma forallb_filter_same : forall (A : Type) (f : A -> bool) (l : list A),
  forallb f (filter f l) = true.
Proof.
  intros A f. induction l as [|a l IH]; simpl; [reflexivity|].
  destruct (f a) eqn:E; simpl; rewrite ?E; assumption.
Qed.

(** X4. [dropNonTransitive] keeps exactly the transitive attributes, in
    their order, and returns true exactly when some attribute was not
    transitive; a second call returns false and changes nothing. *)
Theorem dropNonTransitive_keeps_transitive : forall m,
  dropNonTransitive m
  = (negb (forallb transitive (path_attribute m)),
     set_attribs m (filter transitive (path_attribute m)))
  /\ dropNonTransitive (snd (dropNonTransitive m))
     = (false, snd (dropNonTransitive m)).
Proof.
  intros m. unfold dropNonTransitive.
  rewrite dropNonTransitive_loop_spec. simpl. split; [reflexivity|].
  rewrite dropNonTransitive_loop_spec, forallb_filter_same, filter_idem.
  destruct m; reflexivity.
Qed.

(** ** restoreAsPath and downgradeAsPath: the other branches *)

Lemma getAttrib_snoc_other : forall l a t,
  t <> type_code a -> getAttrib (l ++ [a]) t = getAttrib l t.
Proof.
  induction l as [|x l IH]; intros a t Hne; simpl.
  - replace (type_code a =? t) with false
      by (symmetry; apply Z.eqb_neq; congruence).
    reflexivity.
  - destruct (type_code x =? t); [reflexivity | apply IH; assumption].
Qed.

Lemma getAttrib_assign_first_other : forall l t b t',
  t' <> t -> getAttrib (assign_first l t b) t' = getAttrib l t'.
Proof.
  induction l as [|x l IH]; intros t b t' Hne; simpl; [reflexivity|].
  destruct (type_code x =? t) eqn:E; simpl.
  - apply Z.eqb_eq in E.
    replace (type_code x =? t') with false
      by (symmetry; apply Z.eqb_neq; congruence).
    reflexivity.
  - destruct (type_code x =? t'); [reflexivity | apply IH; assumption].
Qed.

Lemma widen_segs_all_2b : forall as_paths new_segs,
  forallb (fun seg => negb (seg_is_4b seg)) as_paths = true ->
  widen_segs as_paths new_segs = Some (new_segs ++ map widen_seg as_paths).
Proof.
  induction as_paths as [|seg l IH]; intros acc H; simpl.
  - rewrite app_nil_r. reflexivity.
  - simpl in H. apply andb_prop in H. destruct H as [H1 H2].
    apply negb_true_iff in H1. rewrite H1.
    rewrite IH by assumption. rewrite <- app_assoc. reflexivity.
Qed.

Lemma map_uint16_small : forall value,
  Forall (fun v => 0 <= v < 65536) value -> map uint16 value = value.
Proof.
  induction value as [|v l IH]; intros H; [reflexivity|].
  inversion H; subst. simpl. rewrite IH by assumption.
  unfold uint16. rewrite Z.mod_small by assumption. reflexivity.
Qed.

(** X5. On a message without AS4_PATH whose AS_PATH is 2-byte with 2-byte
    segments, [restoreAsPath] returns true and changes the AS_PATH
    attribute only: the attribute and each segment become 4-byte, the
    segment types stay, and every ASN is read as a 16-bit value, so that a
    segment of ASNs below 2^16 keeps its ASNs, AS_TRANS included. *)
Theorem restoreAsPath_without_as4 : forall m path as_paths,
  getAttrib (path_attribute m) AS_PATH = Some path ->
  body path = BodyAsPath false as_paths ->
  forallb (fun seg => negb (seg_is_4b seg)) as_paths = true ->
  hasAttrib m AS4_PATH = false ->
  restoreAsPath m
  = Some (true,
          set_attribs m
            (assign_first (path_attribute m) AS_PATH
               (BodyAsPath true (map widen_seg as_paths))))
  /\ (forall seg,
        Forall (fun v => 0 <= v < 65536) (seg_value seg) ->
        widen_seg seg = mkSeg true (seg_type seg) (seg_value seg))
  /\ (forall t, t <> AS_PATH ->
        getAttrib
          (assign_first (path_attribute m) AS_PATH
             (BodyAsPath true (map widen_seg as_paths))) t
        = getAttrib (path_attribute m) t).
Proof.
  intros m path segs Hp Hb H2b H4. split; [|split].
  - unfold restoreAsPath. unfold hasAttrib in *.
    rewrite (getAttrib_hasAttrib _ _ _ Hp), Hp, Hb, H4. simpl.
    rewrite widen_segs_all_2b by assumption. reflexivity.
  - intros seg Hs. unfold widen_seg. rewrite map_uint16_small by assumption.
    reflexivity.
  - intros t Hne. apply getAttrib_assign_first_other. assumption.
Qed.

Lemma restoreAsPath_without_as4_witness :
  restoreAsPath msg_2b_session
  = Some (true,
          mkMsg false []
            [origin_igp;
             as_path_attr true [mkSeg true AS_SEQUENCE [65001; 65000]];
             nexthop_10_0_0_1]
            [] no_error).
Proof.
  exact (proj1 (restoreAsPath_without_as4 msg_2b_session
                  (as_path_attr false [mkSeg false AS_SEQUENCE [65001; 65000]])
                  [mkSeg false AS_SEQUENCE [65001; 65000]]
                  eq_refl eq_refl eq_refl eq_refl)).
Defined.

Lemma restoreAsPath_already_4b : forall m path as_paths,
  getAttrib (path_attribute m) AS_PATH = Some path ->
  body path = BodyAsPath true as_paths ->
  restoreAsPath m = Some (true, m).
Proof.
  intros m path segs Hp Hb. unfold restoreAsPath, hasAttrib.
  rewrite (getAttrib_hasAttrib _ _ _ Hp), Hp, Hb. reflexivity.
Qed.

Lemma downgradeAsPath_already_2b : forall m path as_paths,
  getAttrib (path_attribute m) AS_PATH = Some path ->
  body path = BodyAsPath false as_paths ->
  downgradeAsPath m = Some (true, m).
Proof.
  intros m path segs Hp Hb. unfold downgradeAsPath, hasAttrib.
  rewrite (getAttrib_hasAttrib _ _ _ Hp), Hp, Hb. reflexivity.
Qed.

Lemma path_attribute_dropAttrib : forall m t,
  path_attribute (snd (dropAttrib m t))
  = snd (dropAttrib_list (path_attribute m) t).
Proof.
  intros m t. unfold dropAttrib.
  destruct (dropAttrib_list (path_attribute m) t). reflexivity.
Qed.

(** X6. [restoreAsPath] is idempotent: on the message a successful call
    leaves, a second call returns true and changes nothing. *)
Theorem restoreAsPath_idempotent : forall m m',
  restoreAsPath m = Some (true, m') -> restoreAsPath m' = Some (true, m').
Proof.
  intros m m' H. pose proof H as H0. unfold restoreAsPath in H.
  destruct (hasAttrib m AS_PATH) eqn:Hh; simpl in H.
  2:{ inversion H; subst. exact H0. }
  destruct (getAttrib (path_attribute m) AS_PATH) as [path|] eqn:Hg;
    [|discriminate].
  destruct (body path) as [| |is_4b segs| |] eqn:Hb; try discriminate.
  destruct is_4b; [inversion H; subst; exact H0|].
  destruct (hasAttrib m AS4_PATH) eqn:H4; simpl in H.
  - destruct (getAttrib (path_attribute m) AS4_PATH) as [a4|]; [|discriminate].
    destruct (body a4) as [| | |segs4|]; try discriminate.
    destruct (collect_as4 segs4 []) as [full|]; [|discriminate].
    destruct (find_4b full false) as [has it].
    destruct (restore_segs has it segs []) as [new_segs|]; inversion H; subst.
    eapply restoreAsPath_already_4b; simpl.
    + apply getAttrib_assign_first. rewrite path_attribute_dropAttrib.
      rewrite getAttrib_drop_other; [eassumption | discriminate].
    + reflexivity.
  - destruct (widen_segs segs []) as [new_segs|]; inversion H; subst.
    eapply restoreAsPath_already_4b; simpl.
    + apply getAttrib_assign_first. eassumption.
    + reflexivity.
Qed.

Lemma restoreAsPath_idempotent_witness :
  restoreAsPath
    (mkMsg true []
       [origin_igp;
        as_path_attr true [mkSeg true AS_SEQUENCE [70000; 200; 23456]];
        nexthop_10_0_0_1]
       [] no_error)
  = Some (true,
          mkMsg true []
            [origin_igp;
             as_path_attr true [mkSeg true AS_SEQUENCE [70000; 200; 23456]];
             nexthop_10_0_0_1]
            [] no_error).
Proof.
  apply (restoreAsPath_idempotent msg_as_trans). reflexivity.
Defined.

Lemma getAttrib_update_other : forall m a t,
  t <> type_code a ->
  getAttrib (path_attribute (snd (updateAttribute m a))) t
  = getAttrib (path_attribute m) t.
Proof.
  intros m a t Hne. unfold updateAttribute, addAttrib, clone.
  destruct (hasAttrib (snd (dropAttrib m (type_code a))) (type_code a));
    simpl; rewrite ?getAttrib_snoc_other by assumption;
    rewrite path_attribute_dropAttrib; apply getAttrib_drop_other; assumption.
Qed.

(** X7. [downgradeAsPath] is idempotent: on the message a successful call
    leaves, a second call returns true and changes nothing. *)
Theorem downgradeAsPath_idempotent : forall m m',
  downgradeAsPath m = Some (true, m') -> downgradeAsPath m' = Some (true, m').
Proof.
  intros m m' H. pose proof H as H0. unfold downgradeAsPath in H.
  destruct (hasAttrib m AS_PATH) eqn:Hh; simpl in H.
  2:{ inversion H; subst. exact H0. }
  destruct (getAttrib (path_attribute m) AS_PATH) as [path|] eqn:Hg;
    [|discriminate].
  destruct (body path) as [| |is_4b segs| |] eqn:Hb; try discriminate.
  destruct is_4b; simpl in H; [|inversion H; subst; exact H0].
  destruct (downgrade_segs segs [] []) as [[new_segs segs4]|];
    inversion H; subst.
  eapply downgradeAsPath_already_2b; simpl.
  - apply getAttrib_assign_first. rewrite getAttrib_update_other;
      [eassumption | discriminate].
  - reflexivity.
Qed.

Lemma downgradeAsPath_idempotent_witness :
  downgradeAsPath
    (mkMsg true []
       [origin_igp;
        as_path_attr false [mkSeg false AS_SEQUENCE [23456; 65000]];
        nexthop_10_0_0_1;
        as4_path_attr [mkSeg true AS_SEQUENCE [70000; 65000]]]
       [] no_error)
  = Some (true,
          mkMsg true []
            [origin_igp;
             as_path_attr false [mkSeg false AS_SEQUENCE [23456; 65000]];
             nexthop_10_0_0_1;
             as4_path_attr [mkSeg true AS_SEQUENCE [70000; 65000]]]
            [] no_error).
Proof.
  apply (downgradeAsPath_idempotent msg_4b_session). reflexivity.
Defined.

Lemma restore_segs_some_4b : forall has_4b iter_4b as_paths new_segs,
  forallb (fun seg => negb (seg_is_4b seg)) as_paths = false ->
  restore_segs has_4b iter_4b as_paths new_segs = None.
Proof.
  intros has it. induction as_paths as [|seg l IH]; intros acc H; simpl in *.
  - discriminate.
  - destruct (seg_is_4b seg); [reflexivity|]. simpl in H. apply IH. assumption.
Qed.

(** X8. When the 2-byte AS_PATH attribute holds a 4-byte segment and the
    AS4_PATH is well formed, [restoreAsPath] returns false after it has
    erased the AS4_PATH: the message it leaves is the one [dropAttrib]
    leaves, with the AS_PATH as it was. *)
Theorem restoreAsPath_fails_after_drop : forall m path as_paths as4_path
    as4_paths,
  getAttrib (path_attribute m) AS_PATH = Some path ->
  body path = BodyAsPath false as_paths ->
  forallb (fun seg => negb (seg_is_4b seg)) as_paths = false ->
  getAttrib (path_attribute m) AS4_PATH = Some as4_path ->
  body as4_path = BodyAs4Path as4_paths ->
  forallb seg_is_4b as4_paths = true ->
  restoreAsPath m = Some (false, snd (dropAttrib m AS4_PATH))
  /\ getAttrib (path_attribute (snd (dropAttrib m AS4_PATH))) AS_PATH
     = Some path.
Proof.
  intros m path segs a4 segs4 Hp Hb Hmix H4 H4b Hall. split.
  - unfold restoreAsPath, hasAttrib.
    rewrite (getAttrib_hasAttrib _ _ _ Hp), Hp, Hb. simpl.
    rewrite (getAttrib_hasAttrib _ _ _ H4), H4, H4b. simpl.
    rewrite collect_as4_all_4b by assumption. simpl.
    destruct (find_4b (as4_sequence_asns segs4) false) as [has it].
    rewrite restore_segs_some_4b by assumption. reflexivity.
  - rewrite path_attribute_dropAttrib, getAttrib_drop_other;
      [assumption | discriminate].
Qed.

Lemma restoreAsPath_fails_after_drop_witness :
  restoreAsPath msg_mixed_width
  = Some (false,
          mkMsg true []
            [origin_igp;
             as_path_attr false [mkSeg true AS_SEQUENCE [23456; 65000]];
             nexthop_10_0_0_1]
            [] no_error).
Proof.
  exact (proj1 (restoreAsPath_fails_after_drop msg_mixed_width
                  (as_path_attr false [mkSeg true AS_SEQUENCE [23456; 65000]])
                  [mkSeg true AS_SEQUENCE [23456; 65000]]
                  (as4_path_attr [mkSeg true AS_SEQUENCE [70000; 65000]])
                  [mkSeg true AS_SEQUENCE [70000; 65000]]
                  eq_refl eq_refl eq_refl eq_refl eq_refl eq_refl)).
Defined.

Lemma path_attribute_update_absent : forall m a,
  hasAttrib_list (snd (dropAttrib_list (path_attribute m) (type_code a)))
    (type_code a) = false ->
  path_attribute (snd (updateAttribute m a))
  = snd (dropAttrib_list (path_attribute m) (type_code a)) ++ [a].
Proof.
  intros m a H. unfold updateAttribute, addAttrib, hasAttrib, clone.
  rewrite path_attribute_dropAttrib, H. reflexivity.
Qed.

Lemma downgrade_asn_range : forall asn, 0 <= downgrade_asn asn < 65536.
Proof.
  intros asn. unfold downgrade_asn, uint16. apply Z.mod_pos_bound. lia.
Qed.

(** X9. On a message whose AS_PATH is 4-byte with 4-byte segments,
    [downgradeAsPath] returns true and leaves a 2-byte AS_PATH with the
    same segment types and lengths in which every ASN fits in 16 bits: an
    ASN below 65535 is kept and every other ASN is 23456.  When the type
    codes of the message are distinct, the AS4_PATH of the result carries
    the segments as they were. *)
Theorem downgradeAsPath_two_byte : forall m path as_paths,
  getAttrib (path_attribute m) AS_PATH = Some path ->
  body path = BodyAsPath true as_paths ->
  forallb seg_is_4b as_paths = true ->
  exists m' new_segs,
    downgradeAsPath m = Some (true, m')
    /\ getAttrib (path_attribute m') AS_PATH
       = Some (set_body path (BodyAsPath false new_segs))
    /\ Forall2
         (fun seg4 seg2 =>
            seg_is_4b seg2 = false
            /\ seg_type seg2 = seg_type seg4
            /\ Forall2
                 (fun asn4 asn2 =>
                    0 <= asn2 < 65536
                    /\ (0 <= asn4 ->
                        asn2 = if asn4 <? 65535 then asn4 else AS_TRANS))
                 (seg_value seg4) (seg_value seg2))
         as_paths new_segs
    /\ (NoDup (type_codes (path_attribute m)) ->
        getAttrib (path_attribute m') AS4_PATH = Some (as4_path_attr as_paths)).
Proof.
  intros m path segs Hp Hb H4b.
  eexists. exists (map downgrade_seg segs).
  split; [apply (downgradeAsPath_4b m path segs Hp Hb H4b)|].
  cbv zeta. simpl. split; [|split].
  - apply getAttrib_assign_first. rewrite getAttrib_update_other;
      [assumption | discriminate].
  - apply Forall2_map_r. intros seg _. simpl. repeat split.
    apply Forall2_map_r. intros asn _. split.
    + apply downgrade_asn_range.
    + apply downgrade_asn_spec.
  - intros Hnd. rewrite getAttrib_assign_first_other by discriminate.
    pose proof (dropAttrib_list_NoDup (path_attribute m) AS4_PATH Hnd) as Hno.
    apply hasAttrib_list_false in Hno.
    rewrite (path_attribute_update_absent m (as4_path_attr segs) Hno).
    rewrite getAttrib_app_r by assumption. reflexivity.
Qed.

Lemma downgradeAsPath_two_byte_witness :
  exists m' new_segs,
    downgradeAsPath msg_4b_session = Some (true, m')
    /\ getAttrib (path_attribute m') AS_PATH
       = Some (as_path_attr false new_segs)
    /\ new_segs = [mkSeg false AS_SEQUENCE [23456; 65000]].
Proof.
  destruct (downgradeAsPath_two_byte msg_4b_session
              (as_path_attr true [mkSeg true AS_SEQUENCE [70000; 65000]])
              [mkSeg true AS_SEQUENCE [70000; 65000]]
              eq_refl eq_refl eq_refl) as (m' & new_segs & Hd & Hg & _).
  vm_compute in Hd. inversion Hd; subst m'. clear Hd.
  exists (mkMsg true []
            [origin_igp;
             as_path_attr false [mkSeg false AS_SEQUENCE [23456; 65000]];
             nexthop_10_0_0_1;
             as4_path_attr [mkSeg true AS_SEQUENCE [70000; 65000]]]
            [] no_error), [mkSeg false AS_SEQUENCE [23456; 65000]].
  repeat split.
Defined.

(** ** prepend *)

Lemma getCount_ge_255 : forall seg,
  (AsPath.getCount seg >=? 255) = negb (Datatypes.length (seg_value seg) <? 255)%nat.
Proof.
  intros seg. unfold AsPath.getCount. rewrite Z.geb_leb.
  destruct (Nat.ltb_spec (Datatypes.length (seg_value seg)) 255); simpl.
  - apply Z.leb_gt. lia.
  - apply Z.leb_le. lia.
Qed.

Lemma stored_asn_twice : forall asn,
  uint16 (if uint16 (if asn >? 65535 then 23456 else asn) >? 65535
          then 23456 else uint16 (if asn >? 65535 then 23456 else asn))
  = uint16 (if asn >? 65535 then 23456 else asn).
Proof.
  intros asn. set (x := uint16 (if asn >? 65535 then 23456 else asn)).
  assert (Hx : 0 <= x < 65536) by (apply Z.mod_pos_bound; lia).
  replace (x >? 65535) with false
    by (symmetry; rewrite Z.gtb_ltb; apply Z.ltb_ge; lia).
  unfold uint16. apply Z.mod_small. assumption.
Qed.

Lemma addSeg_spec : forall is_4b as_paths asn,
  AsPath.addSeg is_4b as_paths asn
  = as_paths ++ [mkSeg is_4b AS_SEQUENCE [stored_asn is_4b asn]].
Proof.
  intros [|] segs asn; unfold AsPath.addSeg, stored_asn; simpl.
  - reflexivity.
  - rewrite stored_asn_twice. reflexivity.
Qed.

Lemma Segment_prepend_spec : forall seg asn,
  (Datatypes.length (seg_value seg) < 255)%nat ->
  AsPath.Segment_prepend seg asn
  = (true, mkSeg (seg_is_4b seg) (seg_type seg)
             (stored_asn (seg_is_4b seg) asn :: seg_value seg)).
Proof.
  intros seg asn H.
  unfold AsPath.Segment_prepend, AsPath.Segment4b_prepend,
    AsPath.Segment2b_prepend, stored_asn.
  rewrite getCount_ge_255.
  replace (Datatypes.length (seg_value seg) <? 255)%nat with true
    by (symmetry; apply Nat.ltb_lt; assumption).
  destruct (seg_is_4b seg); reflexivity.
Qed.

Lemma total_asns_app : forall l1 l2,
  total_asns (l1 ++ l2) = (total_asns l1 + total_asns l2)%nat.
Proof.
  induction l1 as [|x l IH]; intros l2; simpl; [reflexivity|].
  rewrite IH. lia.
Qed.

(** X10. [BgpPathAttribAsPath::prepend] returns false, and leaves the path
    as it is, exactly when the path has a first segment whose type is
    neither AS_SET nor AS_SEQUENCE.  When it returns true the path has one
    ASN more, and no segment has more than 255 ASNs if none had before. *)
Theorem AsPath_prepend_counts : forall is_4b as_paths asn,
  (fst (AsPath.prepend is_4b as_paths asn) = false <->
   exists seg rest,
     as_paths = seg :: rest
     /\ seg_type seg <> AS_SET /\ seg_type seg <> AS_SEQUENCE)
  /\ (fst (AsPath.prepend is_4b as_paths asn) = false ->
      snd (AsPath.prepend is_4b as_paths asn) = as_paths)
  /\ (fst (AsPath.prepend is_4b as_paths asn) = true ->
      total_asns (snd (AsPath.prepend is_4b as_paths asn))
      = S (total_asns as_paths))
  /\ (segments_bounded as_paths ->
      segments_bounded (snd (AsPath.prepend is_4b as_paths asn))).
Proof.
  intros is_4b segs asn.
  assert (Hadd : forall segs',
            segs' = segs ->
            (segs = [] \/ exists seg rest, segs = seg :: rest
                          /\ (seg_type seg = AS_SET \/ seg_type seg = AS_SEQUENCE)) ->
            AsPath.prepend is_4b segs asn = (true, AsPath.addSeg is_4b segs' asn) ->
            (fst (AsPath.prepend is_4b segs asn) = false <->
             exists seg rest,
               segs = seg :: rest
               /\ seg_type seg <> AS_SET /\ seg_type seg <> AS_SEQUENCE)
            /\ (fst (AsPath.prepend is_4b segs asn) = false ->
                snd (AsPath.prepend is_4b segs asn) = segs)
            /\ (fst (AsPath.prepend is_4b segs asn) = true ->
                total_asns (snd (AsPath.prepend is_4b segs asn))
                = S (total_asns segs))
            /\ (segments_bounded segs ->
                segments_bounded (snd (AsPath.prepend is_4b segs asn)))).
  { intros segs' -> Hfirst E. rewrite E, addSeg_spec. simpl fst. simpl snd.
    split; [|split; [|split]].
    - split; [discriminate|].
      intros (s & r & H & Hs & Hq).
      destruct Hfirst as [-> | (s' & r' & H' & Ht)]; [discriminate|].
      rewrite H in H'. inversion H'; subst. tauto.
    - discriminate.
    - intros _. rewrite total_asns_app. simpl. lia.
    - intros Hb. apply Forall_app. split; [assumption|].
      constructor; [simpl; lia | constructor]. }
  destruct segs as [|seg rest].
  - apply (Hadd [] eq_refl); [left; reflexivity | reflexivity].
  - destruct (Z.eqb_spec (seg_type seg) AS_SET) as [Es|Es].
    { apply (Hadd _ eq_refl).
      - right. exists seg, rest. auto.
      - unfold AsPath.prepend. rewrite Es. reflexivity. }
    destruct (Z.eqb_spec (seg_type seg) AS_SEQUENCE) as [Eq|Eq].
    + destruct (Nat.ltb_spec (Datatypes.length (seg_value seg)) 255) as [Hl|Hl].
      * assert (E : AsPath.prepend is_4b (seg :: rest) asn
                    = (true,
                       mkSeg (seg_is_4b seg) (seg_type seg)
                         (stored_asn (seg_is_4b seg) asn :: seg_value seg)
                       :: rest)).
        { unfold AsPath.prepend.
          replace (seg_type seg =? AS_SET) with false
            by (symmetry; apply Z.eqb_neq; assumption).
          rewrite Eq. simpl. rewrite getCount_ge_255.
          replace (Datatypes.length (seg_value seg) <? 255)%nat with true
            by (symmetry; apply Nat.ltb_lt; assumption).
          simpl. rewrite Segment_prepend_spec by assumption.
          rewrite Eq. reflexivity. }
        rewrite E. simpl fst. simpl snd. split; [|split; [|split]].
        -- split; [discriminate|].
           intros (s & r & H & _ & Hq). inversion H; subst. contradiction.
        -- discriminate.
        -- intros _. simpl. reflexivity.
        -- intros Hb. inversion Hb; subst.
           constructor; [simpl; lia | assumption].
      * apply (Hadd _ eq_refl).
        -- right. exists seg, rest. auto.
        -- unfold AsPath.prepend.
           replace (seg_type seg =? AS_SET) with false
             by (symmetry; apply Z.eqb_neq; assumption).
           rewrite Eq. simpl. rewrite getCount_ge_255.
           replace (Datatypes.length (seg_value seg) <? 255)%nat with false
             by (symmetry; apply Nat.ltb_ge; assumption).
           reflexivity.
    + assert (E : AsPath.prepend is_4b (seg :: rest) asn = (false, seg :: rest)).
      { unfold AsPath.prepend.
        replace (seg_type seg =? AS_SET) with false
          by (symmetry; apply Z.eqb_neq; assumption).
        replace (seg_type seg =? AS_SEQUENCE) with false
          by (symmetry; apply Z.eqb_neq; assumption).
        reflexivity. }
      rewrite E. simpl fst. simpl snd. split; [|split; [|split]].
      * split; [|reflexivity]. intros _. exists seg, rest. auto.
      * reflexivity.
      * discriminate.
      * auto.
Qed.

Lemma AsPath_prepend_counts_witness :
  total_asns
    (snd (AsPath.prepend true [mkSeg true AS_SEQUENCE [65001]] 65002))
  = 2%nat.
Proof.
  destruct (AsPath_prepend_counts true [mkSeg true AS_SEQUENCE [65001]] 65002)
    as (_ & _ & H & _).
  apply H. reflexivity.
Defined.

(** X11. Where [BgpPathAttribAsPath::prepend] puts the ASN.  When the
    first segment is an AS_SEQUENCE of fewer than 255 ASNs, the ASN becomes
    the first ASN of that segment, stored in the width of the segment.
    When the path is empty, or its first segment is an AS_SET or an
    AS_SEQUENCE of 255 ASNs or more, a new AS_SEQUENCE with the one ASN, in
    the width of the attribute, becomes the last segment of the path.  A
    2-byte segment stores 23456 for an ASN above 65535. *)
Theorem AsPath_prepend_placement : forall is_4b as_paths asn,
  (forall seg rest,
     as_paths = seg :: rest ->
     seg_type seg = AS_SEQUENCE ->
     (Datatypes.length (seg_value seg) < 255)%nat ->
     AsPath.prepend is_4b as_paths asn
     = (true,
        mkSeg (seg_is_4b seg) AS_SEQUENCE
          (stored_asn (seg_is_4b seg) asn :: seg_value seg) :: rest))
  /\ (as_paths = []
      \/ (exists seg rest,
            as_paths = seg :: rest
            /\ (seg_type seg = AS_SET
                \/ (seg_type seg = AS_SEQUENCE
                    /\ (255 <= Datatypes.length (seg_value seg))%nat))) ->
      AsPath.prepend is_4b as_paths asn
      = (true, as_paths ++ [mkSeg is_4b AS_SEQUENCE [stored_asn is_4b asn]]))
  /\ (0 <= asn < 4294967296 ->
      stored_asn true asn = asn
      /\ stored_asn false asn = if asn <=? 65535 then asn else AS_TRANS).
Proof.
  intros is_4b segs asn. split; [|split].
  - intros seg rest -> Ht Hl. unfold AsPath.prepend. rewrite Ht. simpl.
    rewrite getCount_ge_255.
    replace (Datatypes.length (seg_value seg) <? 255)%nat with true
      by (symmetry; apply Nat.ltb_lt; assumption).
    simpl. rewrite Segment_prepend_spec by assumption. rewrite Ht. reflexivity.
  - intros [-> | (seg & rest & -> & [Ht | [Ht Hl]])]; unfold AsPath.prepend.
    + rewrite addSeg_spec. reflexivity.
    + rewrite Ht. simpl. rewrite addSeg_spec. reflexivity.
    + rewrite Ht. simpl. rewrite getCount_ge_255.
      replace (Datatypes.length (seg_value seg) <? 255)%nat with false
        by (symmetry; apply Nat.ltb_ge; assumption).
      simpl. rewrite addSeg_spec. reflexivity.
  - intros Hr. unfold stored_asn. split; [reflexivity|].
    rewrite Z.gtb_ltb. destruct (Z.ltb_spec 65535 asn) as [H|H].
    + replace (asn <=? 65535) with false by (symmetry; apply Z.leb_gt; lia).
      reflexivity.
    + replace (asn <=? 65535) with true by (symmetry; apply Z.leb_le; lia).
      unfold uint16. apply Z.mod_small. lia.
Qed.

Lemma AsPath_prepend_placement_witness :
  AsPath.prepend true [mkSeg true AS_SET [65001; 65002]] 65000
  = (true, [mkSeg true AS_SET [65001; 65002]; mkSeg true AS_SEQUENCE [65000]])
  /\ AsPath.prepend false [mkSeg false AS_SEQUENCE [65001]] 70000
     = (true, [mkSeg false AS_SEQUENCE [23456; 65001]]).
Proof.
  destruct (AsPath_prepend_placement true [mkSeg true AS_SET [65001; 65002]]
              65000) as (_ & Hend & _).
  destruct (AsPath_prepend_placement false [mkSeg false AS_SEQUENCE [65001]]
              70000) as (Hfront & _ & _).
  split.
  - apply Hend. right. eexists. eexists. split; [reflexivity|]. left.
    reflexivity.
  - apply (Hfront _ _ eq_refl eq_refl). simpl. lia.
Defined.

Lemma AsPath_prepend_front : forall is_4b seg rest,
  seg_type seg = AS_SEQUENCE ->
  (Datatypes.length (seg_value seg) < 255)%nat ->
  forall asn,
    AsPath.prepend is_4b (seg :: rest) asn
    = (true,
       mkSeg (seg_is_4b seg) AS_SEQUENCE
         (stored_asn (seg_is_4b seg) asn :: seg_value seg) :: rest).
Proof.
  intros is_4b seg rest Ht Hl asn.
  unfold AsPath.prepend. rewrite Ht. simpl. rewrite getCount_ge_255.
  replace (Datatypes.length (seg_value seg) <? 255)%nat with true
    by (symmetry; apply Nat.ltb_lt; assumption).
  simpl. rewrite Segment_prepend_spec by assumption. rewrite Ht. reflexivity.
Qed.

(** X12. [BgpUpdateMessage::prepend] refuses a message whose AS_PATH does
    not have the width of the message, and in 4-byte mode a message that
    carries an AS4_PATH: it returns false and leaves the message as it
    is. *)
Theorem prepend_refuses_width_mismatch : forall f m asn,
  (use_4b_asn m = true -> hasAttrib m AS4_PATH = true ->
   prepend f m asn = Some (false, m))
  /\ (forall path as_paths,
        getAttrib (path_attribute m) AS_PATH = Some path ->
        body path = BodyAsPath (negb (use_4b_asn m)) as_paths ->
        prepend f m asn = Some (false, m)).
Proof.
  intros f m asn. split.
  - intros Hu H4. unfold prepend, prepend_4b. rewrite Hu, H4. reflexivity.
  - intros path segs Hp Hb. unfold prepend.
    pose proof (getAttrib_hasAttrib _ _ _ Hp) as Hh.
    destruct (use_4b_asn m); simpl in Hb.
    + unfold prepend_4b. destruct (hasAttrib m AS4_PATH); [reflexivity|].
      unfold hasAttrib. rewrite Hh, Hp, Hb. reflexivity.
    + unfold prepend_2b, prepend_2b_path, hasAttrib.
      rewrite Hh, Hp, Hb. reflexivity.
Qed.

Lemma prepend_refuses_width_mismatch_witness :
  prepend As4Path_prepend_standin msg_as_trans 65000 = Some (false, msg_as_trans)
  /\ prepend As4Path_prepend_standin msg_65535 65000 = Some (false, msg_65535).
Proof.
  destruct (prepend_refuses_width_mismatch As4Path_prepend_standin msg_as_trans
              65000) as [H4 _].
  destruct (prepend_refuses_width_mismatch As4Path_prepend_standin msg_65535
              65000) as [_ Hw].
  split.
  - apply H4; reflexivity.
  - apply (Hw (as_path_attr true [mkSeg true AS_SEQUENCE [65535; 70000; 65000]])
             [mkSeg true AS_SEQUENCE [65535; 70000; 65000]]); reflexivity.
Defined.

Lemma prep_asn_spec : forall asn,
  0 <= asn ->
  uint16 (if asn >=? 65535 then 23456 else asn)
  = if asn <? 65535 then asn else AS_TRANS.
Proof. intros asn H. apply (downgrade_asn_spec asn H). Qed.

Lemma stored_asn_small : forall asn,
  0 <= asn -> stored_asn false (if asn <? 65535 then asn else AS_TRANS)
              = if asn <? 65535 then asn else AS_TRANS.
Proof.
  intros asn H. unfold stored_asn, AS_TRANS.
  destruct (Z.ltb_spec asn 65535).
  - replace (asn >? 65535) with false
      by (symmetry; rewrite Z.gtb_ltb; apply Z.ltb_ge; lia).
    unfold uint16. apply Z.mod_small. lia.
  - reflexivity.
Qed.

(** X13. On a message without AS4_PATH whose AS_PATH has the width of the
    message and starts with an AS_SEQUENCE of that width and of fewer than
    255 ASNs, [BgpUpdateMessage::prepend] returns true and changes the
    AS_PATH attribute only, putting one ASN in front of its first segment:
    the ASN itself in 4-byte mode; in 2-byte mode the ASN when it is below
    65535 and 23456 otherwise. *)
Theorem prepend_first_asn : forall f m asn path seg rest,
  0 <= asn ->
  hasAttrib m AS4_PATH = false ->
  getAttrib (path_attribute m) AS_PATH = Some path ->
  body path = BodyAsPath (use_4b_asn m) (seg :: rest) ->
  seg_is_4b seg = use_4b_asn m ->
  seg_type seg = AS_SEQUENCE ->
  (Datatypes.length (seg_value seg) < 255)%nat ->
  prepend f m asn
  = Some (true,
          set_attribs m
            (assign_first (path_attribute m) AS_PATH
               (BodyAsPath (use_4b_asn m)
                  (mkSeg (use_4b_asn m) AS_SEQUENCE
                     ((if use_4b_asn m then asn
                       else if asn <? 65535 then asn else AS_TRANS)
                      :: seg_value seg)
                   :: rest)))).
Proof.
  intros f m asn path seg rest H0 H4 Hp Hb Hw Ht Hl.
  pose proof (getAttrib_hasAttrib _ _ _ Hp) as Hh.
  pose proof (AsPath_prepend_front (use_4b_asn m) seg rest Ht Hl) as Hfront.
  unfold hasAttrib in H4.
  unfold prepend. destruct (use_4b_asn m) eqn:Hu.
  - unfold prepend_4b, hasAttrib. rewrite H4, Hh, Hp, Hb, Hu.
    cbn [negb]. rewrite Hfront, Hw. reflexivity.
  - unfold prepend_2b, prepend_2b_path, hasAttrib. rewrite Hh, Hp, Hb, Hu.
    cbn [negb]. rewrite prep_asn_spec by assumption. rewrite Hfront, Hw.
    rewrite stored_asn_small by assumption. cbn [path_attribute set_attribs].
    rewrite hasAttrib_list_assign_first, H4. reflexivity.
Qed.

Lemma prepend_first_asn_witness :
  prepend As4Path_prepend_standin msg_2b_session 65535
  = Some (true,
          mkMsg false []
            [origin_igp;
             as_path_attr false [mkSeg false AS_SEQUENCE [23456; 65001; 65000]];
             nexthop_10_0_0_1]
            [] no_error).
Proof.
  apply (prepend_first_asn As4Path_prepend_standin msg_2b_session 65535
           (as_path_attr false [mkSeg false AS_SEQUENCE [65001; 65000]])
           (mkSeg false AS_SEQUENCE [65001; 65000]) []);
    try reflexivity; simpl; lia.
Defined.

(** ** The attribute codec: headers and writers *)

Lemma uint8_idem : forall v, uint8 (uint8 v) = uint8 v.
Proof. intros v. unfold uint8. apply Z.mod_mod. lia. Qed.

Lemma uint8_small : forall v, 0 <= v < 256 -> uint8 v = v.
Proof. intros v H. unfold uint8. apply Z.mod_small. assumption. Qed.

Lemma get8_put8_same : forall p off v, get8 (put8 p off v) off = uint8 v.
Proof.
  intros p off v. unfold get8, put8. rewrite Z.eqb_refl. apply uint8_idem.
Qed.

Lemma get8_put8_other : forall p off v i,
  i <> off -> get8 (put8 p off v) i = get8 p i.
Proof.
  intros p off v i H. unfold get8, put8.
  replace (i =? off) with false by (symmetry; apply Z.eqb_neq; assumption).
  reflexivity.
Qed.

Lemma put8_other : forall p off v i, i <> off -> put8 p off v i = p i.
Proof.
  intros p off v i H. unfold put8.
  replace (i =? off) with false by (symmetry; apply Z.eqb_neq; assumption).
  reflexivity.
Qed.

Lemma put_bytes_outside : forall src p off j,
  j < off \/ off + Z.of_nat (Datatypes.length src) <= j ->
  put_bytes p off src j = p j.
Proof.
  induction src as [|b rest IH]; intros p off j H; simpl; [reflexivity|].
  simpl Datatypes.length in H. rewrite IH by lia. apply put8_other. lia.
Qed.

Lemma put_bytes_inside : forall src p off i,
  (i < Datatypes.length src)%nat ->
  get8 (put_bytes p off src) (off + Z.of_nat i) = uint8 (nth i src 0).
Proof.
  induction src as [|b rest IH]; intros p off i H; simpl in H; [lia|].
  destruct i as [|i]; simpl.
  - unfold get8. rewrite put_bytes_outside by lia.
    rewrite Z.add_0_r. fold (get8 (put8 p off b) off).
    apply get8_put8_same.
  - replace (off + Z.pos (Pos.of_succ_nat i)) with (off + 1 + Z.of_nat i) by lia.
    apply IH. lia.
Qed.

Lemma writeHeader_flags : forall a to,
  PathAttrib.writeHeader a to 2
  = (2, put8 (put8 to 0 (header_flags a)) 1 (type_code a)).
Proof.
  intros a to. unfold PathAttrib.writeHeader, header_flags.
  destruct (optional a), (transitive a), (partial a), (extened a);
    reflexivity.
Qed.

Lemma header_flags_bits : forall a,
  0 <= header_flags a < 256
  /\ Z.odd (Z.shiftr (header_flags a) 7) = optional a
  /\ Z.odd (Z.shiftr (header_flags a) 6) = transitive a
  /\ Z.odd (Z.shiftr (header_flags a) 5) = partial a
  /\ Z.odd (Z.shiftr (header_flags a) 4) = extened a.
Proof.
  intros a. unfold header_flags.
  destruct (optional a), (transitive a), (partial a), (extened a);
    simpl; repeat split; lia.
Qed.

(** X14. The header round trip.  After [writeHeader] and a length byte
    [len], [parseHeader] on a buffer of at least [len + 3] bytes returns 2
    and reads back the four flags, the type code and the length, leaving
    the error fields and the body of the parsing object as they were. *)
Theorem header_roundtrip : forall a a0 to len buffer_sz,
  0 <= type_code a < 256 ->
  0 <= len < 256 ->
  len + 3 <= buffer_sz ->
  fst (PathAttrib.writeHeader a to 2) = 2
  /\ PathAttrib.parseHeader a0
       (put8 (snd (PathAttrib.writeHeader a to 2)) 2 len) buffer_sz
     = (2, mkAttrib (optional a) (transitive a) (partial a) (extened a)
             (type_code a) len (attr_err a0) (body a0)).
Proof.
  intros a a0 to len sz Ht Hl Hsz. rewrite writeHeader_flags. simpl fst.
  split; [reflexivity|]. simpl snd. unfold PathAttrib.parseHeader.
  replace (sz <? 3) with false by (symmetry; apply Z.ltb_ge; lia).
  cbv zeta.
  rewrite get8_put8_same.
  rewrite (get8_put8_other _ 2 len 1) by lia. rewrite get8_put8_same.
  rewrite (get8_put8_other _ 2 len 0) by lia.
  rewrite (get8_put8_other _ 1 _ 0) by lia. rewrite get8_put8_same.
  destruct (header_flags_bits a) as (Hf & Ho & Htr & Hp & He).
  rewrite (uint8_small _ Hf), (uint8_small _ Ht), (uint8_small _ Hl).
  rewrite Ho, Htr, Hp, He. cbn [value_len].
  replace (len >? sz - 3) with false
    by (symmetry; rewrite Z.gtb_ltb; apply Z.ltb_ge; lia).
  reflexivity.
Qed.

Lemma header_roundtrip_witness :
  PathAttrib.parseHeader (PathAttrib.new_attrib (BodyUnknow []))
    (put8 (snd (PathAttrib.writeHeader unknown_200 zeroes 2)) 2 3) 6
  = (2, mkAttrib true true false false 200 3 no_error (BodyUnknow [])).
Proof.
  apply (header_roundtrip unknown_200 (PathAttrib.new_attrib (BodyUnknow []))
           zeroes 3 6); simpl; lia.
Defined.

(** X15. [BgpPathAttribUnknow::write] returns -1 and writes nothing when
    the buffer is shorter than [value_len + 3].  Otherwise it returns
    [value_len + 3] and the buffer holds the flags, the type code, the low
    byte of [value_len] and then the [value_len] value bytes; no byte
    outside these [value_len + 3] is written.  A [value_len] of 256 or more
    does not fit the length byte. *)
Theorem Unknow_write_layout : forall a value to buffer_sz,
  0 <= value_len a ->
  (buffer_sz < value_len a + 3 ->
   PathAttrib.Unknow_write a value to buffer_sz = (-1, to))
  /\ (value_len a + 3 <= buffer_sz ->
      let r := PathAttrib.Unknow_write a value to buffer_sz in
      fst r = value_len a + 3
      /\ get8 (snd r) 0 = header_flags a
      /\ get8 (snd r) 1 = uint8 (type_code a)
      /\ get8 (snd r) 2 = uint8 (value_len a)
      /\ (forall i, (i < Z.to_nat (value_len a))%nat ->
            get8 (snd r) (3 + Z.of_nat i) = uint8 (nth i value 0))
      /\ (forall j, j < 0 \/ value_len a + 3 <= j -> snd r j = to j)).
Proof.
  intros a value to sz Hv. split.
  - intros H. unfold PathAttrib.Unknow_write.
    replace (sz <? value_len a + 3) with true
      by (symmetry; apply Z.ltb_lt; assumption).
    reflexivity.
  - intros H. unfold PathAttrib.Unknow_write.
    replace (sz <? value_len a + 3) with false
      by (symmetry; apply Z.ltb_ge; assumption).
    rewrite writeHeader_flags. cbn [negb Z.eqb Pos.eqb]. cbv zeta.
    set (src := map (fun i => nth i value 0)
                  (seq 0 (Z.to_nat (value_len a)))).
    assert (Hlen : Datatypes.length src = Z.to_nat (value_len a)).
    { unfold src. rewrite length_map, length_seq. reflexivity. }
    set (hdr := put8 (put8 (put8 to 0 (header_flags a)) 1 (type_code a)) 2
                  (value_len a)).
    assert (Hto : (if value_len a >? 0 then put_bytes hdr 3 src else hdr)
                  = put_bytes hdr 3 src).
    { destruct (Z.gtb_spec (value_len a) 0); [reflexivity|].
      assert (value_len a = 0) by lia.
      unfold src. replace (Z.to_nat (value_len a)) with O by lia.
      reflexivity. }
    rewrite Hto. simpl fst. simpl snd.
    destruct (header_flags_bits a) as (Hf & _).
    assert (Hh : forall i, 0 <= i < 3 ->
                 get8 (put_bytes hdr 3 src) i = get8 hdr i).
    { intros i Hi. unfold get8. rewrite put_bytes_outside by lia.
      reflexivity. }
    split; [reflexivity|]. split; [|split; [|split; [|split]]].
    + rewrite Hh by lia. unfold hdr.
      rewrite !get8_put8_other by lia. rewrite get8_put8_same.
      apply uint8_small. assumption.
    + rewrite Hh by lia. unfold hdr.
      rewrite get8_put8_other by lia. apply get8_put8_same.
    + rewrite Hh by lia. unfold hdr. apply get8_put8_same.
    + intros i Hi. rewrite put_bytes_inside by lia.
      unfold src. rewrite (nth_indep _ 0 (nth 0 value 0))
        by (rewrite length_map, length_seq; assumption).
      rewrite (map_nth (fun i => nth i value 0)).
      rewrite seq_nth by assumption. reflexivity.
    + intros j Hj. rewrite put_bytes_outside by lia.
      unfold hdr. rewrite !put8_other by lia. reflexivity.
Qed.

Lemma Unknow_write_layout_witness :
  read_bytes (snd (PathAttrib.Unknow_write unknown_200 [1; 2; 3] zeroes 6)) 0 6
  = [192; 200; 3; 1; 2; 3]
  /\ fst (PathAttrib.Unknow_write unknown_200 [1; 2; 3] zeroes 6) = 6.
Proof.
  destruct (Unknow_write_layout unknown_200 [1; 2; 3] zeroes 6)
    as [_ H]; [simpl; lia|].
  destruct H as (Hr & _); [simpl; lia|].
  split; [reflexivity | exact Hr].
Defined.

(** X16. [BgpPathAttribOrigin::write] returns -1 and writes nothing when
    the buffer is shorter than 3 bytes.  Otherwise it returns 4 and
    writes four bytes, the flags, the type code, the length 1 and the
    origin, and no other byte: with a buffer of exactly 3 bytes the origin
    is stored one byte past the end of the buffer. *)
Theorem Origin_write_layout : forall a origin to buffer_sz,
  (buffer_sz < 3 -> PathAttrib.Origin_write a origin to buffer_sz = (-1, to))
  /\ (3 <= buffer_sz ->
      let r := PathAttrib.Origin_write a origin to buffer_sz in
      fst r = 4
      /\ read_bytes (snd r) 0 4
         = [header_flags a; uint8 (type_code a); 1; uint8 origin]
      /\ (forall j, j < 0 \/ 4 <= j -> snd r j = to j)).
Proof.
  intros a origin to sz. split.
  - intros H. unfold PathAttrib.Origin_write.
    replace (sz <? 3) with true by (symmetry; apply Z.ltb_lt; assumption).
    reflexivity.
  - intros H. unfold PathAttrib.Origin_write.
    replace (sz <? 3) with false by (symmetry; apply Z.ltb_ge; assumption).
    rewrite writeHeader_flags. cbn [negb Z.eqb Pos.eqb]. cbv zeta.
    simpl fst. simpl snd.
    destruct (header_flags_bits a) as (Hf & _).
    split; [reflexivity|]. split.
    + unfold read_bytes. simpl.
      rewrite !get8_put8_same.
      rewrite (get8_put8_other _ 3 _ 2) by lia. rewrite get8_put8_same.
      rewrite (get8_put8_other _ 3 _ 1), (get8_put8_other _ 2 _ 1) by lia.
      rewrite get8_put8_same.
      rewrite (get8_put8_other _ 3 _ 0), (get8_put8_other _ 2 _ 0),
        (get8_put8_other _ 1 _ 0) by lia.
      rewrite get8_put8_same.
      rewrite (uint8_small _ Hf). reflexivity.
    + intros j Hj. rewrite !put8_other by lia. reflexivity.
Qed.

Lemma Origin_write_layout_witness :
  let r := PathAttrib.Origin_write origin_igp 2 zeroes 3 in
  fst r = 4 /\ read_bytes (snd r) 0 4 = [64; 1; 1; 2].
Proof.
  destruct (Origin_write_layout origin_igp 2 zeroes 3) as [_ H].
  destruct H as (Hr & Hb & _); [lia|].
  split; [exact Hr | exact Hb].
Defined.

(** ** The attribute parsers of part_000 *)

Lemma parseHeader_cases : forall a from length,
  let short := (length <? 3) || (get8 from 2 >? length - 3) in
  fst (PathAttrib.parseHeader a from length) = (if short then -1 else 2)
  /\ body (snd (PathAttrib.parseHeader a from length)) = body a
  /\ attr_err (snd (PathAttrib.parseHeader a from length))
     = if short then mkError E_UPDATE E_UNSPEC_UPDATE (err_buf (attr_err a))
       else attr_err a.
Proof.
  intros a from len. unfold PathAttrib.parseHeader.
  destruct (len <? 3); simpl; [auto|].
  destruct (get8 from 2 >? len - 3); simpl; auto.
Qed.

(** X17. The parsers of part_000 compare the result of [parseHeader], which
    is 2 or -1, with 3: [BgpPathAttribUnknow::parse],
    [BgpPathAttribAsPath::parse] and [BgpPathAttribOrigin::parse] return -1
    on every buffer and read no value.  They record E_UPDATE with subcode 0
    when the buffer is shorter than 3 bytes or than the declared length,
    and leave the error fields as they were otherwise. *)
Theorem part000_parsers_fail : forall a is_4b segs from length,
  let short := (length <? 3) || (get8 from 2 >? length - 3) in
  let err := if short
             then mkError E_UPDATE E_UNSPEC_UPDATE (err_buf (attr_err a))
             else attr_err a in
  (fst (PathAttrib.Unknow_parse a from length) = -1
   /\ body (snd (PathAttrib.Unknow_parse a from length)) = body a
   /\ attr_err (snd (PathAttrib.Unknow_parse a from length)) = err)
  /\ (fst (PathAttrib.AsPath_parse a is_4b segs from length) = -1
      /\ body (snd (PathAttrib.AsPath_parse a is_4b segs from length)) = body a
      /\ attr_err (snd (PathAttrib.AsPath_parse a is_4b segs from length)) = err)
  /\ (fst (PathAttrib.Origin_parse a from length) = -1
      /\ body (snd (PathAttrib.Origin_parse a from length)) = body a
      /\ attr_err (snd (PathAttrib.Origin_parse a from length)) = err).
Proof.
  intros a is_4b segs from len short err.
  destruct (parseHeader_cases a from len) as (Hr & Hb & He).
  fold short in Hr, He. fold err in He.
  assert (Hne : (fst (PathAttrib.parseHeader a from len) =? 3) = false)
    by (rewrite Hr; destruct short; reflexivity).
  unfold PathAttrib.Unknow_parse, PathAttrib.AsPath_parse,
    PathAttrib.Origin_parse.
  destruct (PathAttrib.parseHeader a from len) as [r a1].
  simpl in Hr, Hb, He, Hne. rewrite Hne. simpl. auto 10.
Qed.

(** X18. [parse] reads the type code of an attribute as an [int8_t]: on
    an UPDATE without withdrawn routes whose first attribute has a type
    code of 128 or above it returns -1 with E_UPDATE and subcode 0, before
    any attribute parser is called. *)
Theorem parse_rejects_high_type_code : forall parse_missing fuel u from msg_sz,
  get16_net from 0 = 0 ->
  3 <= get16_net from 2 ->
  get16_net from 2 + 4 <= msg_sz ->
  128 <= get8 from 5 ->
  parse parse_missing (S fuel) (new_msg u) from msg_sz
  = Some (-1, setError (new_msg u) E_UPDATE E_UNSPEC []).
Proof.
  intros pm fuel u from sz Hw Ha Hsz Ht. unfold parse.
  replace (sz <? 4) with false by (symmetry; apply Z.ltb_ge; lia).
  cbv zeta. rewrite Hw.
  replace (0 >? sz - 4) with false
    by (symmetry; rewrite Z.gtb_ltb; apply Z.ltb_ge; lia).
  simpl parse_routes. cbn [negb Z.eqb].
  change (2 + 2) with 4. 
  replace (get16_net from 2 + 0 + 4 >? sz) with false
    by (symmetry; rewrite Z.gtb_ltb; apply Z.ltb_ge; lia).
  cbn [parse_attribs].
  replace (0 <? get16_net from 2) with true by (symmetry; apply Z.ltb_lt; lia).
  cbn [negb].
  replace (get16_net from 2 - 0 <? 3) with false
    by (symmetry; apply Z.ltb_ge; lia).
  unfold PathAttrib.getType.
  replace (get16_net from 2 - 0 <? 3) with false
    by (symmetry; apply Z.ltb_ge; lia).
  assert (Hg : get8 (shift from 4) 1 = get8 from 5) by reflexivity.
  rewrite Hg.
  assert (Hneg : (int8 (get8 from 5) <? 0) = true).
  { assert (Hr : 0 <= get8 from 5 < 256)
      by (unfold get8, uint8; apply Z.mod_pos_bound; lia).
    unfold int8. rewrite (uint8_small _ Hr).
    replace (128 <=? get8 from 5) with true
      by (symmetry; apply Z.leb_le; assumption).
    apply Z.ltb_lt. lia. }
  rewrite Hneg. reflexivity.
Qed.

Lemma parse_rejects_high_type_code_witness :
  parse tlv_parse 8 (new_msg true) (mem_of_list high_type_bytes) 8
  = Some (-1, setError (new_msg true) E_UPDATE E_UNSPEC []).
Proof.
  apply (parse_rejects_high_type_code tlv_parse 7%nat true
           (mem_of_list high_type_bytes) 8);
    vm_compute; congruence.
Defined.

(** ** Routes on the wire *)

Lemma length_le_bytes : forall n v, Datatypes.length (le_bytes n v) = n.
Proof. induction n as [|n IH]; intros v; simpl; [reflexivity|]. rewrite IH. reflexivity. Qed.

Lemma le_bytes_value : forall n v,
  0 <= v ->
  fold_right (fun b acc => b + 256 * acc) 0 (le_bytes n v)
  = v mod 256 ^ Z.of_nat n.
Proof.
  induction n as [|n IH]; intros v Hv.
  - simpl. rewrite Z.mod_1_r. reflexivity.
  - cbn [le_bytes fold_right]. rewrite IH by (apply Z.div_pos; lia).
    rewrite Nat2Z.inj_succ, Z.pow_succ_r by lia.
    rewrite Z.rem_mul_r by (try lia; apply Z.pow_pos_nonneg; lia).
    reflexivity.
Qed.

Lemma le_bytes_range : forall n v i,
  (i < n)%nat -> 0 <= nth i (le_bytes n v) 0 < 256.
Proof.
  induction n as [|n IH]; intros v i H; [lia|].
  destruct i as [|i]; simpl.
  - apply Z.mod_pos_bound. lia.
  - apply IH. lia.
Qed.

Lemma holds_cons : forall from off b bytes,
  holds from off (b :: bytes) ->
  get8 from off = b /\ holds from (off + 1) bytes.
Proof.
  intros from off b bytes H. split.
  - specialize (H O). simpl in H. rewrite Z.add_0_r in H. apply H. lia.
  - intros i Hi. specialize (H (S i)). simpl in H.
    replace (off + 1 + Z.of_nat i) with (off + Z.pos (Pos.of_succ_nat i)) by lia.
    apply H. lia.
Qed.

Lemma holds_app : forall from off l1 l2,
  holds from off (l1 ++ l2) ->
  holds from off l1 /\ holds from (off + Z.of_nat (Datatypes.length l1)) l2.
Proof.
  intros from off l1 l2 H. split.
  - intros i Hi. rewrite (H i) by (rewrite length_app; lia).
    apply app_nth1. assumption.
  - intros i Hi.
    replace (off + Z.of_nat (Datatypes.length l1) + Z.of_nat i)
      with (off + Z.of_nat (Datatypes.length l1 + i)) by lia.
    rewrite (H (Datatypes.length l1 + i)%nat) by (rewrite length_app; lia).
    rewrite app_nth2 by lia. f_equal. lia.
Qed.

Lemma read_bytes_holds : forall bytes from off,
  holds from off bytes ->
  read_bytes from off (Z.of_nat (Datatypes.length bytes)) = bytes.
Proof.
  intros bytes from off H. unfold read_bytes. rewrite Nat2Z.id.
  apply (nth_ext _ _ 0 0).
  - rewrite length_map, length_seq. reflexivity.
  - intros i Hi. rewrite length_map, length_seq in Hi.
    rewrite (nth_indep _ 0 (get8 from (off + Z.of_nat 0)))
      by (rewrite length_map, length_seq; assumption).
    rewrite (map_nth (fun i => get8 from (off + Z.of_nat i))).
    rewrite seq_nth by assumption. simpl. apply H. assumption.
Qed.

Lemma prefix_bytes_count : forall len,
  0 <= len <= 32 -> 0 <= (len + 7) / 8 <= 4.
Proof.
  intros len H. split.
  - apply Z.div_pos; lia.
  - assert ((len + 7) / 8 < 5) by (apply Z.div_lt_upper_bound; lia). lia.
Qed.

Lemma length_wire_routes_ge : forall rs,
  (Datatypes.length rs <= Datatypes.length (wire_routes rs))%nat.
Proof.
  induction rs as [|r rs IH]; simpl; [lia|].
  rewrite length_app. simpl. lia.
Qed.

(** The loop over the routes reads a list of routes in wire form back. *)
Lemma parse_routes_wire : forall rs fuel from buffer parsed_len routes,
  Forall wire_ok rs ->
  holds from buffer (wire_routes rs) ->
  (Datatypes.length rs <= fuel)%nat ->
  parse_routes fuel from buffer parsed_len
    (parsed_len + Z.of_nat (Datatypes.length (wire_routes rs))) routes
  = RDone (routes ++ rs)
      (buffer + Z.of_nat (Datatypes.length (wire_routes rs)))
      (parsed_len + Z.of_nat (Datatypes.length (wire_routes rs))).
Proof.
  induction rs as [|r rs IH]; intros fuel from buffer parsed acc Hok Hh Hf.
  - simpl. rewrite !Z.add_0_r, app_nil_r.
    destruct fuel; simpl; rewrite Z.ltb_irrefl; reflexivity.
  - inversion Hok as [|? ? [Hlen Hpfx] Hok']; subst.
    destruct fuel as [|fuel]; [simpl in Hf; lia|].
    simpl wire_routes in *. unfold wire_route in Hh.
    set (n := (route_length r + 7) / 8) in *.
    pose proof (prefix_bytes_count _ Hlen) as Hn. fold n in Hn.
    set (pb := le_bytes (Z.to_nat n) (route_prefix r)) in *.
    assert (Hpb : Z.of_nat (Datatypes.length pb) = n)
      by (unfold pb; rewrite length_le_bytes; lia).
    simpl in Hh. apply holds_cons in Hh. destruct Hh as [Hb0 Hh].
    apply holds_app in Hh. destruct Hh as [Hh1 Hh2].
    set (L := Datatypes.length (wire_routes rs)) in *.
    assert (HL : Z.of_nat (Datatypes.length
                             (route_length r :: pb ++ wire_routes rs))
                 = 1 + n + Z.of_nat L).
    { simpl Datatypes.length. rewrite length_app. fold L. lia. }
    rewrite HL. cbn [parse_routes].
    replace (parsed <? parsed + (1 + n + Z.of_nat L)) with true
      by (symmetry; apply Z.ltb_lt; lia).
    cbn [negb].
    replace (parsed + (1 + n + Z.of_nat L) - parsed <? 1) with false
      by (symmetry; apply Z.ltb_ge; lia).
    rewrite Hb0.
    replace (route_length r >? 32) with false
      by (symmetry; rewrite Z.gtb_ltb; apply Z.ltb_ge; lia).
    cbv zeta. fold n.
    replace (parsed + 1 + n >? parsed + (1 + n + Z.of_nat L)) with false
      by (symmetry; rewrite Z.gtb_ltb; apply Z.ltb_ge; lia).
    assert (Hpre : read_prefix from (buffer + 1) n = route_prefix r).
    { unfold read_prefix. rewrite <- Hpb. rewrite (read_bytes_holds _ _ _ Hh1).
      unfold pb. rewrite le_bytes_value by lia.
      rewrite Z2Nat.id by lia. apply Z.mod_small. assumption. }
    rewrite Hpre.
    replace (mkRoute (route_prefix r) (route_length r)) with r
      by (destruct r; reflexivity).
    replace (parsed + (1 + n + Z.of_nat L))
      with (parsed + 1 + n + Z.of_nat L) by lia.
    rewrite Hpb in Hh2.
    assert (Hfuel : (Datatypes.length rs <= fuel)%nat) by (simpl in Hf; lia).
    rewrite (IH fuel from (buffer + 1 + n) (parsed + 1 + n) (acc ++ [r])
               Hok' Hh2 Hfuel).
    rewrite <- app_assoc. cbn [app]. f_equal; lia.
Qed.

(** X19. The loop of [parse] over withdrawn routes and NLRI decodes the
    wire form: on a buffer that holds, for each route of a list, the
    length byte (at most 32) and the [(length + 7) / 8] prefix bytes, it
    ends normally with exactly these routes, each prefix read from its
    bytes in memory order, and with the position just past them. *)
Theorem parse_routes_decodes : forall rs from buffer,
  Forall wire_ok rs ->
  holds from buffer (wire_routes rs) ->
  let len := Z.of_nat (Datatypes.length (wire_routes rs)) in
  parse_routes (Z.to_nat len) from buffer 0 len [] = RDone rs (buffer + len) len.
Proof.
  intros rs from buffer Hok Hh len.
  pose proof (parse_routes_wire rs (Z.to_nat len) from buffer 0 [] Hok Hh) as H.
  cbn [app] in H. rewrite Z.add_0_l in H. apply H. unfold len. rewrite Nat2Z.id.
  apply length_wire_routes_ge.
Qed.

Lemma parse_routes_decodes_witness :
  parse_routes 5 (mem_of_list withdrawal_bytes) 2 0 5 []
  = RDone [route_10_8; route_192_168_16] 7 5.
Proof.
  apply (parse_routes_decodes [route_10_8; route_192_168_16]
           (mem_of_list withdrawal_bytes) 2).
  - repeat constructor; simpl; lia.
  - intros i Hi. simpl in Hi.
    do 5 (destruct i as [|i]; [reflexivity|]). lia.
Defined.

(** X20. [parse] asks every UPDATE for ORIGIN, AS_PATH and NEXT_HOP: an
    UPDATE that only withdraws routes, with an empty attribute list, is
    rejected with E_UPDATE and E_MISS_WELL_KNOWN, after its withdrawn
    routes have been stored in the message. *)
Theorem parse_rejects_pure_withdrawal : forall parse_missing fuel u from
    msg_sz rs,
  Forall wire_ok rs ->
  let len := Z.of_nat (Datatypes.length (wire_routes rs)) in
  get16_net from 0 = len ->
  holds from 2 (wire_routes rs) ->
  get16_net from (2 + len) = 0 ->
  len + 4 <= msg_sz ->
  parse parse_missing fuel (new_msg u) from msg_sz
  = Some (-1,
          setError (set_withdrawn (new_msg u) rs) E_UPDATE E_MISS_WELL_KNOWN []).
Proof.
  intros pm fuel u from sz rs Hok len Hw Hh Ha Hsz. unfold parse.
  assert (Hlen : 0 <= len) by (unfold len; lia).
  replace (sz <? 4) with false by (symmetry; apply Z.ltb_ge; lia).
  cbv zeta. rewrite Hw.
  replace (len >? sz - 4) with false
    by (symmetry; rewrite Z.gtb_ltb; apply Z.ltb_ge; lia).
  pose proof (parse_routes_wire rs (Z.to_nat len) from 2 0 [] Hok Hh) as Hr.
  cbn [app] in Hr. rewrite Z.add_0_l in Hr. fold len in Hr.
  cbn [withdrawn_routes new_msg].
  rewrite Hr by (unfold len; rewrite Nat2Z.id; apply length_wire_routes_ge).
  cbv beta iota zeta. rewrite Z.eqb_refl. cbn [negb].
  rewrite Ha.
  replace (0 + len + 4 >? sz) with false
    by (symmetry; rewrite Z.gtb_ltb; apply Z.ltb_ge; lia).
  assert (Hpa : parse_attribs pm fuel (set_withdrawn (new_msg u) rs) from
                  (2 + len + 2) 0 0
                = ADone (set_withdrawn (new_msg u) rs) (2 + len + 2) 0)
    by (destruct fuel; reflexivity).
  rewrite Hpa. rewrite validateAttribs_mandatory_only. reflexivity.
Qed.

Lemma parse_rejects_pure_withdrawal_witness :
  parse tlv_parse 4 (new_msg true) (mem_of_list withdrawal_bytes) 9
  = Some (-1,
          setError (set_withdrawn (new_msg true) [route_10_8; route_192_168_16])
            E_UPDATE E_MISS_WELL_KNOWN []).
Proof.
  apply (parse_rejects_pure_withdrawal tlv_parse 4%nat true
           (mem_of_list withdrawal_bytes) 9 [route_10_8; route_192_168_16]).
  - repeat constructor; simpl; lia.
  - reflexivity.
  - intros i Hi. simpl in Hi.
    do 5 (destruct i as [|i]; [reflexivity|]). lia.
  - reflexivity.
  - simpl. lia.
Defined.

(** ** The size write reports *)

Lemma routes_size_nonneg : forall rs, 0 <= routes_size rs.
Proof.
  induction rs as [|r rs IH]; cbn [routes_size]; [lia|].
  assert (0 <= uint8 (route_length r))
    by (unfold uint8; apply Z.mod_pos_bound; lia).
  assert (0 <= (uint8 (route_length r) + 7) / 8) by (apply Z.div_pos; lia).
  lia.
Qed.

Lemma write_routes_fits : forall stack_byte rs to buffer written_len
    tot_written buf_sz,
  written_len + routes_size rs + tot_written <= buf_sz ->
  exists to',
    write_routes stack_byte rs to buffer written_len tot_written buf_sz
    = (true, to', buffer + routes_size rs, written_len + routes_size rs).
Proof.
  intros sb. induction rs as [|r rs IH]; intros to buffer wl tot sz H.
  - cbn [write_routes routes_size]. exists to. rewrite !Z.add_0_r.
    reflexivity.
  - cbn [write_routes routes_size] in *.
    pose proof (routes_size_nonneg rs) as Hnn.
    set (n := (uint8 (route_length r) + 7) / 8) in *.
    replace (1 + wl + n + tot >? sz) with false
      by (symmetry; rewrite Z.gtb_ltb; apply Z.ltb_ge; lia).
    match goal with
    | |- context [write_routes sb rs ?t ?b ?w tot sz] =>
        destruct (IH t b w tot sz) as (to' & E); [lia|]
    end.
    exists to'. rewrite E. f_equal; [f_equal|]; lia.
Qed.

Lemma write_routes_too_big : forall stack_byte rs to buffer written_len
    tot_written buf_sz,
  buf_sz < written_len + routes_size rs + tot_written ->
  0 <= written_len + tot_written <= buf_sz ->
  exists to' buffer' written',
    write_routes stack_byte rs to buffer written_len tot_written buf_sz
    = (false, to', buffer', written').
Proof.
  intros sb. induction rs as [|r rs IH]; intros to buffer wl tot sz H H0.
  - cbn [routes_size] in H. lia.
  - cbn [write_routes routes_size] in *.
    pose proof (routes_size_nonneg rs) as Hnn.
    set (n := (uint8 (route_length r) + 7) / 8) in *.
    destruct (Z.gtb_spec (1 + wl + n + tot) sz) as [Hgt|Hle].
    + eexists. eexists. eexists. reflexivity.
    + assert (0 <= n).
      { unfold n. apply Z.div_pos; [|lia].
        assert (0 <= uint8 (route_length r))
          by (unfold uint8; apply Z.mod_pos_bound; lia).
        lia. }
      apply IH; lia.
Qed.

(** X21. For a message without attributes and without NLRI, [write] tests
    the withdrawn routes against [buf_sz] without counting the two length
    fields: it succeeds exactly when the routes alone fit, and then returns
    their size plus 4, which exceeds [buf_sz] when fewer than 4 bytes are
    left. *)
Theorem write_reports_more_than_buffer : forall stack_byte write_missing m to
    buf_sz,
  path_attribute m = [] ->
  nlri m = [] ->
  4 <= buf_sz ->
  (routes_size (withdrawn_routes m) <= buf_sz ->
   exists to',
     write stack_byte write_missing m to buf_sz
     = Some (routes_size (withdrawn_routes m) + 4, to'))
  /\ (buf_sz < routes_size (withdrawn_routes m) ->
      exists to',
        write stack_byte write_missing m to buf_sz = Some (-1, to')).
Proof.
  intros sb wm m to sz Ha Hn Hsz. unfold write.
  replace (sz <? 4) with false by (symmetry; apply Z.ltb_ge; lia).
  rewrite Ha, Hn. cbv zeta. split.
  - intros H.
    destruct (write_routes_fits sb (withdrawn_routes m) to 1 0 0 sz)
      as (to' & E); [lia|].
    rewrite E. cbn [write_attribs write_routes]. eexists. f_equal. f_equal.
    lia.
  - intros H.
    destruct (write_routes_too_big sb (withdrawn_routes m) to 1 0 0 sz)
      as (to' & b' & w' & E); [lia | lia |].
    rewrite E. eexists. reflexivity.
Qed.

Lemma write_reports_more_than_buffer_witness :
  exists to',
    write zeroes tlv_write
      (mkMsg true [route_10_8; route_192_168_16] [] [] no_error) zeroes 5
    = Some (9, to').
Proof.
  destruct (write_reports_more_than_buffer zeroes tlv_write
              (mkMsg true [route_10_8; route_192_168_16] [] [] no_error)
              zeroes 5 eq_refl eq_refl) as [H _]; [lia|].
  apply H. vm_compute. discriminate.
Defined.

(** ** The IPv6 RIB: inserts, withdraws and discard *)

Lemma unique_entries_NoDup : forall l,
  unique_entries l -> NoDup (map entry_key l).
Proof.
  induction l as [|x l IH]; intros Hu; simpl; [constructor|].
  destruct Hu as [Hx Hl]. constructor; [|auto].
  intros Hin. apply in_map_iff in Hin. destruct Hin as (e' & Hk & Hin).
  specialize (Hx e' Hin).
  assert (Hm : Rib6.matches (Rib6.src_router_id x) (Rib6.route x) e' = true).
  { apply matches_iff. unfold entry_key in Hk. inversion Hk. auto. }
  congruence.
Qed.

(** X23. Every RIB that the operations build from a new RIB holds at most
    one entry per source and route: the pairs of source and route of its
    entries are distinct. *)
Theorem rib_keys_distinct : forall gt t,
  Rib6.reachable gt t -> NoDup (map entry_key (Rib6.rib t)).
Proof.
  intros gt t H. apply unique_entries_NoDup.
  apply (reachable_unique gt). assumption.
Qed.

Lemma rib_keys_distinct_witness :
  NoDup (map entry_key
           (Rib6.rib
              (Rib6.mkRib
                 [Rib6.mkEntry prefix_2001_db8_32 1 global_2001_db8_1
                    linklocal_fe80_1 [] 0 0] 1))).
Proof.
  apply (rib_keys_distinct heavier).
  apply (Rib6.reach_run heavier
           (Rib6.OpInsertPeer 1 prefix_2001_db8_32 (Some global_2001_db8_1)
              (Some linklocal_fe80_1) [] 0) Rib6.new_rib).
  - apply Rib6.reach_new.
  - reflexivity.
Defined.

Lemma insertPriv_loop_no_match : forall gt ne l,
  (forall e, In e l ->
     Rib6.matches (Rib6.src_router_id ne) (Rib6.route ne) e = false) ->
  Rib6.insertPriv_loop gt ne l = None.
Proof.
  intros gt ne. induction l as [|x l IH]; intros H; simpl; [reflexivity|].
  rewrite (H x) by (now left). rewrite IH; [reflexivity|].
  intros e He. apply H. now right.
Qed.

Lemma withdraw_loop_snoc : forall src r l e,
  (forall e', In e' l -> Rib6.matches src r e' = false) ->
  Rib6.matches src r e = true ->
  Rib6.withdraw_loop src r (l ++ [e]) = (true, l).
Proof.
  intros src r. induction l as [|x l IH]; intros e Hn He; simpl.
  - rewrite He. reflexivity.
  - rewrite (Hn x) by (now left).
    rewrite IH; [reflexivity | | assumption].
    intros e' H'. apply Hn. now right.
Qed.

Lemma matches_refl : forall e,
  Rib6.matches (Rib6.src_router_id e) (Rib6.route e) e = true.
Proof. intros e. apply matches_iff. auto. Qed.

(** X24. Insert and withdraw undo each other.  When the RIB has no entry
    for the source and the route, the peer insert of the route returns
    true, and a withdraw of the source and the route then returns true and
    leaves the entries of the RIB exactly as they were before the insert;
    only [update_id] has moved on by one. *)
Theorem insert_then_withdraw : forall gt t src r g l a w,
  (forall e, In e (Rib6.rib t) -> Rib6.matches src r e = false) ->
  exists t1,
    Rib6.insert_peer gt t src r (Some g) l a w = Some (true, t1)
    /\ Rib6.rib t1
       = Rib6.rib t
         ++ [Rib6.mkEntry r src g (linklocal_of l) a w (Rib6.update_id t)]
    /\ Rib6.withdraw t1 src r
       = (true, Rib6.mkRib (Rib6.rib t) (uint64 (Rib6.update_id t + 1))).
Proof.
  intros gt t src r g l a w Hn.
  set (ne := Rib6.mkEntry r src g (linklocal_of l) a w (Rib6.update_id t)).
  assert (Hp : Rib6.insertPriv gt t src r (Some g) l a w
               = Some (true, Rib6.mkRib (Rib6.rib t ++ [ne]) (Rib6.update_id t))).
  { unfold Rib6.insertPriv, Rib6.new_BgpRib6Entry. fold (linklocal_of l).
    fold ne. rewrite insertPriv_loop_no_match; [reflexivity|]. exact Hn. }
  exists (Rib6.mkRib (Rib6.rib t ++ [ne]) (uint64 (Rib6.update_id t + 1))).
  split; [|split].
  - unfold Rib6.insert_peer. rewrite Hp. reflexivity.
  - reflexivity.
  - unfold Rib6.withdraw. simpl.
    rewrite (withdraw_loop_snoc src r (Rib6.rib t) ne Hn); [reflexivity|].
    apply (matches_refl ne).
Qed.

Lemma insert_then_withdraw_witness :
  exists t1,
    Rib6.insert_peer heavier Rib6.new_rib 1 prefix_2001_db8_32
      (Some global_2001_db8_1) None [] 5 = Some (true, t1)
    /\ Rib6.withdraw t1 1 prefix_2001_db8_32 = (true, Rib6.mkRib [] 1).
Proof.
  destruct (insert_then_withdraw heavier Rib6.new_rib 1 prefix_2001_db8_32
              global_2001_db8_1 None [] 5) as (t1 & Hi & _ & Hw).
  - intros e [].
  - exists t1. split; [exact Hi | exact Hw].
Defined.

Lemma insertPriv_loop_first : forall gt ne l1 e l2,
  (forall e', In e' l1 ->
     Rib6.matches (Rib6.src_router_id ne) (Rib6.route ne) e' = false) ->
  Rib6.matches (Rib6.src_router_id ne) (Rib6.route ne) e = true ->
  Rib6.insertPriv_loop gt ne (l1 ++ e :: l2)
  = if gt ne e then Some (true, l1 ++ l2 ++ [ne])
    else Some (false, l1 ++ e :: l2).
Proof.
  intros gt ne. induction l1 as [|x l1 IH]; intros e l2 Hn He; simpl.
  - rewrite He. destruct (gt ne e); reflexivity.
  - rewrite (Hn x) by (now left).
    rewrite IH; [|intros e' H'; apply Hn; now right | assumption].
    destruct (gt ne e); reflexivity.
Qed.

(** X25. The peer insert of a route for which the source already has an
    entry replaces that entry exactly when the new entry is greater: then
    it returns true, the old entry is erased, the new one is the last
    entry and [update_id] moves on by one.  Otherwise it returns false and
    the RIB, [update_id] included, is as it was. *)
Theorem insert_peer_replaces_if_greater : forall gt t src r g l a w l1 e l2,
  Rib6.rib t = l1 ++ e :: l2 ->
  (forall e', In e' l1 -> Rib6.matches src r e' = false) ->
  Rib6.matches src r e = true ->
  let new_entry :=
    Rib6.mkEntry r src g (linklocal_of l) a w (Rib6.update_id t) in
  Rib6.insert_peer gt t src r (Some g) l a w
  = if gt new_entry e
    then Some (true,
               Rib6.mkRib (l1 ++ l2 ++ [new_entry])
                 (uint64 (Rib6.update_id t + 1)))
    else Some (false, t).
Proof.
  intros gt t src r g l a w l1 e l2 Hl Hn He ne.
  unfold Rib6.insert_peer, Rib6.insertPriv, Rib6.new_BgpRib6Entry.
  fold (linklocal_of l). fold ne. rewrite Hl.
  rewrite (insertPriv_loop_first gt ne l1 e l2 Hn He).
  destruct (gt ne e); [reflexivity|].
  simpl. rewrite <- Hl. destruct t; reflexivity.
Qed.

Lemma insert_peer_replaces_if_greater_witness :
  Rib6.insert_peer heavier
    (Rib6.mkRib
       [Rib6.mkEntry prefix_2001_db8_32 1 global_2001_db8_1 linklocal_fe80_1
          [] 5 0] 1)
    1 prefix_2001_db8_32 (Some global_2001_db8_1) (Some linklocal_fe80_1) [] 9
  = Some (true,
          Rib6.mkRib
            [Rib6.mkEntry prefix_2001_db8_32 1 global_2001_db8_1
               linklocal_fe80_1 [] 9 1] 2).
Proof.
  apply (insert_peer_replaces_if_greater heavier
           (Rib6.mkRib
              [Rib6.mkEntry prefix_2001_db8_32 1 global_2001_db8_1
                 linklocal_fe80_1 [] 5 0] 1)
           1 prefix_2001_db8_32 global_2001_db8_1 (Some linklocal_fe80_1) [] 9
           []
           (Rib6.mkEntry prefix_2001_db8_32 1 global_2001_db8_1
              linklocal_fe80_1 [] 5 0) []).
  - reflexivity.
  - intros e' [].
  - reflexivity.
Defined.

Lemma find_app_first : forall (A : Type) (f : A -> bool) l1 l2,
  find f (l1 ++ l2)
  = match find f l1 with Some y => Some y | None => find f l2 end.
Proof.
  intros A f. induction l1 as [|x l1 IH]; intros l2; simpl; [reflexivity|].
  destruct (f x); [reflexivity | apply IH].
Qed.

Lemma local_group_spec : forall ne entries u,
  Rib6.local_group ne u entries
  = if Rib6.local_exists entries (Rib6.route ne) then None
    else Some (match find (same_nexthops (Rib6.nexthop_global ne)
                             (Rib6.nexthop_linklocal ne)) (rev entries) with
               | Some e' => Rib6.entry_update_id e'
               | None => u
               end).
Proof.
  intros ne. induction entries as [|x rest IH]; intros u; [reflexivity|].
  cbn [Rib6.local_group Rib6.local_exists existsb rev].
  destruct ((Rib6.src_router_id x =? 0)
            && Rib6.Prefix6_eqb (Rib6.route x) (Rib6.route ne)) eqn:E;
    [reflexivity|].
  cbn [orb]. fold (Rib6.local_exists rest (Rib6.route ne)).
  rewrite find_app_first. cbn [find].
  change ((Rib6.src_router_id x =? 0)
          && Rib6.bytes_eqb (Rib6.nexthop_global ne) (Rib6.nexthop_global x)
          && Rib6.bytes_eqb (Rib6.nexthop_linklocal ne)
               (Rib6.nexthop_linklocal x))
    with (same_nexthops (Rib6.nexthop_global ne) (Rib6.nexthop_linklocal ne) x).
  destruct (same_nexthops (Rib6.nexthop_global ne)
              (Rib6.nexthop_linklocal ne) x);
    rewrite IH; destruct (Rib6.local_exists rest (Rib6.route ne));
    try reflexivity;
    destruct (find _ (rev rest)); reflexivity.
Qed.

(** X26. The local insert of one route returns [NULL] and leaves the RIB
    as it is when a local entry of the route exists.  Otherwise it appends
    an entry of source 0 with the synthesized attributes; the entry takes
    the update id of the last local entry with the same two nexthops, or
    the RIB's [update_id] when there is none, and the RIB's [update_id]
    moves on only when the entry took its value. *)
Theorem insert_local_outcome : forall t r g l w,
  let uid :=
    match find (same_nexthops g (linklocal_of l)) (rev (Rib6.rib t)) with
    | Some e' => Rib6.entry_update_id e'
    | None => Rib6.update_id t
    end in
  let e := Rib6.mkEntry r 0 g (linklocal_of l) Rib6.local_attribs w uid in
  Rib6.insert_local t r (Some g) l w
  = if Rib6.local_exists (Rib6.rib t) r then Some (None, t)
    else Some (Some e,
               Rib6.mkRib (Rib6.rib t ++ [e])
                 (if uid =? Rib6.update_id t
                  then uint64 (Rib6.update_id t + 1)
                  else Rib6.update_id t)).
Proof.
  intros t r g l w uid e.
  unfold Rib6.insert_local, Rib6.new_BgpRib6Entry. fold (linklocal_of l).
  rewrite local_group_spec. cbn [Rib6.route Rib6.nexthop_global
    Rib6.nexthop_linklocal Rib6.src_router_id Rib6.attribs Rib6.weight].
  destruct (Rib6.local_exists (Rib6.rib t) r); reflexivity.
Qed.

Lemma local_exists_app : forall l1 l2 r,
  Rib6.local_exists (l1 ++ l2) r
  = Rib6.local_exists l1 r || Rib6.local_exists l2 r.
Proof. intros. unfold Rib6.local_exists. apply existsb_app. Qed.

Lemma local_exists_batch_entry : forall g l w u r,
  Rib6.local_exists [batch_entry g l w u r] r = true.
Proof.
  intros. unfold Rib6.local_exists, batch_entry. cbn [existsb Rib6.route
    Rib6.src_router_id].
  replace (Rib6.Prefix6_eqb r r) with true
    by (symmetry; apply Prefix6_eqb_eq; reflexivity).
  reflexivity.
Qed.

Lemma insert_local_loop_spec : forall g l w u rs entries inserted,
  exists new_routes,
    Rib6.insert_local_loop rs (Some g) l w u entries inserted
    = Some (entries ++ map (batch_entry g l w u) new_routes,
            inserted ++ map (batch_entry g l w u) new_routes)
    /\ incl new_routes rs
    /\ NoDup new_routes
    /\ (forall r, In r new_routes -> Rib6.local_exists entries r = false)
    /\ (forall r, In r rs ->
          Rib6.local_exists
            (entries ++ map (batch_entry g l w u) new_routes) r = true).
Proof.
  intros g l w u. induction rs as [|r rs IH]; intros entries inserted.
  - exists []. cbn [Rib6.insert_local_loop map]. rewrite !app_nil_r.
    split; [reflexivity|]. split; [apply incl_refl|].
    split; [constructor|]. split; intros r' [].
  - cbn [Rib6.insert_local_loop].
    destruct (Rib6.local_exists entries r) eqn:E.
    + destruct (IH entries inserted) as (nr & Hrun & Hincl & Hnd & Hnew & Hall).
      exists nr. split; [exact Hrun|]. split; [apply incl_tl; exact Hincl|].
      split; [exact Hnd|]. split; [exact Hnew|].
      intros r' [<- | Hin]; [|auto].
      rewrite local_exists_app, E. reflexivity.
    + unfold Rib6.new_BgpRib6Entry. fold (linklocal_of l).
      fold (batch_entry g l w u r).
      destruct (IH (entries ++ [batch_entry g l w u r])
                   (inserted ++ [batch_entry g l w u r]))
        as (nr & Hrun & Hincl & Hnd & Hnew & Hall).
      exists (r :: nr). cbn [map].
      rewrite <- !app_assoc in Hrun. cbn [app] in Hrun.
      rewrite <- !app_assoc in Hall. cbn [app] in Hall.
      split; [exact Hrun|].
      split; [intros x [<- | Hx]; [now left | right; auto]|].
      split.
      { constructor; [|exact Hnd]. intros Hin.
        specialize (Hnew r Hin).
        rewrite local_exists_app, local_exists_batch_entry in Hnew.
        rewrite orb_true_r in Hnew. discriminate. }
      split.
      { intros r' [<- | Hin]; [exact E|].
        specialize (Hnew r' Hin). rewrite local_exists_app in Hnew.
        apply orb_false_iff in Hnew. tauto. }
      intros r' [<- | Hin]; [|auto].
      rewrite local_exists_app.
      change (batch_entry g l w u r :: map (batch_entry g l w u) nr)
        with ([batch_entry g l w u r] ++ map (batch_entry g l w u) nr).
      rewrite local_exists_app, local_exists_batch_entry.
      rewrite orb_true_l, orb_true_r. reflexivity.
Qed.

(** X27. The local insert of a vector of routes appends one entry for
    each requested route that had no local entry, each route once, and
    returns those entries: source 0, the synthesized attributes, the two
    nexthops in the given order (zeroes for a [NULL] link-local one), the
    weight, and the RIB's [update_id] of before the call.  Afterwards every
    requested route has a local entry, and [update_id] is one more. *)
Theorem insert_local_batch_outcome : forall t rs g l w,
  exists new_routes,
    Rib6.insert_local_batch t rs (Some g) l w
    = Some (map (batch_entry g l w (Rib6.update_id t)) new_routes,
            Rib6.mkRib
              (Rib6.rib t
               ++ map (batch_entry g l w (Rib6.update_id t)) new_routes)
              (uint64 (Rib6.update_id t + 1)))
    /\ incl new_routes rs
    /\ NoDup new_routes
    /\ (forall r, In r new_routes ->
          Rib6.local_exists (Rib6.rib t) r = false)
    /\ (forall r, In r rs ->
          Rib6.local_exists
            (Rib6.rib t
             ++ map (batch_entry g l w (Rib6.update_id t)) new_routes) r
          = true).
Proof.
  intros t rs g l w.
  destruct (insert_local_loop_spec g l w (Rib6.update_id t) rs (Rib6.rib t) [])
    as (nr & Hrun & Hincl & Hnd & Hnew & Hall).
  exists nr. split; [|auto].
  unfold Rib6.insert_local_batch. rewrite Hrun. reflexivity.
Qed.

(** X28. With the bus, the local insert of a vector of routes publishes no
    event exactly when every requested route already had a local entry.
    Otherwise it publishes one event, which carries the routes of the
    inserted entries in the order of insertion, all of them requested, and
    the synthesized attributes. *)
Theorem insert_local_batch_bus_event : forall t rs g l w,
  exists inserted t1 ev,
    Rib6Bus.insert_local_batch_bus t rs (Some g) l w
    = Some (inserted, t1, ev)
    /\ Rib6.insert_local_batch t rs (Some g) l w = Some (inserted, t1)
    /\ (ev = None <->
        forall r, In r rs -> Rib6.local_exists (Rib6.rib t) r = true)
    /\ (forall e, ev = Some e ->
          Rib6Bus.routes e = map Rib6.route inserted
          /\ Rib6Bus.attribs e = Rib6.local_attribs
          /\ incl (Rib6Bus.routes e) rs).
Proof.
  intros t rs g l w.
  destruct (insert_local_loop_spec g l w (Rib6.update_id t) rs (Rib6.rib t) [])
    as (nr & Hrun & Hincl & Hnd & Hnew & Hall).
  unfold Rib6Bus.insert_local_batch_bus, Rib6.insert_local_batch.
  rewrite Hrun. cbn [app].
  assert (Hroutes : map Rib6.route
                      (map (batch_entry g l w (Rib6.update_id t)) nr) = nr).
  { rewrite map_map. cbn [batch_entry Rib6.route]. apply map_id. }
  destruct nr as [|r nr].
  - eexists _, _, _. split; [reflexivity|]. split; [reflexivity|].
    split.
    + split; [|reflexivity]. intros _ r Hr.
      specialize (Hall r Hr). cbn [map] in Hall.
      rewrite app_nil_r in Hall. exact Hall.
    + intros e He. discriminate.
  - eexists _, _, _. cbn [map]. split; [reflexivity|].
    split; [reflexivity|]. split.
    + split; [discriminate|]. intros Hex.
      assert (Hr : Rib6.local_exists (Rib6.rib t) r = false)
        by (apply Hnew; now left).
      rewrite (Hex r) in Hr by (apply Hincl; now left). discriminate.
    + intros e He. inversion He; subst e; clear He.
      split; [reflexivity|]. split; [reflexivity|].
      intros x Hx. apply Hincl. rewrite <- Hroutes. exact Hx.
Qed.

Lemma matches_other_source : forall src r x,
  Rib6.src_router_id x <> src -> Rib6.matches src r x = false.
Proof.
  intros src r x H. unfold Rib6.matches.
  apply Z.eqb_neq in H. rewrite H. apply andb_false_r.
Qed.

Lemma withdraw_batch_skip : forall src x u rs rest n,
  Rib6.src_router_id x <> src ->
  Rib6.withdraw_batch (Rib6.mkRib (x :: rest) u) src rs n
  = (fst (Rib6.withdraw_batch (Rib6.mkRib rest u) src rs n),
     Rib6.mkRib
       (x :: Rib6.rib (snd (Rib6.withdraw_batch (Rib6.mkRib rest u) src rs n)))
       u).
Proof.
  intros src x u. induction rs as [|r rs IH]; intros rest n Hx.
  - reflexivity.
  - cbn [Rib6.withdraw_batch]. unfold Rib6.withdraw.
    cbn [Rib6.rib Rib6.update_id Rib6.withdraw_loop].
    rewrite (matches_other_source src r x Hx).
    destruct (Rib6.withdraw_loop src r rest) as [b rest'].
    apply IH. exact Hx.
Qed.

Lemma discard_withdraw_batch : forall src u l n,
  Rib6.withdraw_batch (Rib6.mkRib l u) src
    (map Rib6.route (filter (fun e => Rib6.src_router_id e =? src) l)) n
  = (n + Z.of_nat
           (List.length (filter (fun e => Rib6.src_router_id e =? src) l)),
     Rib6.mkRib (filter (fun e => negb (Rib6.src_router_id e =? src)) l) u).
Proof.
  intros src u. induction l as [|x l IH]; intros n.
  - cbn. rewrite Z.add_0_r. reflexivity.
  - cbn [filter]. destruct (Rib6.src_router_id x =? src) eqn:E.
    + cbn [negb map Rib6.withdraw_batch]. unfold Rib6.withdraw.
      cbn [Rib6.rib Rib6.update_id Rib6.withdraw_loop].
      apply Z.eqb_eq in E.
      assert (Hm : Rib6.matches src (Rib6.route x) x = true)
        by (apply matches_iff; auto).
      rewrite Hm. rewrite IH. cbn [List.length]. f_equal. lia.
    + cbn [negb]. apply Z.eqb_neq in E.
      rewrite withdraw_batch_skip by exact E. rewrite IH. reflexivity.
Qed.

(** X29. [discard] of a source does what the withdraw of the routes it
    returns does: withdrawing, for the same source, the vector of routes
    that [discard] returns drops every one of them and leaves the RIB that
    [discard] leaves. *)
Theorem discard_as_withdraw_batch : forall t src,
  Rib6.withdraw_batch t src (fst (Rib6.discard t src)) 0
  = (Z.of_nat (List.length (fst (Rib6.discard t src))),
     snd (Rib6.discard t src)).
Proof.
  intros [l u] src. unfold Rib6.discard. cbn [fst snd Rib6.rib Rib6.update_id].
  rewrite discard_withdraw_batch. rewrite length_map. reflexivity.
Qed.

Lemma withdraw_effect : forall t src r,
  unique_entries (Rib6.rib t) ->
  (forall e, In e (Rib6.rib (snd (Rib6.withdraw t src r))) ->
     Rib6.matches src r e = false)
  /\ (forall e, In e (Rib6.rib (snd (Rib6.withdraw t src r))) ->
        In e (Rib6.rib t))
  /\ of_others src (Rib6.rib (snd (Rib6.withdraw t src r)))
     = of_others src (Rib6.rib t)
  /\ (if fst (Rib6.withdraw t src r) then 1 else 0)
     + Z.of_nat (List.length (Rib6.rib (snd (Rib6.withdraw t src r))))
     = Z.of_nat (List.length (Rib6.rib t)).
Proof.
  intros [entries uid] src r Hu. unfold Rib6.withdraw.
  cbn [Rib6.rib Rib6.update_id] in *.
  destruct (withdraw_loop_spec src r entries)
    as [[Hn Hw] | (l1 & e & l2 & Hl & He & Hl1 & Hw)]; rewrite Hw;
    cbn [fst snd Rib6.rib].
  - split; [exact Hn|]. split; [auto|]. split; [reflexivity | lia].
  - subst entries. split.
    { intros e' Hin. apply in_app_or in Hin. destruct Hin as [Hin|Hin]; [auto|].
      rewrite <- (matches_same_key _ _ _ e' He).
      apply (unique_split_rest _ _ _ Hu). assumption. }
    split.
    { intros e' Hin. apply in_or_app. apply in_app_or in Hin.
      destruct Hin; [now left | right; now right]. }
    split.
    { unfold of_others. rewrite !filter_app. cbn [filter].
      apply matches_iff in He. destruct He as [_ Hs].
      apply Z.eqb_eq in Hs. rewrite Hs. reflexivity. }
    rewrite !length_app. cbn [List.length]. lia.
Qed.

Lemma withdraw_batch_effect : forall src rs t n,
  unique_entries (Rib6.rib t) ->
  (forall r e, In r rs ->
     In e (Rib6.rib (snd (Rib6.withdraw_batch t src rs n))) ->
     Rib6.matches src r e = false)
  /\ (forall e, In e (Rib6.rib (snd (Rib6.withdraw_batch t src rs n))) ->
        In e (Rib6.rib t))
  /\ of_others src (Rib6.rib (snd (Rib6.withdraw_batch t src rs n)))
     = of_others src (Rib6.rib t)
  /\ n <= fst (Rib6.withdraw_batch t src rs n)
       <= n + Z.of_nat (List.length rs)
  /\ fst (Rib6.withdraw_batch t src rs n) - n
     + Z.of_nat
         (List.length (Rib6.rib (snd (Rib6.withdraw_batch t src rs n))))
     = Z.of_nat (List.length (Rib6.rib t)).
Proof.
  intros src. induction rs as [|r rs IH]; intros t n Hu.
  - cbn [Rib6.withdraw_batch fst snd List.length].
    split; [intros r e []|]. split; [auto|]. split; [reflexivity|].
    split; lia.
  - cbn [Rib6.withdraw_batch].
    destruct (withdraw_effect t src r Hu) as (H1 & H2 & H3 & H4).
    pose proof (withdraw_unique t src r Hu) as Hu1.
    destruct (Rib6.withdraw t src r) as [ok t1].
    cbn [fst snd] in *.
    destruct (IH t1 (if ok then n + 1 else n) Hu1) as (I1 & I2 & I3 & I4 & I5).
    split.
    { intros r' e [<- | Hin] He; [apply H1, I2, He | eapply I1; eauto]. }
    split; [auto|]. split; [congruence|].
    cbn [List.length]. destruct ok; split; lia.
Qed.

(** X30. The withdraw of a vector of routes, on a RIB that the operations
    build from a new RIB, leaves no entry of the source for any of the
    routes, touches no entry of another source and not [update_id], and
    returns the number of entries it erased, which is at most the number
    of routes. *)
Theorem withdraw_batch_outcome : forall gt t src rs,
  Rib6.reachable gt t ->
  let dropped := fst (Rib6.withdraw_batch t src rs 0) in
  let t' := snd (Rib6.withdraw_batch t src rs 0) in
  (forall r e, In r rs -> In e (Rib6.rib t') -> Rib6.matches src r e = false)
  /\ of_others src (Rib6.rib t') = of_others src (Rib6.rib t)
  /\ Rib6.update_id t' = Rib6.update_id t
  /\ 0 <= dropped <= Z.of_nat (List.length rs)
  /\ dropped + Z.of_nat (List.length (Rib6.rib t'))
     = Z.of_nat (List.length (Rib6.rib t)).
Proof.
  intros gt t src rs Hreach dropped t'.
  pose proof (reachable_unique gt t Hreach) as Hu.
  destruct (withdraw_batch_effect src rs t 0 Hu) as (H1 & _ & H3 & H4 & H5).
  fold dropped in H4, H5. fold t' in H1, H3, H5.
  split; [exact H1|]. split; [exact H3|].
  split; [apply withdraw_batch_update_id|]. split; lia.
Qed.

Lemma withdraw_batch_outcome_witness :
  0 <= fst (Rib6.withdraw_batch
              (Rib6.mkRib
                 [Rib6.mkEntry prefix_2001_db8_32 1 global_2001_db8_1
                    linklocal_fe80_1 [] 0 0] 1)
              1 [prefix_2001_db8_32; prefix_2001_db8_1_48] 0)
    <= Z.of_nat (List.length [prefix_2001_db8_32; prefix_2001_db8_1_48]).
Proof.
  destruct (withdraw_batch_outcome heavier
              (Rib6.mkRib
                 [Rib6.mkEntry prefix_2001_db8_32 1 global_2001_db8_1
                    linklocal_fe80_1 [] 0 0] 1)
              1 [prefix_2001_db8_32; prefix_2001_db8_1_48])
    as (_ & _ & _ & H & _).
  - apply (Rib6.reach_run heavier
             (Rib6.OpInsertPeer 1 prefix_2001_db8_32 (Some global_2001_db8_1)
                (Some linklocal_fe80_1) [] 0) Rib6.new_rib).
    + apply Rib6.reach_new.
    + reflexivity.
  - exact H.
Defined.
